(** * byeolstar.com: server actions, list state and form widgets

    A shallow embedding of the parts of the site that carry its
    behaviour:

    - the tag widget of the store dialogs
      ([components/dialog/dialog-store-add.tsx] and the edit dialog),
    - the parking classifier and the page/search state of the list
      components ([components/starbucks/post-list.tsx],
      [components/admin/comments-manage.tsx] and the stores table),
    - the comment and store server actions ([lib/actions]),
    - the handlers of the comments table, of the stores table and of
      the dialog that adds a store, and what a card of the post list
      shows of its store.

    JavaScript strings are sequences of UTF-16 code units; numbers that
    the code uses as counts and page numbers are integers ([Z]). *)

From Stdlib Require Import ZArith NArith List Bool Lia String Ascii.
From Stdlib Require PrimFloat.
From stdpp Require Import base option list gmap sorting.

Local Open Scope Z_scope.

(** ** JavaScript strings *)

Module JS.

(** A string value: its UTF-16 code units. *)
Abbreviation jsstring := (list N).

(** Source literals are written as Rocq strings, whose bytes are the
    UTF-8 encoding of the text; [utf16] decodes them to code units
    (one unit per BMP character, a surrogate pair above it). *)
Fixpoint utf16 (bs : list N) : jsstring :=
  match bs with
  | [] => []
  | b0 :: r0 =>
    if (b0 <? 128)%N then b0 :: utf16 r0
    else match r0 with
    | [] => [65533%N]
    | b1 :: r1 =>
      if (b0 <? 224)%N then ((b0 mod 32) * 64 + b1 mod 64)%N :: utf16 r1
      else match r1 with
      | [] => [65533%N]
      | b2 :: r2 =>
        if (b0 <? 240)%N
        then ((b0 mod 16) * 4096 + (b1 mod 64) * 64 + b2 mod 64)%N :: utf16 r2
        else match r2 with
        | [] => [65533%N]
        | b3 :: r3 =>
          let cp := ((b0 mod 8) * 262144 + (b1 mod 64) * 4096
                     + (b2 mod 64) * 64 + b3 mod 64 - 65536)%N in
          (55296 + cp / 1024)%N :: (56320 + cp mod 1024)%N :: utf16 r3
        end
      end
    end
  end.

Definition js (s : string) : jsstring :=
  utf16 (map N_of_ascii (list_ascii_of_string s)).

(** [String.prototype.toLowerCase], one code unit at a time: the Basic
    Latin and Latin-1 capitals move to their small letters, every other
    unit stays (Hangul, the script of the site's data, has no case; the
    case pairs of other scripts are not tabulated here). It is the
    function of the language on strings of Basic Latin, Latin-1 and
    scripts without case, and it is used on the parking texts, whose
    keywords are Hangul, and in the sample runs. The tag widget and the
    search, which meet text in any script, are stated for an arbitrary
    lowering function instead. *)
Definition lowerUnit (u : N) : N :=
  if ((65 <=? u) && (u <=? 90))%N then (u + 32)%N
  else if ((192 <=? u) && (u <=? 222) && negb (u =? 215))%N then (u + 32)%N
  else u.

Definition toLowerCase (s : jsstring) : jsstring := map lowerUnit s.



(** White space and line terminators of ECMAScript, as [trim] strips
    them. *)
Definition isWhiteSpace (u : N) : bool :=
  ((9 <=? u) && (u <=? 13) || (u =? 32) || (u =? 160) || (u =? 5760)
   || (8192 <=? u) && (u <=? 8202) || (u =? 8232) || (u =? 8233)
   || (u =? 8239) || (u =? 8287) || (u =? 12288) || (u =? 65279))%N.

Fixpoint trimStart (s : jsstring) : jsstring :=
  match s with
  | u :: s' => if isWhiteSpace u then trimStart s' else s
  | [] => []
  end.

Definition trimEnd (s : jsstring) : jsstring := rev (trimStart (rev s)).

Definition trim (s : jsstring) : jsstring := trimEnd (trimStart s).

(** [s.startsWith(p)] and [s.includes(p)]: comparison of code units. *)
Fixpoint startsWith (s p : jsstring) : bool :=
  match p, s with
  | [], _ => true
  | _ :: _, [] => false
  | a :: p', b :: s' => (a =? b)%N && startsWith s' p'
  end.

Fixpoint includes (s p : jsstring) : bool :=
  startsWith s p ||
  match s with
  | [] => false
  | _ :: s' => includes s' p
  end.

(** [Array.prototype.includes] on an array of strings. *)
Definition Array_includes (l : list jsstring) (x : jsstring) : bool :=
  bool_decide (x ∈ l).

(** Truthiness of a string: the empty string is falsy. *)
Definition truthy (s : jsstring) : bool :=
  match s with [] => false | _ :: _ => true end.

End JS.

Import JS.

(** ** The tag widget of the store dialogs

    [handleTagAdd] and [handleTagRemove] are the same in the add and the
    edit dialog. [tags] is the watched form value; [form.setValue] is
    the new value of that field. Tags are free text in any script, so
    [toLowerCase], the method of the language, is a variable here:
    nothing is assumed about which strings it identifies. *)

Module TagWidget.

Section Widget.

Variable toLowerCase : jsstring → jsstring.

Definition handleTagAdd (tags : list jsstring) (newTag : jsstring)
  : list jsstring :=
  let trimmed := trim newTag in
  if negb (truthy trimmed) then tags
  else
    let lowerTags := map toLowerCase tags in
    if negb (Array_includes lowerTags (toLowerCase trimmed))
    then tags ++ [trimmed]
    else tags.

Definition handleTagRemove (tags : list jsstring) (tagToRemove : jsstring)
  : list jsstring :=
  filter (fun tag => tag ≠ tagToRemove) tags.

(** The Enter key of the tag input: [tagInput] is the text typed so far,
    [isComposing] is set while an input method composes a syllable. The
    result is the new tag list and the new input text. *)
Definition onEnterKey (tags : list jsstring) (tagInput : jsstring)
    (isComposing : bool) : list jsstring * jsstring :=
  if negb isComposing then
    if (0 <? length (trim tagInput))%nat
    then (handleTagAdd tags tagInput, [])
    else (tags, tagInput)
  else (tags, tagInput).

(** No two tags that differ only by case. *)
Definition caseUnique (tags : list jsstring) : Prop :=
  NoDup (map toLowerCase tags).

End Widget.

End TagWidget.

(** ** The parking classifier of the list components *)

Module Parking.

Inductive Variant := destructive | default | outline | secondary.

Record ParkingInfo := {
  status : jsstring;
  variant : Variant;
  bgColor : option jsstring
}.

Definition kw_unavailable : jsstring := Eval vm_compute in js "불가".
Definition kw_paid : jsstring := Eval vm_compute in js "유료".
Definition kw_free : jsstring := Eval vm_compute in js "무료".
Definition kw_unknown : jsstring := Eval vm_compute in js "정보없음".
Definition kw_available : jsstring := Eval vm_compute in js "가능".

(** The stores table of the admin pages. *)
Definition getParkingInfo (parking : jsstring) : ParkingInfo :=
  let lowerParking := toLowerCase parking in
  if includes lowerParking kw_unavailable then
    {| status := kw_unavailable; variant := destructive; bgColor := None |}
  else if includes lowerParking kw_paid then
    {| status := kw_paid; variant := destructive; bgColor := None |}
  else if includes lowerParking kw_free then
    {| status := kw_free; variant := default; bgColor := None |}
  else
    {| status := kw_unknown; variant := outline; bgColor := None |}.

(** The public post list: older records hold a boolean. *)
Definition getParkingInfo_post (parking : jsstring + bool) : ParkingInfo :=
  match parking with
  | inr b =>
    if b then {| status := kw_available; variant := default;
                 bgColor := Some (js "bg-green-500/90") |}
    else {| status := kw_unavailable; variant := secondary;
            bgColor := Some (js "bg-red-500/90") |}
  | inl parking =>
    let lowerParking := toLowerCase parking in
    if includes lowerParking kw_unavailable then
      {| status := kw_unavailable; variant := secondary;
         bgColor := Some (js "bg-red-500/90") |}
    else if includes lowerParking kw_paid then
      {| status := kw_paid; variant := secondary;
         bgColor := Some (js "bg-orange-500/90") |}
    else if includes lowerParking kw_free then
      {| status := kw_free; variant := default;
         bgColor := Some (js "bg-green-500/90") |}
    else
      {| status := kw_unknown; variant := outline;
         bgColor := Some (js "bg-gray-500/90") |}
  end.

End Parking.

(** ** Search, category and page state of the list components

    The three list components keep the same state: the text of the
    search box, the committed (debounced) search term, the page and the
    page size, and the pagination record of the last successful fetch.
    The public post list adds a category and fixes the page size at 9;
    the admin tables let the page size change. *)

Module ListState.

Record PaginationInfo := {
  currentPage : Z;
  totalPages : Z;
  totalCount : Z;
  limit : Z;
  hasNextPage : bool;
  hasPrevPage : bool
}.

Record State := {
  searchTerm : jsstring;
  debouncedSearchTerm : jsstring;
  selectedCategory : jsstring;
  page : Z;                        (* the [currentPage] state variable *)
  pageSize : Z;
  pagination : option PaginationInfo
}.

Definition setCurrentPage (p : Z) (st : State) : State :=
  {| searchTerm := searchTerm st;
     debouncedSearchTerm := debouncedSearchTerm st;
     selectedCategory := selectedCategory st;
     page := p;
     pageSize := pageSize st;
     pagination := pagination st |}.

(** [onChange] of the search box. The effect on [searchTerm] restarts
    the 500 ms timer; its callback is [debounceFire]. *)
Definition setSearchTerm (s : jsstring) (st : State) : State :=
  {| searchTerm := s;
     debouncedSearchTerm := debouncedSearchTerm st;
     selectedCategory := selectedCategory st;
     page := page st;
     pageSize := pageSize st;
     pagination := pagination st |}.

Definition debounceFire (st : State) : State :=
  {| searchTerm := searchTerm st;
     debouncedSearchTerm := searchTerm st;
     selectedCategory := selectedCategory st;
     page := 1;
     pageSize := pageSize st;
     pagination := pagination st |}.

(** [setSelectedCategory] followed by the effect that depends on
    [selectedCategory]: the effect runs when the value changed. *)
Definition selectCategory (c : jsstring) (st : State) : State :=
  if decide (c = selectedCategory st) then st
  else
    {| searchTerm := searchTerm st;
       debouncedSearchTerm := debouncedSearchTerm st;
       selectedCategory := c;
       page := 1;
       pageSize := pageSize st;
       pagination := pagination st |}.

(** The admin tables: [Number(newPageSize)] of the select's value. *)
Definition handlePageSizeChange (newPageSize : Z) (st : State) : State :=
  {| searchTerm := searchTerm st;
     debouncedSearchTerm := debouncedSearchTerm st;
     selectedCategory := selectedCategory st;
     page := 1;
     pageSize := newPageSize;
     pagination := pagination st |}.

Definition goToPage (p : Z) (st : State) : State := setCurrentPage p st.

(** A successful fetch stores the pagination record it received. *)
Definition setPagination (pg : PaginationInfo) (st : State) : State :=
  {| searchTerm := searchTerm st;
     debouncedSearchTerm := debouncedSearchTerm st;
     selectedCategory := selectedCategory st;
     page := page st;
     pageSize := pageSize st;
     pagination := Some pg |}.

(** The page buttons of the admin tables, [renderPaginationButtons]:
    the loop from [startPage] to [endPage]. *)
Definition renderPaginationButtons (st : State) : option (list Z) :=
  match pagination st with
  | None => None
  | Some pg =>
    let startPage := Z.max 1 (currentPage pg - 2) in
    let endPage := Z.min (totalPages pg) (currentPage pg + 2) in
    Some (seqZ startPage (endPage - startPage + 1))
  end.

(** The page links of the public post list:
    [Array.from({ length: Math.min(5, totalPages) }, ...)], the entries
    that are not [null]. *)
Definition postPageLinks (st : State) (pg : PaginationInfo) : list Z :=
  let startPage := Z.max 1 (Z.min (page st - 2) (totalPages pg - 4)) in
  filter (fun pageNumber => pageNumber <= totalPages pg)
         (map (fun i => startPage + i) (seqZ 0 (Z.min 5 (totalPages pg)))).

(** The controls that change the page. *)
Inductive Control :=
  | FirstPage | PrevPage | PageButton (i : Z) | NextPage | LastPage.

(** Admin tables: the bar is rendered when there is more than one page;
    the four arrows are disabled by the flags of the pagination record.
    The result is the page the click asks for, [None] when the control
    is absent or disabled. *)
Definition adminClick (st : State) (c : Control) : option Z :=
  match pagination st with
  | None => None
  | Some pg =>
    if 1 <? totalPages pg then
      match c with
      | FirstPage => if hasPrevPage pg then Some 1 else None
      | PrevPage => if hasPrevPage pg then Some (page st - 1) else None
      | PageButton i =>
        match renderPaginationButtons st with
        | Some l => if bool_decide (i ∈ l) then Some i else None
        | None => None
        end
      | NextPage => if hasNextPage pg then Some (page st + 1) else None
      | LastPage => if hasNextPage pg then Some (totalPages pg) else None
      end
    else None
  end.

(** Public post list: previous and next test the flags in the handler,
    the links to the first and the last page are rendered away from the
    ends of the range. *)
Definition postClick (st : State) (c : Control) : option Z :=
  match pagination st with
  | None => None
  | Some pg =>
    if 1 <? totalPages pg then
      match c with
      | PrevPage => if hasPrevPage pg then Some (page st - 1) else None
      | FirstPage => if 3 <? page st then Some 1 else None
      | PageButton i =>
        if bool_decide (i ∈ postPageLinks st pg) then Some i else None
      | LastPage =>
        if page st <? totalPages pg - 2 then Some (totalPages pg) else None
      | NextPage => if hasNextPage pg then Some (page st + 1) else None
      end
    else None
  end.

Definition click (target : option Z) (st : State) : State :=
  match target with
  | Some p => goToPage p st
  | None => st
  end.

(** The pagination record describes the page the component is on, with
    the flags as the server computes them. *)
Definition inSync (st : State) (pg : PaginationInfo) : Prop :=
  pagination st = Some pg ∧
  currentPage pg = page st ∧
  hasNextPage pg = (currentPage pg <? totalPages pg) ∧
  hasPrevPage pg = (1 <? currentPage pg).

(** The page shown lies among the pages the listing has. *)
Definition pageInRange (st : State) (pg : PaginationInfo) : Prop :=
  1 ≤ page st ≤ totalPages pg.

(** A list on page 2 of 3. *)
Definition page2of3 : State :=
  {| searchTerm := []; debouncedSearchTerm := [];
     selectedCategory := js "all"; page := 2; pageSize := 10;
     pagination := Some {| currentPage := 2; totalPages := 3;
                           totalCount := 23; limit := 10;
                           hasNextPage := true; hasPrevPage := true |} |}.

(** A list on page 5 when the listing has 3 pages: the pagination
    record is the one the server computes for page 5 of 23 records, ten
    to a page. *)
Definition page5of3 : State :=
  {| searchTerm := []; debouncedSearchTerm := [];
     selectedCategory := js "all"; page := 5; pageSize := 10;
     pagination := Some {| currentPage := 5; totalPages := 3;
                           totalCount := 23; limit := 10;
                           hasNextPage := false; hasPrevPage := true |} |}.

End ListState.

(** ** Search patterns *)

Module Pattern.

(** The metacharacters of regular expressions:
    [\ ^ $ . | ? * + ( ) [ ] { }]. *)
Definition isMeta (u : N) : bool :=
  bool_decide
    (u ∈ [92; 94; 36; 46; 124; 63; 42; 43; 40; 41; 91; 93; 123; 125]%N).

(** A pattern without metacharacters. *)
Definition plain (p : jsstring) : bool := forallb (fun u => negb (isMeta u)) p.

(** [s] occurs in [field] when case is ignored: the two are compared
    after [fold], the case folding of whoever compares. *)
Definition containsCI (fold : jsstring → jsstring) (field s : jsstring)
  : bool :=
  includes (fold field) (fold s).

End Pattern.

(** ** The server side: database, exceptions and the actions *)

Module Server.

(** *** Numbers and object ids *)

(** The value of [Math.ceil(a / b)] for integers [a] and [b]: an
    integer when [b] is not zero, otherwise one of the non-finite
    numbers. (For counts below 2^53 the rounding of the floating point
    quotient does not change its ceiling.) *)
Inductive number := Int (z : Z) | Infinity | NegInfinity | NaN.

Definition Math_ceil_div (a b : Z) : number :=
  if b =? 0 then
    if a =? 0 then NaN else if 0 <? a then Infinity else NegInfinity
  else Int (- ((- a) / b)).

(** [p < n] for an integer [p]. *)
Definition lt_number (p : Z) (n : number) : bool :=
  match n with
  | Int z => p <? z
  | Infinity => true
  | NegInfinity | NaN => false
  end.

(** An ObjectId is a 96-bit number; its string form is 24 hexadecimal
    digits, and a string is cast to an id when it has that form. *)
Abbreviation ObjectId := N.

Definition hexDigit (u : N) : option N :=
  if ((48 <=? u) && (u <=? 57))%N then Some (u - 48)%N
  else if ((97 <=? u) && (u <=? 102))%N then Some (u - 87)%N
  else if ((65 <=? u) && (u <=? 70))%N then Some (u - 55)%N
  else None.

Fixpoint hexValue (acc : N) (s : jsstring) : option N :=
  match s with
  | [] => Some acc
  | u :: s' =>
    match hexDigit u with
    | Some d => hexValue (16 * acc + d)%N s'
    | None => None
    end
  end.

Definition castObjectId (s : jsstring) : option ObjectId :=
  if (length s =? 24)%nat then hexValue 0%N s else None.

Definition hexChar (d : N) : N :=
  if (d <? 10)%N then (48 + d)%N else (87 + d)%N.

Fixpoint hexDigits (k : nat) (n : N) : jsstring :=
  match k with
  | O => []
  | S k' => hexDigits k' (n / 16)%N ++ [hexChar (n mod 16)%N]
  end.

Definition ObjectId_toString (id : ObjectId) : jsstring := hexDigits 24 id.

(** *** Documents *)

Record Comment := {
  c_postId : ObjectId;
  author : jsstring;
  content : jsstring;
  email : option jsstring;          (* [null] when absent *)
  isDeleted : bool;
  c_createdAt : Z;
  c_updatedAt : Z
}.

Record Post := {
  title : jsstring;
  slug : jsstring
}.

Record Store := {
  name : jsstring;
  address : jsstring;
  location : jsstring;
  storeId : jsstring;
  latitude : option PrimFloat.float;
  longitude : option PrimFloat.float;
  parking : jsstring;
  since : jsstring;
  phone : option jsstring;
  tags : list jsstring;
  images : list jsstring;
  s_createdAt : Z;
  s_updatedAt : Z
}.

(** The validated input of [createStore] ([IStoreInput]) and of
    [createComment]. *)
Record IStoreInput := {
  i_name : jsstring;
  i_address : jsstring;
  i_location : jsstring;
  i_storeId : jsstring;
  i_latitude : option PrimFloat.float;
  i_longitude : option PrimFloat.float;
  i_parking : jsstring;
  i_since : jsstring;
  i_phone : option jsstring;
  i_tags : list jsstring;
  i_images : list jsstring
}.

Record CommentInput := {
  in_postId : jsstring;
  in_author : jsstring;
  in_content : jsstring;
  in_email : option jsstring
}.

(** A comment as [populate('postId', 'title slug')] returns it: the
    reference is replaced by the post's title and slug, or by [null]
    when the post is gone. *)
Record PopulatedComment := {
  pc_id : ObjectId;
  pc_post : option (ObjectId * Post);
  pc_comment : Comment
}.

(** *** The world of an action

    A collection maps the [_id] of a document to the document. Besides
    the database the world holds [faults], the fate of the awaited
    database calls to come, one entry per call ([true]: the call
    rejects); [clock], the time [new Date()] reads; [nextId], the next
    ObjectId to hand out (the generator of ids; ids are handed out in
    sequence); and [revalidated], the paths given to [revalidatePath]
    so far. [console.error] leaves no trace here, and the round trip
    [JSON.parse(JSON.stringify(x))] of a result is [x]. *)
Record Database := {
  comments : gmap N Comment;
  stores : gmap N Store;
  posts : gmap N Post
}.

Record World := {
  db : Database;
  faults : list bool;
  clock : Z;
  nextId : N;
  revalidated : list jsstring
}.

Definition set_comments (m : gmap N Comment) (d : Database) : Database :=
  {| comments := m; stores := stores d; posts := posts d |}.

Definition set_stores (m : gmap N Store) (d : Database) : Database :=
  {| comments := comments d; stores := m; posts := posts d |}.

Definition set_db (d : Database) (w : World) : World :=
  {| db := d; faults := faults w; clock := clock w; nextId := nextId w;
     revalidated := revalidated w |}.

Definition set_faults (fs : list bool) (w : World) : World :=
  {| db := db w; faults := fs; clock := clock w; nextId := nextId w;
     revalidated := revalidated w |}.

Definition set_clock (t : Z) (w : World) : World :=
  {| db := db w; faults := faults w; clock := t; nextId := nextId w;
     revalidated := revalidated w |}.

Definition set_nextId (n : N) (w : World) : World :=
  {| db := db w; faults := faults w; clock := clock w; nextId := n;
     revalidated := revalidated w |}.

Definition set_revalidated (l : list jsstring) (w : World) : World :=
  {| db := db w; faults := faults w; clock := clock w; nextId := nextId w;
     revalidated := l |}.

(** *** Asynchronous code that may throw *)

Record ZodIssue := {
  issue_path : list jsstring;
  issue_message : jsstring
}.

Inductive exn :=
  | ZodError (issues : list ZodIssue)   (* [error.name === 'ZodError'] *)
  | CastError                           (* a string that is no ObjectId *)
  | MongoError.                         (* the database rejected the call *)

Inductive Completion (A : Type) :=
  | Normal (a : A)
  | Throw (e : exn).
Arguments Normal {A} a.
Arguments Throw {A} e.

Definition Async (A : Type) : Type := World → Completion A * World.

Definition ret {A} (a : A) : Async A := fun w => (Normal a, w).

Definition throw {A} (e : exn) : Async A := fun w => (Throw e, w).

Definition bind {A B} (m : Async A) (k : A → Async B) : Async B :=
  fun w =>
    match m w with
    | (Normal a, w') => k a w'
    | (Throw e, w') => (Throw e, w')
    end.

(** [try { body } catch (error) { handler }] *)
Definition try_catch {A} (body : Async A) (handler : exn → Async A)
  : Async A :=
  fun w =>
    match body w with
    | (Normal a, w') => (Normal a, w')
    | (Throw e, w') => handler e w'
    end.

Declare Scope async_scope.
Delimit Scope async_scope with async.
Notation "'let*' x := m 'in' k" := (bind m (fun x => k))
  (at level 10, x name, m at level 100, k at level 200) : async_scope.
Notation "m ';;;' k" := (bind m (fun _ => k))
  (at level 100, k at level 200, right associativity) : async_scope.

Local Open Scope async_scope.

Definition get_world : Async World := fun w => (Normal w, w).

Definition modify (f : World → World) : Async unit :=
  fun w => (Normal tt, f w).

(** One awaited database call: it consumes its entry of [faults]. *)
Definition dbCall : Async unit :=
  fun w =>
    match faults w with
    | [] => (Normal tt, w)
    | false :: fs => (Normal tt, set_faults fs w)
    | true :: fs => (Throw MongoError, set_faults fs w)
    end.

Definition connectToDatabase : Async unit := dbCall.

(** Whether the next database call rejects, and the world it leaves. *)
Definition rejects (w : World) : bool :=
  match faults w with
  | true :: _ => true
  | _ => false
  end.

Definition settle (w : World) : World :=
  match faults w with
  | [] => w
  | _ :: fs => set_faults fs w
  end.

Definition new_Date : Async Z := fun w => (Normal (clock w), w).

Definition revalidatePath (p : jsstring) : Async unit :=
  modify (fun w => set_revalidated (revalidated w ++ [p]) w).

(** *** Queries

    A query condition as the actions build it: no condition, a
    disjunction, or a case-insensitive regular expression on the string
    values found at a path (one value for a string field, none for
    [null], the elements for an array of strings). *)
Record RegexCond (D : Type) := {
  values : D → list jsstring;
  pattern : jsstring                 (* [$regex], with [$options: 'i'] *)
}.
Arguments values {D} r d.
Arguments pattern {D} r.

Inductive Filter (D : Type) :=
  | MatchAll
  | Or (alternatives : list (RegexCond D)).
Arguments MatchAll {D}.
Arguments Or {D} alternatives.

(** A collection of the database, as a Mongoose model sees it. *)
Record Model (D : Type) := {
  collection : Database → gmap N D;
  createdAt : D → Z
}.
Arguments collection {D} m d.
Arguments createdAt {D} m d.

Definition Comments : Model Comment :=
  {| collection := comments; createdAt := c_createdAt |}.

Definition StoreModel : Model Store :=
  {| collection := stores; createdAt := s_createdAt |}.

(** [sort({ createdAt: -1 })] *)
Definition newerFirst {D} (M : Model D) (x y : N * D) : Prop :=
  createdAt M (snd y) ≤ createdAt M (snd x).

#[global] Instance newerFirst_dec {D} (M : Model D) :
  RelDecision (newerFirst M).
Proof. intros x y. unfold newerFirst. apply _. Defined.

(** The database returns the documents newest first; the order it
    gives to documents of the same creation time is its own, and is
    fixed here by one sorting function. What is proved of a single
    result holds for every such order; a property that relates the
    results of several queries assumes distinct creation times. *)
Definition sortNewestFirst {D} (M : Model D) (l : list (N * D))
  : list (N * D) :=
  merge_sort (newerFirst M) l.

(** [limit(n)]: no limit for 0, the absolute value for a negative one. *)
Definition applyLimit {A} (n : Z) (l : list A) : list A :=
  if n =? 0 then l else take (Z.abs_nat n) l.

Definition matching {D} (M : Model D) (test : D → bool) (d : Database)
  : list (N * D) :=
  filter (fun kd => test (snd kd) = true) (map_to_list (collection M d)).

Section Database.

(** The regular expressions of the database under the option [i]: a
    pattern it accepts denotes a test on strings (does some part of the
    string match), a pattern it refuses denotes nothing and the query
    that carries it is rejected. *)
Variable RegExp : jsstring → option (jsstring → bool).

Definition compileRegex {D} (r : RegexCond D) : option (D → bool) :=
  match RegExp (pattern r) with
  | Some test => Some (fun d => existsb test (values r d))
  | None => None
  end.

Fixpoint compileOr {D} (rs : list (RegexCond D)) : option (D → bool) :=
  match rs with
  | [] => Some (fun _ => false)
  | r :: rs' =>
    match compileRegex r, compileOr rs' with
    | Some p, Some q => Some (fun d => p d || q d)
    | _, _ => None
    end
  end.

Definition compileFilter {D} (f : Filter D) : option (D → bool) :=
  match f with
  | MatchAll => Some (fun _ => true)
  | Or rs => compileOr rs
  end.

Definition countDocuments {D} (M : Model D) (f : Filter D) : Async Z :=
  dbCall ;;;
  match compileFilter f with
  | None => throw MongoError
  | Some test =>
    let* w := get_world in
    ret (Z.of_nat (length (matching M test (db w))))
  end.

(** [find(f).sort({ createdAt: -1 })], with [skip] and [limit] when
    given. A negative [skip] is rejected by the database. *)
Definition find {D} (M : Model D) (f : Filter D) (window : option (Z * Z))
  : Async (list (N * D)) :=
  dbCall ;;;
  match compileFilter f with
  | None => throw MongoError
  | Some test =>
    let* w := get_world in
    let sorted := sortNewestFirst M (matching M test (db w)) in
    match window with
    | None => ret sorted
    | Some (skip, limit) =>
      if skip <? 0 then throw MongoError
      else ret (applyLimit limit (drop (Z.to_nat skip) sorted))
    end
  end.

Definition populate (d : Database) (kc : N * Comment) : PopulatedComment :=
  {| pc_id := fst kc;
     pc_post := match posts d !! c_postId (snd kc) with
                | Some p => Some (c_postId (snd kc), p)
                | None => None
                end;
     pc_comment := snd kc |}.

Definition findPopulated (f : Filter Comment) (window : option (Z * Z))
  : Async (list PopulatedComment) :=
  let* found := find Comments f window in
  let* w := get_world in
  ret (map (populate (db w)) found).

Definition findById {D} (M : Model D) (id : jsstring) : Async (option D) :=
  dbCall ;;;
  match castObjectId id with
  | None => throw CastError
  | Some k =>
    let* w := get_world in
    ret (collection M (db w) !! k)
  end.

(** The update [{ isDeleted, updatedAt }] of a comment. *)
Definition setDeleted (deleted : bool) (updated : Z) (c : Comment) : Comment :=
  {| c_postId := c_postId c; author := author c; content := content c;
     email := email c; isDeleted := deleted;
     c_createdAt := c_createdAt c; c_updatedAt := updated |}.

(** [Comments.findByIdAndUpdate(id, { isDeleted, updatedAt })] *)
Definition Comments_findByIdAndUpdate (id : jsstring) (deleted : bool)
    (updated : Z) : Async unit :=
  dbCall ;;;
  match castObjectId id with
  | None => throw CastError
  | Some k =>
    modify (fun w =>
      set_db (set_comments (alter (setDeleted deleted updated) k
                              (comments (db w))) (db w)) w)
  end.

(** [Store.findOne({ storeId })] *)
Definition Store_findOne (sid : jsstring) : Async (option (N * Store)) :=
  dbCall ;;;
  let* w := get_world in
  ret (snd <$> list_find (fun kd => storeId (snd kd) = sid)
                         (map_to_list (stores (db w)))).

Definition fresh_id : Async N :=
  fun w => (Normal (nextId w), set_nextId (N.succ (nextId w)) w).

(** The document of a validated input, created at time [now]. *)
Definition storeDocument (v : IStoreInput) (now : Z) : Store :=
  {| name := i_name v; address := i_address v;
     location := i_location v; storeId := i_storeId v;
     latitude := i_latitude v; longitude := i_longitude v;
     parking := i_parking v; since := i_since v;
     phone := i_phone v; tags := i_tags v; images := i_images v;
     s_createdAt := now; s_updatedAt := now |}.

(** [Store.create(validatedData)]: the new document gets its id and its
    two timestamps. *)
Definition Store_create (v : IStoreInput) : Async (N * Store) :=
  dbCall ;;;
  let* id := fresh_id in
  let* now := new_Date in
  let doc := storeDocument v now in
  modify (fun w =>
    set_db (set_stores (<[id := doc]> (stores (db w))) (db w)) w) ;;;
  ret (id, doc).

(** [Comments.create({ postId, author, content, email, isDeleted })]:
    the post reference is cast to an ObjectId. *)
Definition Comments_create (postId : jsstring) (a c : jsstring)
    (e : option jsstring) (deleted : bool) : Async (N * Comment) :=
  dbCall ;;;
  match castObjectId postId with
  | None => throw CastError
  | Some pid =>
    let* id := fresh_id in
    let* now := new_Date in
    let doc := {| c_postId := pid; author := a; content := c; email := e;
                  isDeleted := deleted;
                  c_createdAt := now; c_updatedAt := now |} in
    modify (fun w =>
      set_db (set_comments (<[id := doc]> (comments (db w))) (db w)) w) ;;;
    ret (id, doc)
  end.

End Database.

(** *** Results of the actions

    Every action returns an object with a [success] flag; the other
    fields are present or not depending on the action and the outcome. *)
Record Result (P : Type) := {
  success : bool;
  message : option jsstring;
  error : option jsstring;
  errors : option (list ZodIssue);
  payload : option P
}.
Arguments success {P} r.
Arguments message {P} r.
Arguments error {P} r.
Arguments errors {P} r.
Arguments payload {P} r.

Definition ok_with {P} (m : option jsstring) (p : option P) : Result P :=
  {| success := true; message := m; error := None; errors := None;
     payload := p |}.

Definition fail_error {P} (e : jsstring) : Result P :=
  {| success := false; message := None; error := Some e; errors := None;
     payload := None |}.

Definition fail_message {P} (m : jsstring)
    (issues : option (list ZodIssue)) : Result P :=
  {| success := false; message := Some m; error := None; errors := issues;
     payload := None |}.

Record Pagination := {
  currentPage : Z;
  totalPages : number;
  totalCount : Z;
  limit : Z;
  hasNextPage : bool;
  hasPrevPage : bool
}.

Record Page (D : Type) := {
  records : list D;
  pagination : Pagination
}.
Arguments records {D} p.
Arguments pagination {D} p.

Record CommentData := {
  d_id : jsstring;
  d_postId : ObjectId;
  d_author : jsstring;
  d_content : jsstring;
  d_createdAt : Z
}.

Module Msg.
Definition commentCreated : jsstring :=
  Eval vm_compute in js "댓글이 성공적으로 작성되었습니다.".
Definition commentInvalid : jsstring :=
  Eval vm_compute in js "입력 데이터가 올바르지 않습니다.".
Definition commentCreateFailed : jsstring :=
  Eval vm_compute in js "댓글 작성 중 오류가 발생했습니다. 다시 시도해주세요.".
Definition commentListFailed : jsstring :=
  Eval vm_compute in js "댓글 목록을 불러오는 중 오류가 발생했습니다.".
Definition commentPageFailed : jsstring :=
  Eval vm_compute in js "댓글 데이터를 불러오는데 실패했습니다.".
Definition deleteIdRequired : jsstring :=
  Eval vm_compute in js "삭제할 댓글 ID가 필요합니다.".
Definition deleteNotFound : jsstring :=
  Eval vm_compute in js "삭제하려는 댓글을 찾을 수 없습니다.".
Definition deleted : jsstring :=
  Eval vm_compute in js "댓글이 성공적으로 삭제되었습니다.".
Definition deleteFailed : jsstring :=
  Eval vm_compute in js "댓글 삭제 중 오류가 발생했습니다.".
Definition restoreIdRequired : jsstring :=
  Eval vm_compute in js "복원할 댓글 ID가 필요합니다.".
Definition restoreNotFound : jsstring :=
  Eval vm_compute in js "복원하려는 댓글을 찾을 수 없습니다.".
Definition restored : jsstring :=
  Eval vm_compute in js "댓글이 성공적으로 복원되었습니다.".
Definition restoreFailed : jsstring :=
  Eval vm_compute in js "댓글 복원 중 오류가 발생했습니다.".
Definition storeIdTaken : jsstring :=
  Eval vm_compute in js "이미 사용 중인 스토어 ID입니다. 다른 ID를 사용해주세요.".
Definition storeCreated : jsstring :=
  Eval vm_compute in js "스토어가 성공적으로 생성되었습니다.".
Definition storeCreateFailed : jsstring :=
  Eval vm_compute in js "스토어 생성 중 오류가 발생했습니다.".
Definition storeListFailed : jsstring :=
  Eval vm_compute in js "스토어 목록을 불러오는 중 오류가 발생했습니다.".
Definition storePageFailed : jsstring :=
  Eval vm_compute in js "스토어 데이터를 불러오는데 실패했습니다.".
End Msg.

(** [value || null] for an optional string. *)
Definition or_null (v : option jsstring) : option jsstring :=
  match v with
  | Some s => if truthy s then Some s else None
  | None => None
  end.

Definition optional_values (v : option jsstring) : list jsstring :=
  match v with
  | Some s => [s]
  | None => []
  end.

(** The search conditions of the two paginated listings; an absent or
    empty [searchQuery] gives the empty condition. *)
Definition commentSearch (searchQuery : option jsstring) : Filter Comment :=
  match searchQuery with
  | Some q =>
    if truthy q then
      Or [ {| values := fun c => [author c]; pattern := q |};
           {| values := fun c => [content c]; pattern := q |};
           {| values := fun c => optional_values (email c); pattern := q |} ]
    else MatchAll
  | None => MatchAll
  end.

Definition storeSearch (searchQuery : option jsstring) : Filter Store :=
  match searchQuery with
  | Some q =>
    if truthy q then
      Or [ {| values := fun s => [name s]; pattern := q |};
           {| values := fun s => [address s]; pattern := q |};
           {| values := fun s => [location s]; pattern := q |};
           {| values := fun s => [storeId s]; pattern := q |};
           {| values := tags; pattern := q |} ]
    else MatchAll
  | None => MatchAll
  end.

(** The pagination record both listings compute. *)
Definition paginationOf (page limit totalCount : Z) : Pagination :=
  let totalPages := Math_ceil_div totalCount limit in
  let hasNextPage := lt_number page totalPages in
  let hasPrevPage := 1 <? page in
  {| currentPage := page; totalPages := totalPages;
     totalCount := totalCount; limit := limit;
     hasNextPage := hasNextPage; hasPrevPage := hasPrevPage |}.

Section Actions.

Variable RegExp : jsstring → option (jsstring → bool).

(** The two Zod schemas of [lib/validator]: [parse] returns the
    validated data or throws a [ZodError] with its issues. *)
Variable unknown : Type.
Variable CommentInputSchema_parse : unknown → list ZodIssue + CommentInput.
Variable StoreInputSchema_parse : IStoreInput → list ZodIssue + IStoreInput.

Definition zod {A} (r : list ZodIssue + A) : Async A :=
  match r with
  | inl issues => throw (ZodError issues)
  | inr v => ret v
  end.

Definition createComment (data : unknown) : Async (Result CommentData) :=
  try_catch
    (let* validatedData := zod (CommentInputSchema_parse data) in
     connectToDatabase ;;;
     let* newComment :=
       Comments_create (in_postId validatedData) (in_author validatedData)
         (in_content validatedData) (or_null (in_email validatedData))
         false in
     revalidatePath (js "/posts/" ++ in_postId validatedData) ;;;
     ret (ok_with (Some Msg.commentCreated)
            (Some {| d_id := ObjectId_toString (fst newComment);
                     d_postId := c_postId (snd newComment);
                     d_author := author (snd newComment);
                     d_content := content (snd newComment);
                     d_createdAt := c_createdAt (snd newComment) |})))
    (fun error =>
       match error with
       | ZodError issues =>
         ret (fail_message Msg.commentInvalid (Some issues))
       | _ => ret (fail_message Msg.commentCreateFailed None)
       end).

Definition getAllComments : Async (Result (list PopulatedComment)) :=
  try_catch
    (connectToDatabase ;;;
     let* found := findPopulated RegExp MatchAll None in
     ret (ok_with None (Some found)))
    (fun error => ret (fail_error Msg.commentListFailed)).

(** [page] and [limit] default to 1 and 10 when the caller omits them. *)
Definition getCommentsPaginated (page limit : Z)
    (searchQuery : option jsstring)
  : Async (Result (Page PopulatedComment)) :=
  try_catch
    (connectToDatabase ;;;
     let skip := (page - 1) * limit in
     let searchCondition := commentSearch searchQuery in
     let* totalCount := countDocuments RegExp Comments searchCondition in
     let* found :=
       findPopulated RegExp searchCondition (Some (skip, limit)) in
     ret (ok_with None
            (Some {| records := found;
                     pagination := paginationOf page limit totalCount |})))
    (fun error => ret (fail_error Msg.commentPageFailed)).

Definition deleteComment (commentId : jsstring) : Async (Result unit) :=
  try_catch
    (connectToDatabase ;;;
     if negb (truthy commentId) then ret (fail_error Msg.deleteIdRequired)
     else
       let* existingComment := findById Comments commentId in
       match existingComment with
       | None => ret (fail_error Msg.deleteNotFound)
       | Some _ =>
         let* now := new_Date in
         Comments_findByIdAndUpdate commentId true now ;;;
         revalidatePath (js "/admin") ;;;
         ret (ok_with (Some Msg.deleted) None)
       end)
    (fun error => ret (fail_error Msg.deleteFailed)).

Definition restoreComment (commentId : jsstring) : Async (Result unit) :=
  try_catch
    (connectToDatabase ;;;
     if negb (truthy commentId) then ret (fail_error Msg.restoreIdRequired)
     else
       let* existingComment := findById Comments commentId in
       match existingComment with
       | None => ret (fail_error Msg.restoreNotFound)
       | Some _ =>
         let* now := new_Date in
         Comments_findByIdAndUpdate commentId false now ;;;
         revalidatePath (js "/admin") ;;;
         ret (ok_with (Some Msg.restored) None)
       end)
    (fun error => ret (fail_error Msg.restoreFailed)).

Definition createStore (data : IStoreInput) : Async (Result (N * Store)) :=
  try_catch
    (connectToDatabase ;;;
     let* validatedData := zod (StoreInputSchema_parse data) in
     let* existingStore := Store_findOne (i_storeId validatedData) in
     match existingStore with
     | Some _ => ret (fail_error Msg.storeIdTaken)
     | None =>
       let* newStore := Store_create validatedData in
       revalidatePath (js "/admin") ;;;
       ret (ok_with (Some Msg.storeCreated) (Some newStore))
     end)
    (fun error => ret (fail_error Msg.storeCreateFailed)).

Definition getAllStores : Async (Result (list (N * Store))) :=
  try_catch
    (connectToDatabase ;;;
     let* found := find RegExp StoreModel MatchAll None in
     ret (ok_with None (Some found)))
    (fun error => ret (fail_error Msg.storeListFailed)).

Definition getAllStoresPage (page limit : Z) (searchQuery : option jsstring)
  : Async (Result (Page (N * Store))) :=
  try_catch
    (connectToDatabase ;;;
     let skip := (page - 1) * limit in
     let searchCondition := storeSearch searchQuery in
     let* totalCount := countDocuments RegExp StoreModel searchCondition in
     let* found :=
       find RegExp StoreModel searchCondition (Some (skip, limit)) in
     ret (ok_with None
            (Some {| records := found;
                     pagination := paginationOf page limit totalCount |})))
    (fun error => ret (fail_error Msg.storePageFailed)).

End Actions.

(** *** Vocabulary of the properties *)

(** The window [skip]/[limit] of a query on its sorted result; [None]
    when the database rejects the window. *)
Definition window_of {A} (window : option (Z * Z)) (sorted : list A)
  : option (list A) :=
  match window with
  | None => Some sorted
  | Some (skip, limit) =>
    if skip <? 0 then None
    else Some (applyLimit limit (drop (Z.to_nat skip) sorted))
  end.

(** The world [w] after the comment [k] got its flag at time
    [clock w0] and the admin pages were invalidated. *)
Definition updated (deleted : bool) (k : N) (w0 w : World) : World :=
  set_revalidated (revalidated w0 ++ [js "/admin"])
    (set_db (set_comments (alter (setDeleted deleted (clock w0)) k
                             (comments (db w0))) (db w0)) w).

(** The world [w] after the store of input [v] was created in [w0] and
    the admin pages were invalidated. *)
Definition created (v : IStoreInput) (w0 w : World) : World :=
  set_revalidated (revalidated w0 ++ [js "/admin"])
    (set_db (set_stores (<[nextId w0 := storeDocument v (clock w0)]>
                           (stores (db w0))) (db w0))
       (set_nextId (N.succ (nextId w0)) w)).

(** The database's regular expressions read the string [s] as a
    text, not as an expression: the string is accepted as a pattern and
    matches a subject exactly when the text occurs in it, case ignored
    by the database's case folding [fold]. *)
Definition readsLiterally (RegExp : jsstring → option (jsstring → bool))
    (fold : jsstring → jsstring) (s : jsstring) : Prop :=
  ∃ test, RegExp s = Some test ∧ ∀ x, test x = Pattern.containsCI fold x s.

(** [n] is the ceiling of [a / b]. *)
Definition isCeiling (n a b : Z) : Prop := (n - 1) * b < a ∧ a ≤ n * b.

(** The metadata of page [page] at page size [limit]. *)
Definition metadataOk (page limit : Z) (p : Pagination) : Prop :=
  ∃ n, totalPages p = Int n
       ∧ isCeiling n (totalCount p) limit
       ∧ hasNextPage p = (page <? n)
       ∧ hasPrevPage p = (1 <? page)
       ∧ currentPage p = page.

(** Two comments that agree on everything but the deletion flag and the
    modification time. *)
Definition sameContent (c c' : Comment) : Prop :=
  c_postId c' = c_postId c ∧ author c' = author c ∧ content c' = content c
  ∧ email c' = email c ∧ c_createdAt c' = c_createdAt c.

(** The comment with a new modification time and nothing else changed. *)
Definition touch (t : Z) (c : Comment) : Comment :=
  {| c_postId := c_postId c; author := author c; content := content c;
     email := email c; isDeleted := isDeleted c;
     c_createdAt := c_createdAt c; c_updatedAt := t |}.

(** A result that says what went wrong when it is a failure. *)
Definition wellFormed {P} (r : Result P) : Prop :=
  success r = false → is_Some (error r) ∨ is_Some (message r).

(** The action returns (it does not throw), with a well-formed result. *)
Definition settles {P} (m : Async (Result P)) (w : World) : Prop :=
  ∃ r w', m w = (Normal r, w') ∧ wellFormed r.

(** Every value a computation returns satisfies [P]. *)
Definition yields {A} (m : Async A) (P : A → Prop) : Prop :=
  ∀ w a w', m w = (Normal a, w') → P a.

(** [l] is page [page], at [limit] records a page, of the documents of
    [M] that satisfy [hit], newest first. *)
Definition pageOf {D} (M : Model D) (hit : D → bool) (d : Database)
    (page limit : Z) (l : list (N * D)) : Prop :=
  ∃ sorted,
    sorted ≡ₚ filter (fun kd => hit (snd kd) = true)
                (map_to_list (collection M d))
    ∧ StronglySorted (newerFirst M) sorted
    ∧ l = applyLimit limit (drop (Z.to_nat ((page - 1) * limit)) sorted).

(** The action returns a failure that carries an error text. *)
Definition declines {P} (m : Async (Result P)) (w : World) : Prop :=
  ∃ r w', m w = (Normal r, w') ∧ success r = false ∧ is_Some (error r).

End Server.

(** ** A regular expression engine for literal patterns and the dot

    The database's expressions are an external dialect (PCRE). This
    engine implements the part of it made of literal code units, the
    dot and escaped metacharacters, matched without regard to case
    anywhere in the subject; it refuses every other pattern. It is the
    instance at which the listings are run on concrete data. *)

Module LiteralDot.

Import Pattern.

Inductive Atom := Lit (u : N) | AnyUnit.

Fixpoint parse (p : jsstring) : option (list Atom) :=
  match p with
  | [] => Some []
  | u :: p' =>
    if (u =? 46)%N then cons AnyUnit <$> parse p'
    else if (u =? 92)%N then
      match p' with
      | c :: p'' => if isMeta c then cons (Lit c) <$> parse p'' else None
      | [] => None
      end
    else if isMeta u then None
    else cons (Lit u) <$> parse p'
  end.

Definition atomMatch (a : Atom) (u : N) : bool :=
  match a with
  | Lit c => (lowerUnit u =? lowerUnit c)%N
  | AnyUnit => negb (u =? 10)%N
  end.

Fixpoint matchesAt (s : jsstring) (atoms : list Atom) : bool :=
  match atoms, s with
  | [], _ => true
  | _ :: _, [] => false
  | a :: atoms', u :: s' => atomMatch a u && matchesAt s' atoms'
  end.

Fixpoint search (s : jsstring) (atoms : list Atom) : bool :=
  matchesAt s atoms ||
  match s with
  | [] => false
  | _ :: s' => search s' atoms
  end.

Definition RegExp (p : jsstring) : option (jsstring → bool) :=
  (fun atoms s => search s atoms) <$> parse p.

End LiteralDot.

(** ** Case-insensitive substring search, as the specification words it

    A record contains [s] when one of its search fields does. *)

Module SearchSpec.

Import Pattern.

Section Folding.

Variable fold : jsstring → jsstring.

Definition storeContains (s : jsstring) (d : Server.Store) : bool :=
  containsCI fold (Server.name d) s || containsCI fold (Server.address d) s
  || containsCI fold (Server.location d) s
  || containsCI fold (Server.storeId d) s
  || existsb (fun t => containsCI fold t s) (Server.tags d).

Definition commentContains (s : jsstring) (d : Server.Comment) : bool :=
  containsCI fold (Server.author d) s || containsCI fold (Server.content d) s
  || match Server.email d with
     | Some e => containsCI fold e s
     | None => false
     end.

End Folding.

End SearchSpec.

(** ** Sample data

    Schemas, stores and comments on which the actions are run. *)

Module Sample.

Import Server.

Definition issue (m : string) : ZodIssue :=
  {| issue_path := []; issue_message := js m |}.

(** A store schema that wants a name and a store id. *)
Definition StoreSchema (data : IStoreInput) : list ZodIssue + IStoreInput :=
  if truthy (i_name data) && truthy (i_storeId data) then inr data
  else inl [issue "required"].

(** A comment schema that wants an author and a text. *)
Definition CommentSchema (data : CommentInput)
  : list ZodIssue + CommentInput :=
  if truthy (in_author data) && truthy (in_content data) then inr data
  else inl [issue "required"].

Definition store (i : N) : Store :=
  {| name := js "Store " ++ hexDigits 2 i; address := js "Seoul";
     location := js "KR"; storeId := js "S" ++ hexDigits 2 i;
     latitude := None; longitude := None; parking := js "무료";
     since := js "2020"; phone := None; tags := [js "cafe"]; images := [];
     s_createdAt := Z.of_N i; s_updatedAt := Z.of_N i |}.

Definition comment (i : N) : Comment :=
  {| c_postId := 7%N; author := js "guest " ++ hexDigits 2 i;
     content := js "nice place"; email := None; isDeleted := false;
     c_createdAt := Z.of_N i; c_updatedAt := Z.of_N i |}.

Definition numbered {A} (f : N → A) (n : nat) : gmap N A :=
  list_to_map (map (fun i => (N.of_nat i, f (N.of_nat i))) (seq 1 n)).

(** 23 stores and 23 comments, a database that answers. *)
Definition world23 : World :=
  {| db := {| comments := numbered comment 23; stores := numbered store 23;
              posts := ∅ |};
     faults := []; clock := 1000; nextId := 100%N; revalidated := [] |}.

Definition gangnam : Store :=
  {| name := js "Gangnam"; address := js "Seoul"; location := js "KR";
     storeId := js "S1"; latitude := None; longitude := None;
     parking := js "유료"; since := js "2021"; phone := None;
     tags := [js "cafe"]; images := [];
     s_createdAt := 5; s_updatedAt := 5 |}.

Definition oneStore : World :=
  {| db := {| comments := ∅; stores := {[ 1%N := gangnam ]}; posts := ∅ |};
     faults := []; clock := 1000; nextId := 100%N; revalidated := [] |}.

Definition gangnamInput : IStoreInput :=
  {| i_name := js "Gangnam 2"; i_address := js "Seoul";
     i_location := js "KR"; i_storeId := js "S1";
     i_latitude := None; i_longitude := None; i_parking := js "무료";
     i_since := js "2024"; i_phone := None; i_tags := []; i_images := [] |}.

Definition id1 : jsstring := js "000000000000000000000001".

(** An input without a name, which [StoreSchema] rejects, with the
    storeId of [gangnam]. *)
Definition namelessInput : IStoreInput :=
  {| i_name := []; i_address := js "Seoul"; i_location := js "KR";
     i_storeId := js "S1"; i_latitude := None; i_longitude := None;
     i_parking := js "무료"; i_since := js "2024"; i_phone := None;
     i_tags := []; i_images := [] |}.

End Sample.


(** ** Effects of the actions on the world *)

Module Effects.

Import Server.

(** The comment [Comments.create] stores for a validated input whose
    post reference is the id [pid], at time [now]. *)
Definition commentDocument (v : CommentInput) (pid : N) (now : Z) : Comment :=
  {| c_postId := pid; author := in_author v; content := in_content v;
     email := or_null (in_email v); isDeleted := false;
     c_createdAt := now; c_updatedAt := now |}.

(** The world [w] after the comment of input [v] was created in [w0]
    and the page of its post was invalidated. *)
Definition commented (v : CommentInput) (pid : N) (w0 w : World) : World :=
  set_revalidated (revalidated w0 ++ [js "/posts/" ++ in_postId v])
    (set_db (set_comments
               (<[nextId w0 := commentDocument v pid (clock w0)]>
                  (comments (db w0))) (db w0))
       (set_nextId (N.succ (nextId w0)) w)).

(** Nothing but the schedule of database calls differs between the two
    worlds. *)
Definition untouched (w w' : World) : Prop :=
  db w' = db w ∧ nextId w' = nextId w ∧ revalidated w' = revalidated w
  ∧ clock w' = clock w.

(** No two stored stores were created at the same time. *)
Definition distinctTimes (m : gmap N Store) : Prop :=
  ∀ i j s t, m !! i = Some s → m !! j = Some t →
             s_createdAt s = s_createdAt t → i = j.

(** No two stored stores share a storeId. *)
Definition uniqueStoreIds (m : gmap N Store) : Prop :=
  ∀ i j s t, m !! i = Some s → m !! j = Some t →
             storeId s = storeId t → i = j.

(** The records of the page a listing returned, none when it failed. *)
Definition recordsOf {D} (run : Completion (Result (Page D)) * World)
  : list D :=
  match run with
  | (Normal r, _) =>
    match payload r with
    | Some pg => records pg
    | None => []
    end
  | (Throw _, _) => []
  end.

(** How the flags of a page of [len] records go with its counts: a
    next page is announced exactly when records remain after this page,
    and then the page is full; the page is empty exactly when it starts
    at or past the end; there are no pages exactly when nothing
    matches. *)
Definition pageConsistent (page limit : Z) (len : nat) (p : Pagination)
  : Prop :=
  (hasNextPage p = true ↔ page * limit < totalCount p)
  ∧ (hasNextPage p = true → Z.of_nat len = limit)
  ∧ (len = 0%nat ↔ totalCount p ≤ (page - 1) * limit)
  ∧ (totalPages p = Int 0 ↔ totalCount p = 0).

End Effects.


(** ** Shapes of client data *)

Module Shapes.

(** A tag as the widget stores it: not empty, no white space around. *)
Definition tidy (tag : jsstring) : Prop := tag ≠ [] ∧ trim tag = tag.

End Shapes.

(** ** Toasts

    A call of [toast.success] or [toast.error] of the sonner library:
    the text and the optional description. *)

Module Sonner.

Inductive ToastKind := toastSuccess | toastError.

Record Toast := {
  kind : ToastKind;
  title : jsstring;
  description : option jsstring
}.

End Sonner.

(** ** Calling a server action from the browser

    A client component awaits a server action through a request to the
    server. The request can be lost before the action runs, and the
    answer can be lost after it ran; in both cases, and when the action
    throws, the awaited promise rejects and the [catch] of the caller
    runs. A [Fate] is what happens to one call. *)

Module Client.

Inductive Fate := delivered | requestLost | responseLost.

Inductive Reply (A : Type) :=
  | Resolved (a : A)
  | Rejected.
Arguments Resolved {A} a.
Arguments Rejected {A}.

Definition await {A} (fate : Fate) (action : Server.Async A)
    (w : Server.World) : Reply A * Server.World :=
  match fate with
  | delivered =>
    match action w with
    | (Server.Normal a, w') => (Resolved a, w')
    | (Server.Throw _, w') => (Rejected, w')
    end
  | requestLost => (Rejected, w)
  | responseLost => (Rejected, snd (action w))
  end.

End Client.


(** ** The comments table of the admin pages

    [components/admin/comments-manage.tsx]. A row is a comment as the
    listing returns it; the [_id] of a row is the string form of its
    ObjectId, so rows are compared by id. A handler runs to its end
    before the next event; [fate] is the fate of the call it awaits. *)

Module CommentsManage.

Import Sonner.

Record State := {
  comments : list Server.PopulatedComment;
  isLoading : bool;
  error : option jsstring;
  searchTerm : jsstring;
  debouncedSearchTerm : jsstring;
  currentPage : Z;
  pageSize : Z;
  pagination : option Server.Pagination;
  isDeleting : bool;
  isRestoring : bool;
  toasts : list Toast
}.

Definition setComments (l : list Server.PopulatedComment) (st : State)
  : State :=
  {| comments := l; isLoading := isLoading st; error := error st;
     searchTerm := searchTerm st;
     debouncedSearchTerm := debouncedSearchTerm st;
     currentPage := currentPage st; pageSize := pageSize st;
     pagination := pagination st; isDeleting := isDeleting st;
     isRestoring := isRestoring st; toasts := toasts st |}.

Definition setIsLoading (b : bool) (st : State) : State :=
  {| comments := comments st; isLoading := b; error := error st;
     searchTerm := searchTerm st;
     debouncedSearchTerm := debouncedSearchTerm st;
     currentPage := currentPage st; pageSize := pageSize st;
     pagination := pagination st; isDeleting := isDeleting st;
     isRestoring := isRestoring st; toasts := toasts st |}.

Definition setError (e : option jsstring) (st : State) : State :=
  {| comments := comments st; isLoading := isLoading st; error := e;
     searchTerm := searchTerm st;
     debouncedSearchTerm := debouncedSearchTerm st;
     currentPage := currentPage st; pageSize := pageSize st;
     pagination := pagination st; isDeleting := isDeleting st;
     isRestoring := isRestoring st; toasts := toasts st |}.

Definition setPagination (p : option Server.Pagination) (st : State)
  : State :=
  {| comments := comments st; isLoading := isLoading st; error := error st;
     searchTerm := searchTerm st;
     debouncedSearchTerm := debouncedSearchTerm st;
     currentPage := currentPage st; pageSize := pageSize st;
     pagination := p; isDeleting := isDeleting st;
     isRestoring := isRestoring st; toasts := toasts st |}.

Definition setIsDeleting (b : bool) (st : State) : State :=
  {| comments := comments st; isLoading := isLoading st; error := error st;
     searchTerm := searchTerm st;
     debouncedSearchTerm := debouncedSearchTerm st;
     currentPage := currentPage st; pageSize := pageSize st;
     pagination := pagination st; isDeleting := b;
     isRestoring := isRestoring st; toasts := toasts st |}.

Definition setIsRestoring (b : bool) (st : State) : State :=
  {| comments := comments st; isLoading := isLoading st; error := error st;
     searchTerm := searchTerm st;
     debouncedSearchTerm := debouncedSearchTerm st;
     currentPage := currentPage st; pageSize := pageSize st;
     pagination := pagination st; isDeleting := isDeleting st;
     isRestoring := b; toasts := toasts st |}.

Definition toast (t : Toast) (st : State) : State :=
  {| comments := comments st; isLoading := isLoading st; error := error st;
     searchTerm := searchTerm st;
     debouncedSearchTerm := debouncedSearchTerm st;
     currentPage := currentPage st; pageSize := pageSize st;
     pagination := pagination st; isDeleting := isDeleting st;
     isRestoring := isRestoring st; toasts := toasts st ++ [t] |}.

(** [a || fallback] for an optional text. *)
Definition or_text (a : option jsstring) (fallback : jsstring) : jsstring :=
  match a with
  | Some s => if truthy s then s else fallback
  | None => fallback
  end.

(** [text || undefined] *)
Definition or_undefined (s : jsstring) : option jsstring :=
  if truthy s then Some s else None.

Module Txt.
Definition loadFailed : jsstring :=
  Eval vm_compute in js "데이터를 불러오는데 실패했습니다.".
Definition loadError : jsstring :=
  Eval vm_compute in js "데이터를 불러오는 중 오류가 발생했습니다.".
Definition deleteDone : jsstring := Eval vm_compute in js "삭제 완료".
Definition deleteFailed : jsstring := Eval vm_compute in js "삭제 실패".
Definition deleteError : jsstring :=
  Eval vm_compute in js "댓글 삭제 중 오류가 발생했습니다.".
Definition restoreDone : jsstring := Eval vm_compute in js "복원 완료".
Definition restoreFailed : jsstring := Eval vm_compute in js "복원 실패".
Definition restoreError : jsstring :=
  Eval vm_compute in js "댓글 복원 중 오류가 발생했습니다.".
End Txt.

(** [{ ...c, isDeleted: b }] *)
Definition withDeleted (b : bool) (c : Server.PopulatedComment)
  : Server.PopulatedComment :=
  {| Server.pc_id := Server.pc_id c;
     Server.pc_post := Server.pc_post c;
     Server.pc_comment :=
       {| Server.c_postId := Server.c_postId (Server.pc_comment c);
          Server.author := Server.author (Server.pc_comment c);
          Server.content := Server.content (Server.pc_comment c);
          Server.email := Server.email (Server.pc_comment c);
          Server.isDeleted := b;
          Server.c_createdAt := Server.c_createdAt (Server.pc_comment c);
          Server.c_updatedAt := Server.c_updatedAt (Server.pc_comment c) |}
  |}.

(** [prevComments.map((c) => (c._id === id ? { ...c, isDeleted: b } : c))] *)
Definition markRows (b : bool) (id : N) (rows : list Server.PopulatedComment)
  : list Server.PopulatedComment :=
  map (fun c => if decide (Server.pc_id c = id) then withDeleted b c else c)
      rows.



(** The range "(first-last)" beside the total, shown when the total is
    positive, and the number in front of the row at [index]. *)
Definition rangeShown (st : State) : option (Z * Z) :=
  match pagination st with
  | Some p =>
    if 0 <? Server.totalCount p
    then Some ((currentPage st - 1) * pageSize st + 1,
               Z.min (currentPage st * pageSize st) (Server.totalCount p))
    else None
  | None => None
  end.

Definition rowNumber (st : State) (index : nat) : Z :=
  (currentPage st - 1) * pageSize st + Z.of_nat index + 1.

Section Handlers.

Variable RegExp : jsstring → option (jsstring → bool).

Definition fetchComments (fate : Client.Fate) (st : State)
    (w : Server.World) : State * Server.World :=
  let st1 := setIsLoading true st in
  match Client.await fate
          (Server.getCommentsPaginated RegExp (currentPage st) (pageSize st)
             (or_undefined (debouncedSearchTerm st))) w with
  | (Client.Resolved result, w') =>
    (setIsLoading false
       (if Server.success result then
          match Server.payload result with
          | Some pg =>
            setError None
              (setPagination (Some (Server.pagination pg))
                 (setComments (Server.records pg) st1))
          | None => st1   (* no success result is without its page *)
          end
        else setError (Some (or_text (Server.error result) Txt.loadFailed))
               st1),
     w')
  | (Client.Rejected, w') =>
    (setIsLoading false (setError (Some Txt.loadError) st1), w')
  end.

Definition handleDeleteComment (fate : Client.Fate)
    (comment : Server.PopulatedComment) (st : State) (w : Server.World)
  : State * Server.World :=
  let st1 := setIsDeleting true st in
  match Client.await fate
          (Server.deleteComment
             (Server.ObjectId_toString (Server.pc_id comment))) w with
  | (Client.Resolved result, w') =>
    (setIsDeleting false
       (if Server.success result then
          setComments (markRows true (Server.pc_id comment) (comments st1))
            (toast {| kind := toastSuccess; title := Txt.deleteDone;
                      description := Server.message result |} st1)
        else toast {| kind := toastError; title := Txt.deleteFailed;
                      description := Server.error result |} st1),
     w')
  | (Client.Rejected, w') =>
    (setIsDeleting false
       (toast {| kind := toastError; title := Txt.deleteFailed;
                 description := Some Txt.deleteError |} st1),
     w')
  end.

Definition handleRestoreComment (fate : Client.Fate)
    (comment : Server.PopulatedComment) (st : State) (w : Server.World)
  : State * Server.World :=
  let st1 := setIsRestoring true st in
  match Client.await fate
          (Server.restoreComment
             (Server.ObjectId_toString (Server.pc_id comment))) w with
  | (Client.Resolved result, w') =>
    (setIsRestoring false
       (if Server.success result then
          setComments (markRows false (Server.pc_id comment) (comments st1))
            (toast {| kind := toastSuccess; title := Txt.restoreDone;
                      description := Server.message result |} st1)
        else toast {| kind := toastError; title := Txt.restoreFailed;
                      description := Server.error result |} st1),
     w')
  | (Client.Rejected, w') =>
    (setIsRestoring false
       (toast {| kind := toastError; title := Txt.restoreFailed;
                 description := Some Txt.restoreError |} st1),
     w')
  end.

End Handlers.

(** The menu of a row: restore for a deleted comment, delete otherwise;
    an entry is disabled while its action runs. *)
Inductive RowAction := DeleteRow | RestoreRow.

Definition rowMenu (st : State) (c : Server.PopulatedComment)
  : RowAction * bool :=
  if Server.isDeleted (Server.pc_comment c)
  then (RestoreRow, negb (isRestoring st))
  else (DeleteRow, negb (isDeleting st)).





End CommentsManage.

(** ** The stores table of the admin pages

    The handlers that the dialogs of the stores table call after a
    store was added, changed or deleted. A row is a store as the
    actions return it, with its [_id]. What the server answers to
    [fetchStores] is not modelled: a call of [fetchStores] is recorded
    as the request it sends, with the page, the page size and the
    search term of the render the handler belongs to. A handler runs to
    its end before the next event. *)

Module StoresManage.

Definition Row : Type := N * Server.Store.

Record Request := {
  req_page : Z;
  req_limit : Z;
  req_search : option jsstring
}.

Record State := {
  stores : list Row;
  debouncedSearchTerm : jsstring;
  currentPage : Z;
  pageSize : Z;
  storeToDelete : option Row;
  storeToEdit : option Row;
  addDialogOpen : bool;
  requests : list Request
}.

Definition setStores (l : list Row) (st : State) : State :=
  {| stores := l; debouncedSearchTerm := debouncedSearchTerm st;
     currentPage := currentPage st; pageSize := pageSize st;
     storeToDelete := storeToDelete st; storeToEdit := storeToEdit st;
     addDialogOpen := addDialogOpen st; requests := requests st |}.

Definition setCurrentPage (p : Z) (st : State) : State :=
  {| stores := stores st; debouncedSearchTerm := debouncedSearchTerm st;
     currentPage := p; pageSize := pageSize st;
     storeToDelete := storeToDelete st; storeToEdit := storeToEdit st;
     addDialogOpen := addDialogOpen st; requests := requests st |}.

Definition setStoreToDelete (s : option Row) (st : State) : State :=
  {| stores := stores st; debouncedSearchTerm := debouncedSearchTerm st;
     currentPage := currentPage st; pageSize := pageSize st;
     storeToDelete := s; storeToEdit := storeToEdit st;
     addDialogOpen := addDialogOpen st; requests := requests st |}.

Definition setStoreToEdit (s : option Row) (st : State) : State :=
  {| stores := stores st; debouncedSearchTerm := debouncedSearchTerm st;
     currentPage := currentPage st; pageSize := pageSize st;
     storeToDelete := storeToDelete st; storeToEdit := s;
     addDialogOpen := addDialogOpen st; requests := requests st |}.

Definition setAddDialogOpen (b : bool) (st : State) : State :=
  {| stores := stores st; debouncedSearchTerm := debouncedSearchTerm st;
     currentPage := currentPage st; pageSize := pageSize st;
     storeToDelete := storeToDelete st; storeToEdit := storeToEdit st;
     addDialogOpen := b; requests := requests st |}.

(** The request of the [fetchStores] of the render [render]. *)
Definition requestOf (render : State) : Request :=
  {| req_page := currentPage render; req_limit := pageSize render;
     req_search := if truthy (debouncedSearchTerm render)
                   then Some (debouncedSearchTerm render) else None |}.

Definition fetchStores (render : State) (st : State) : State :=
  {| stores := stores st; debouncedSearchTerm := debouncedSearchTerm st;
     currentPage := currentPage st; pageSize := pageSize st;
     storeToDelete := storeToDelete st; storeToEdit := storeToEdit st;
     addDialogOpen := addDialogOpen st;
     requests := requests st ++ [requestOf render] |}.

Definition handleAddSuccess (newStore : Row) (st : State) : State :=
  fetchStores st (setCurrentPage 1 (setStores (newStore :: stores st) st)).

Definition handleUpdateSuccess (updatedStore : Row) (st : State) : State :=
  setStoreToEdit None
    (setStores
       (map (fun store =>
               if decide (fst store = fst updatedStore) then updatedStore
               else store)
            (stores st)) st).

Definition handleDeleteSuccess (deletedStoreId : N) (st : State) : State :=
  let st1 :=
    setStoreToDelete None
      (setStores (filter (fun store => fst store ≠ deletedStoreId)
                    (stores st)) st) in
  if (length (stores st) =? 1)%nat && (1 <? currentPage st)
  then setCurrentPage (currentPage st - 1) st1
  else fetchStores st st1.

(** The tags of a row: the first three, and the number on the badge
    that stands for the others; [None] for a store without tags, which
    shows a dash. *)
Definition tagBadges (tags : list jsstring)
  : option (list jsstring * option Z) :=
  if (0 <? length tags)%nat
  then Some (take 3 tags,
             if (3 <? length tags)%nat
             then Some (Z.of_nat (length tags) - 3) else None)
  else None.

End StoresManage.

(** ** The dialog that adds a store

    [components/dialog/dialog-store-add.tsx], opened from the stores
    table, which passes [setAddDialogOpen] as [onOpenChange] and
    [handleAddSuccess] as [onAddSuccess]. *)

Module StoreAddDialog.

Import Sonner.

Definition defaultValues : Server.IStoreInput :=
  {| Server.i_name := []; Server.i_address := [];
     Server.i_location := []; Server.i_storeId := [];
     Server.i_latitude := Some PrimFloat.zero;
     Server.i_longitude := Some PrimFloat.zero;
     Server.i_parking := []; Server.i_since := [];
     Server.i_phone := Some []; Server.i_tags := [];
     Server.i_images := [] |}.

Record State := {
  form : Server.IStoreInput;
  tagInput : jsstring;
  isComposing : bool;
  toasts : list Toast
}.

Module Txt.
End Txt.

Definition toast (t : Toast) (dlg : State) : State :=
  {| form := form dlg; tagInput := tagInput dlg;
     isComposing := isComposing dlg; toasts := toasts dlg ++ [t] |}.

(** [form.reset()] *)
Definition reset (dlg : State) : State :=
  {| form := defaultValues; tagInput := tagInput dlg;
     isComposing := isComposing dlg; toasts := toasts dlg |}.

Definition setTagInput (s : jsstring) (dlg : State) : State :=
  {| form := form dlg; tagInput := s;
     isComposing := isComposing dlg; toasts := toasts dlg |}.

Definition setIsComposing (b : bool) (dlg : State) : State :=
  {| form := form dlg; tagInput := tagInput dlg;
     isComposing := b; toasts := toasts dlg |}.

Section Submit.

Variable StoreInputSchema_parse
  : Server.IStoreInput → list Server.ZodIssue + Server.IStoreInput.


End Submit.

(** [onOpenChange] of the dialog itself: closing clears the form. *)
Definition handleDialogClose (isOpen : bool) (dlg : State)
    (table : StoresManage.State) : State * StoresManage.State :=
  (if isOpen then dlg
   else setIsComposing false (setTagInput [] (reset dlg)),
   StoresManage.setAddDialogOpen isOpen table).

End StoreAddDialog.

(** ** The cards of the public post list

    [components/starbucks/post-list.tsx]: what a card shows of the
    store its post refers to. The reference is optional, and [parking]
    is a text or, in older records, a boolean. *)

Module PostCard.

Record StoreInfo := {
  images : list jsstring;
  tags : list jsstring;
  parking : jsstring + bool
}.

Record Post := {
  image : jsstring;
  storeId : option StoreInfo
}.

(** [a || b] for strings, and [post.storeId?.images?.[0]]. *)
Definition or_string (a : option jsstring) (b : jsstring) : jsstring :=
  match a with
  | Some s => if truthy s then s else b
  | None => b
  end.

Definition firstImage (post : Post) : option jsstring :=
  match storeId post with
  | Some s => head (images s)
  | None => None
  end.

(** The [src] of the card's image. *)
Definition cardImage (post : Post) : jsstring :=
  or_string (Some (or_string (firstImage post) (image post)))
    (js "/placeholder.svg").

(** [post.storeId?.parking || false] *)
Definition parkingOrFalse (post : Post) : jsstring + bool :=
  match storeId post with
  | Some s =>
    match parking s with
    | inl text => if truthy text then inl text else inr false
    | inr b => inr b
    end
  | None => inr false
  end.

(** The badge on the image. *)
Definition cardParking (post : Post) : Parking.ParkingInfo :=
  Parking.getParkingInfo_post (parkingOrFalse post).

(** The tag badges under the description, as in the stores table. *)
Definition cardTags (post : Post) : option (list jsstring * option Z) :=
  match storeId post with
  | Some s => StoresManage.tagBadges (tags s)
  | None => None
  end.

End PostCard.

(** ** Scenes

    States of the components on which the handlers are run. *)

Module Scenes.

Definition row (i : N) : Server.PopulatedComment :=
  {| Server.pc_id := i; Server.pc_post := None;
     Server.pc_comment := Sample.comment i |}.

(** The comments table on page 3 of the comments of
    [Sample.world23], ten to a page, showing three of them. *)
Definition table : CommentsManage.State :=
  {| CommentsManage.comments := [row 1; row 2; row 3];
     CommentsManage.isLoading := false; CommentsManage.error := None;
     CommentsManage.searchTerm := [];
     CommentsManage.debouncedSearchTerm := [];
     CommentsManage.currentPage := 3; CommentsManage.pageSize := 10;
     CommentsManage.pagination := None;
     CommentsManage.isDeleting := false;
     CommentsManage.isRestoring := false; CommentsManage.toasts := [] |}.

(** The stores table on page 2 with the one store of
    [Sample.oneStore]. *)
Definition storesTable : StoresManage.State :=
  {| StoresManage.stores := [(1%N, Sample.gangnam)];
     StoresManage.debouncedSearchTerm := [];
     StoresManage.currentPage := 2; StoresManage.pageSize := 10;
     StoresManage.storeToDelete := Some (1%N, Sample.gangnam);
     StoresManage.storeToEdit := None;
     StoresManage.addDialogOpen := true; StoresManage.requests := [] |}.

Definition hongdaeInput : Server.IStoreInput :=
  {| Server.i_name := js "Hongdae"; Server.i_address := js "Seoul";
     Server.i_location := js "KR"; Server.i_storeId := js "S2";
     Server.i_latitude := None; Server.i_longitude := None;
     Server.i_parking := js "무료"; Server.i_since := js "2024";
     Server.i_phone := None; Server.i_tags := [];
     Server.i_images := [] |}.


Definition guestInput : Server.CommentInput :=
  {| Server.in_postId := Sample.id1; Server.in_author := js "guest";
     Server.in_content := js "nice place"; Server.in_email := Some [] |}.

(** A post without a store, and one whose store has a parking text. *)
Definition barePost : PostCard.Post :=
  {| PostCard.image := []; PostCard.storeId := None |}.

Definition paidPost : PostCard.Post :=
  {| PostCard.image := js "/a.png";
     PostCard.storeId :=
       Some {| PostCard.images := [];
               PostCard.tags := [js "a"; js "b"; js "c"; js "d"];
               PostCard.parking := inl (js "유료 주차") |} |}.

End Scenes.

(** * Properties *)

(** ** Strings *)

Section StringFacts.

Lemma lowerUnit_cases (u : N) :
  ((65 ≤ u ≤ 90)%N ∧ lowerUnit u = (u + 32)%N)
  ∨ ((192 ≤ u ≤ 222)%N ∧ u ≠ 215%N ∧ lowerUnit u = (u + 32)%N)
  ∨ ((u < 65 ∨ 90 < u < 192 ∨ u = 215 ∨ 222 < u)%N ∧ lowerUnit u = u).
Proof.
  unfold lowerUnit.
  destruct (N.leb_spec 65 u), (N.leb_spec u 90); simpl; try (left; lia);
    destruct (N.leb_spec 192 u), (N.leb_spec u 222), (N.eqb_spec u 215);
    simpl; try (right; left; lia); right; right; lia.
Qed.

Lemma lowerUnit_idem (u : N) : lowerUnit (lowerUnit u) = lowerUnit u.
Proof.
  destruct (lowerUnit_cases u) as [[? E]|[(? & ? & E)|[? E]]]; rewrite E;
    destruct (lowerUnit_cases (u + 32)) as [[? F]|[(? & ? & F)|[? F]]];
    try lia; try exact F; by rewrite E.
Qed.

Lemma toLowerCase_idem (s : jsstring) :
  toLowerCase (toLowerCase s) = toLowerCase s.
Proof.
  unfold toLowerCase. rewrite map_map.
  apply map_ext. intros u. apply lowerUnit_idem.
Qed.

(** A unit above Latin-1 is the image of itself only. *)
Lemma lowerUnit_caseless (u k : N) :
  (255 < k)%N → (lowerUnit u =? k)%N = (u =? k)%N.
Proof.
  intros Hk.
  destruct (lowerUnit_cases u) as [[? E]|[(? & ? & E)|[? E]]]; rewrite E;
    try reflexivity;
    destruct (N.eqb_spec (u + 32) k), (N.eqb_spec u k); try lia; reflexivity.
Qed.

Lemma startsWith_caseless (s kw : jsstring) :
  Forall (fun k => (255 < k)%N) kw →
  startsWith (toLowerCase s) kw = startsWith s kw.
Proof.
  intros Hkw. revert s.
  induction Hkw as [|k kw Hk _ IH]; intros s.
  - destruct s; reflexivity.
  - destruct s as [|u s]; simpl; [reflexivity|].
    rewrite IH. f_equal.
    rewrite (N.eqb_sym k), (N.eqb_sym k). by apply lowerUnit_caseless.
Qed.

Lemma includes_caseless (s kw : jsstring) :
  Forall (fun k => (255 < k)%N) kw →
  includes (toLowerCase s) kw = includes s kw.
Proof.
  intros Hkw. induction s as [|u s IH].
  - reflexivity.
  - change (toLowerCase (u :: s)) with (lowerUnit u :: toLowerCase s).
    cbn [includes]. rewrite IH.
    change (lowerUnit u :: toLowerCase s) with (toLowerCase (u :: s)).
    by rewrite startsWith_caseless.
Qed.

End StringFacts.

(** ** The parking classifier *)

Section ParkingFacts.

Import Parking.

Lemma keywords_caseless :
  Forall (fun k => (255 < k)%N) kw_unavailable ∧
  Forall (fun k => (255 < k)%N) kw_paid ∧
  Forall (fun k => (255 < k)%N) kw_free.
Proof.
  repeat split; repeat constructor; reflexivity.
Qed.

(** C10. [getParkingInfo] returns a status for every string, decided by
    the first keyword found in the order 불가, 유료, 무료, and 정보없음
    when none occurs; the letter case of the input plays no part; the
    post list's classifier gives the same status on strings. *)
Theorem getParkingInfo_priority (parking : jsstring) :
  status (getParkingInfo parking)
  = (if includes parking kw_unavailable then kw_unavailable
     else if includes parking kw_paid then kw_paid
     else if includes parking kw_free then kw_free
     else kw_unknown)
  ∧ status (getParkingInfo_post (inl parking))
    = status (getParkingInfo parking)
  ∧ getParkingInfo (toLowerCase parking) = getParkingInfo parking
  ∧ getParkingInfo_post (inl (toLowerCase parking))
    = getParkingInfo_post (inl parking).
Proof.
  destruct keywords_caseless as (Hu & Hp & Hf).
  unfold getParkingInfo, getParkingInfo_post.
  rewrite !toLowerCase_idem.
  rewrite !(includes_caseless parking) by assumption.
  repeat split; repeat case_match; reflexivity.
Qed.

End ParkingFacts.

(** ** The tag widget *)

Section TagFacts.

Import TagWidget.

(** The lowering function of the language is any function. *)
Variable toLowerCase : jsstring → jsstring.


Lemma truthy_false (s : jsstring) : truthy s = false ↔ s = [].
Proof. destruct s; simpl; split; congruence. Qed.

Lemma Array_includes_lower (tags : list jsstring) (x : jsstring) :
  Array_includes (map toLowerCase tags) x = true
  ↔ ∃ t, t ∈ tags ∧ toLowerCase t = x.
Proof.
  unfold Array_includes. rewrite bool_decide_eq_true.
  change (map toLowerCase tags) with (toLowerCase <$> tags).
  rewrite list_elem_of_fmap. split.
  - intros (t & -> & Ht). by exists t.
  - intros (t & Ht & <-). by exists t.
Qed.

Lemma handleTagAdd_blank tags newTag :
  trim newTag = [] → handleTagAdd toLowerCase tags newTag = tags.
Proof. intros E. unfold handleTagAdd. by rewrite E. Qed.

Lemma handleTagAdd_duplicate tags newTag :
  (∃ t, t ∈ tags ∧ toLowerCase t = toLowerCase (trim newTag)) →
  handleTagAdd toLowerCase tags newTag = tags.
Proof.
  intros H. unfold handleTagAdd.
  destruct (truthy (trim newTag)); simpl; [|reflexivity].
  apply Array_includes_lower in H. by rewrite H.
Qed.

Lemma handleTagAdd_fresh tags newTag :
  trim newTag ≠ [] →
  (∀ t, t ∈ tags → toLowerCase t ≠ toLowerCase (trim newTag)) →
  handleTagAdd toLowerCase tags newTag = tags ++ [trim newTag].
Proof.
  intros Hne Hfresh. unfold handleTagAdd.
  destruct (truthy (trim newTag)) eqn:E; simpl.
  - destruct (Array_includes _ _) eqn:I; [|reflexivity].
    apply Array_includes_lower in I as (t & Ht & Heq). by destruct (Hfresh t).
  - by apply truthy_false in E.
Qed.

Lemma handleTagAdd_caseUnique tags newTag :
  caseUnique toLowerCase tags →
  caseUnique toLowerCase (handleTagAdd toLowerCase tags newTag).
Proof.
  intros Hu. unfold handleTagAdd.
  destruct (truthy (trim newTag)); simpl; [|exact Hu].
  destruct (Array_includes _ _) eqn:I; simpl; [exact Hu|].
  unfold caseUnique in *. rewrite map_app. apply NoDup_app.
  split; [exact Hu|]. split.
  - intros x Hx Hx'. apply list_elem_of_singleton in Hx'. subst x.
    unfold Array_includes in I. apply bool_decide_eq_false in I. by apply I.
  - apply NoDup_singleton.
Qed.




End TagFacts.




(** ** Page navigation of the list components *)

Section ListStateFacts.

Import ListState.

Lemma renderPaginationButtons_in_range st pg l i :
  pagination st = Some pg →
  renderPaginationButtons st = Some l → i ∈ l → 1 ≤ i ≤ totalPages pg.
Proof.
  unfold renderPaginationButtons. intros -> [= <-] Hi.
  apply elem_of_seqZ in Hi. lia.
Qed.

Lemma postPageLinks_in_range st pg i :
  i ∈ postPageLinks st pg → 1 ≤ i ≤ totalPages pg.
Proof.
  unfold postPageLinks. intros Hi.
  apply list_elem_of_filter in Hi as [Hle Hi].
  change (i ∈ (λ k, Z.max 1 (Z.min (page st - 2) (totalPages pg - 4)) + k)
              <$> seqZ 0 (Z.min 5 (totalPages pg))) in Hi.
  apply list_elem_of_fmap in Hi as (k & -> & Hk).
  apply elem_of_seqZ in Hk. lia.
Qed.

Lemma adminClick_in_range st pg c p :
  inSync st pg → pageInRange st pg →
  adminClick st c = Some p → 1 ≤ p ≤ totalPages pg.
Proof.
  intros (Hpg & Hcur & Hnext & Hprev) Hin. unfold pageInRange in Hin.
  unfold adminClick. rewrite Hpg.
  destruct (Z.ltb_spec 1 (totalPages pg)); [|discriminate].
  rewrite Hnext, Hprev, Hcur.
  destruct c; try (destruct (Z.ltb_spec 1 (page st)); intros [= <-]; lia);
    try (destruct (Z.ltb_spec (page st) (totalPages pg)); intros [= <-]; lia).
  destruct (renderPaginationButtons st) as [l|] eqn:El; [|discriminate].
  case_bool_decide; intros [= <-].
  by eapply renderPaginationButtons_in_range.
Qed.

Lemma postClick_in_range st pg c p :
  inSync st pg → pageInRange st pg →
  postClick st c = Some p → 1 ≤ p ≤ totalPages pg.
Proof.
  intros (Hpg & Hcur & Hnext & Hprev) Hin. unfold pageInRange in Hin.
  unfold postClick. rewrite Hpg.
  destruct (Z.ltb_spec 1 (totalPages pg)); [|discriminate].
  rewrite Hnext, Hprev, Hcur.
  destruct c.
  - destruct (Z.ltb_spec 3 (page st)); intros [= <-]; lia.
  - destruct (Z.ltb_spec 1 (page st)); intros [= <-]; lia.
  - case_bool_decide; intros [= <-]. by eapply postPageLinks_in_range.
  - destruct (Z.ltb_spec (page st) (totalPages pg)); intros [= <-]; lia.
  - destruct (Z.ltb_spec (page st) (totalPages pg - 2)); intros [= <-]; lia.
Qed.

(** C6, no clamping. On page 5 of a listing that has 3 pages (the
    server answers such a request with an empty page and
    [hasPrevPage] set), the control for the previous page is enabled in
    the admin tables and in the post list; it asks for page 4, and
    [goToPage] leaves the component on page 4, beyond the last page. *)
Lemma goToPage_not_clamped :
  Server.paginationOf 5 10 23
  = {| Server.currentPage := 5; Server.totalPages := Server.Int 3;
       Server.totalCount := 23; Server.limit := 10;
       Server.hasNextPage := false; Server.hasPrevPage := true |}
  ∧ inSync page5of3
      {| currentPage := 5; totalPages := 3; totalCount := 23; limit := 10;
         hasNextPage := false; hasPrevPage := true |}
  ∧ adminClick page5of3 PrevPage = Some 4
  ∧ postClick page5of3 PrevPage = Some 4
  ∧ page (click (adminClick page5of3 PrevPage) page5of3) = 4
  ∧ (totalPages <$> pagination (click (adminClick page5of3 PrevPage)
                                  page5of3)) = Some 3
  ∧ page (goToPage 4 page5of3) = 4
  ∧ (4 <=? 3) = false.
Proof. vm_compute. repeat split. Qed.

(** C6. [goToPage] sets the page to the page asked for, whatever it is;
    the page stays within 1..totalPages when the page asked for is, and
    every control of the pagination bars (first, previous, numbered,
    next, last), when it is rendered and enabled for a pagination record
    that describes the current page, and the current page lies within
    1..totalPages, asks for such a page. The debounce timer commits the
    search term and returns to page 1, and so does a change of
    category. *)
Theorem goToPage_sets_requested_page (st : State) (pg : PaginationInfo)
    (p : Z) (c : Control) (category : jsstring) :
  page (goToPage p st) = p
  ∧ (1 ≤ p ≤ totalPages pg → pageInRange (goToPage p st) pg)
  ∧ (inSync st pg → pageInRange st pg →
     pageInRange (click (adminClick st c) st) pg
     ∧ pageInRange (click (postClick st c) st) pg)
  ∧ page (debounceFire st) = 1
  ∧ debouncedSearchTerm (debounceFire st) = searchTerm st
  ∧ (category ≠ selectedCategory st →
     page (selectCategory category st) = 1)
  ∧ selectedCategory (selectCategory category st) = category.
Proof.
  split; [reflexivity|]. split; [intros; exact H|].
  split.
  { intros Hsync Hin. split.
    - destruct (adminClick st c) as [q|] eqn:E; [|exact Hin].
      exact (adminClick_in_range st pg c q Hsync Hin E).
    - destruct (postClick st c) as [q|] eqn:E; [|exact Hin].
      exact (postClick_in_range st pg c q Hsync Hin E). }
  split; [reflexivity|]. split; [reflexivity|].
  unfold selectCategory. destruct (decide (category = selectedCategory st));
    [|by split]. split; [contradiction|by symmetry].
Qed.

Lemma goToPage_sets_requested_page_witness :
  page (goToPage 3 page2of3) = 3
  ∧ pageInRange (click (adminClick page2of3 PrevPage) page2of3)
      {| currentPage := 2; totalPages := 3; totalCount := 23;
         limit := 10; hasNextPage := true; hasPrevPage := true |}
  ∧ page (selectCategory (js "domestic") page2of3) = 1.
Proof.
  assert (Hs : inSync page2of3
                 {| currentPage := 2; totalPages := 3; totalCount := 23;
                    limit := 10; hasNextPage := true; hasPrevPage := true |})
    by (repeat split).
  assert (Hr : pageInRange page2of3
                 {| currentPage := 2; totalPages := 3; totalCount := 23;
                    limit := 10; hasNextPage := true; hasPrevPage := true |})
    by (unfold pageInRange; simpl; lia).
  assert (Hc : js "domestic" ≠ selectedCategory page2of3)
    by (vm_compute; discriminate).
  destruct (goToPage_sets_requested_page page2of3
              {| currentPage := 2; totalPages := 3; totalCount := 23;
                 limit := 10; hasNextPage := true; hasPrevPage := true |}
              3 PrevPage (js "domestic"))
    as (H1 & _ & H3 & _ & _ & H7 & _).
  split; [exact H1|]. split; [exact (proj1 (H3 Hs Hr))|exact (H7 Hc)].
Defined.

End ListStateFacts.

(** ** The actions on sample data *)

Section SampleRuns.

Import Server Sample.

Example createStore_fresh_id :
  ∃ r w', createStore StoreSchema
            {| i_name := js "Hongdae"; i_address := js "Seoul";
               i_location := js "KR"; i_storeId := js "S2";
               i_latitude := None; i_longitude := None;
               i_parking := js "불가"; i_since := js "2024";
               i_phone := None; i_tags := []; i_images := [] |} oneStore
          = (Normal r, w')
          ∧ success r = true
          ∧ size (stores (db w')) = 2%nat
          ∧ revalidated w' = [js "/admin"].
Proof. eexists _, _. vm_compute. repeat split. Qed.

Example createStore_invalid_input :
  createStore StoreSchema
    {| i_name := []; i_address := []; i_location := []; i_storeId := js "S1";
       i_latitude := None; i_longitude := None; i_parking := [];
       i_since := []; i_phone := None; i_tags := []; i_images := [] |}
    oneStore
  = (Normal (fail_error Msg.storeCreateFailed), oneStore).
Proof. vm_compute. reflexivity. Qed.

Example createComment_valid :
  ∃ r w', createComment CommentInput CommentSchema
            {| in_postId := js "00000000000000000000000a";
               in_author := js "kim"; in_content := js "good";
               in_email := Some [] |} oneStore
          = (Normal r, w')
          ∧ success r = true
          ∧ (d_id <$> payload r) = Some (js "000000000000000000000064")
          ∧ comments (db w') !! 100%N
            = Some {| c_postId := 10%N; author := js "kim";
                      content := js "good"; email := None;
                      isDeleted := false;
                      c_createdAt := 1000; c_updatedAt := 1000 |}.
Proof. eexists _, _. vm_compute. repeat split. Qed.

Example createComment_invalid :
  createComment CommentInput CommentSchema
    {| in_postId := js "00000000000000000000000a"; in_author := [];
       in_content := js "good"; in_email := None |} oneStore
  = (Normal (fail_message Msg.commentInvalid (Some [issue "required"])),
     oneStore).
Proof. vm_compute. reflexivity. Qed.

Example createComment_database_down :
  ∃ w', createComment CommentInput CommentSchema
          {| in_postId := js "00000000000000000000000a";
             in_author := js "kim"; in_content := js "good";
             in_email := None |} (set_faults [true] oneStore)
        = (Normal (fail_message Msg.commentCreateFailed None), w')
        ∧ db w' = db oneStore.
Proof. eexists. vm_compute. repeat split. Qed.

Example deleteComment_not_an_id :
  deleteComment (js "xyz") world23
  = (Normal (fail_error Msg.deleteFailed), world23).
Proof. vm_compute. reflexivity. Qed.

Example deleteComment_unknown_id :
  deleteComment (js "0000000000000000000000ff") world23
  = (Normal (fail_error Msg.deleteNotFound), world23).
Proof. vm_compute. reflexivity. Qed.

Example listing_zero_limit :
  ∃ pg, getAllStoresPage LiteralDot.RegExp 1 0 None world23
        = (Normal (ok_with None (Some pg)), world23)
        ∧ length (records pg) = 23%nat
        ∧ totalPages (pagination pg) = Infinity.
Proof. eexists. vm_compute. repeat split. Qed.

End SampleRuns.

(** ** The server actions *)

Section RunFacts.

Import Server.

Variable RegExp : jsstring → option (jsstring → bool).

Lemma dbCall_eq w :
  dbCall w = (if rejects w then Throw MongoError else Normal tt, settle w).
Proof. unfold dbCall, rejects, settle. by destruct (faults w) as [|[] fs]. Qed.

Lemma db_settle w : db (settle w) = db w.
Proof. unfold settle. by destruct (faults w). Qed.

Lemma clock_settle w : clock (settle w) = clock w.
Proof. unfold settle. by destruct (faults w). Qed.

Lemma nextId_settle w : nextId (settle w) = nextId w.
Proof. unfold settle. by destruct (faults w). Qed.

Lemma revalidated_settle w : revalidated (settle w) = revalidated w.
Proof. unfold settle. by destruct (faults w). Qed.

Lemma healthy_rejects w : faults w = [] → rejects w = false.
Proof. unfold rejects. by intros ->. Qed.

Lemma healthy_settle w : faults w = [] → settle w = w.
Proof. unfold settle. by intros ->. Qed.

Lemma bind_dbCall {A} (k : unit → Async A) w :
  bind dbCall k w
  = if rejects w then (Throw MongoError, settle w) else k tt (settle w).
Proof. unfold bind. rewrite dbCall_eq. by destruct (rejects w). Qed.

Lemma countDocuments_eq {D} (M : Model D) f w :
  countDocuments RegExp M f w
  = if rejects w then (Throw MongoError, settle w)
    else match compileFilter RegExp f with
         | None => (Throw MongoError, settle w)
         | Some test =>
           (Normal (Z.of_nat (length (matching M test (db w)))), settle w)
         end.
Proof.
  unfold countDocuments. rewrite bind_dbCall.
  destruct (rejects w); [reflexivity|].
  destruct (compileFilter RegExp f); [|reflexivity].
  unfold bind, get_world, ret. by rewrite db_settle.
Qed.

Lemma find_eq {D} (M : Model D) f window w :
  find RegExp M f window w
  = if rejects w then (Throw MongoError, settle w)
    else match compileFilter RegExp f with
         | None => (Throw MongoError, settle w)
         | Some test =>
           match window_of window
                   (sortNewestFirst M (matching M test (db w))) with
           | Some l => (Normal l, settle w)
           | None => (Throw MongoError, settle w)
           end
         end.
Proof.
  unfold find. rewrite bind_dbCall.
  destruct (rejects w); [reflexivity|].
  destruct (compileFilter RegExp f); [|reflexivity].
  unfold bind, get_world, ret, window_of. rewrite db_settle.
  destruct window as [[skip limit]|]; [|reflexivity].
  by destruct (skip <? 0).
Qed.

Lemma findPopulated_eq f window w :
  findPopulated RegExp f window w
  = if rejects w then (Throw MongoError, settle w)
    else match compileFilter RegExp f with
         | None => (Throw MongoError, settle w)
         | Some test =>
           match window_of window
                   (sortNewestFirst Comments
                      (matching Comments test (db w))) with
           | Some l => (Normal (map (populate (db w)) l), settle w)
           | None => (Throw MongoError, settle w)
           end
         end.
Proof.
  unfold findPopulated, bind at 1. rewrite find_eq.
  destruct (rejects w); [reflexivity|].
  destruct (compileFilter RegExp f); [|reflexivity].
  destruct (window_of _ _); [|reflexivity].
  unfold bind, get_world, ret. by rewrite db_settle.
Qed.

Lemma findById_eq {D} (M : Model D) id w :
  findById M id w
  = if rejects w then (Throw MongoError, settle w)
    else match castObjectId id with
         | None => (Throw CastError, settle w)
         | Some k => (Normal (collection M (db w) !! k), settle w)
         end.
Proof.
  unfold findById. rewrite bind_dbCall.
  destruct (rejects w); [reflexivity|].
  destruct (castObjectId id); [|reflexivity].
  unfold bind, get_world, ret. by rewrite db_settle.
Qed.

Lemma Comments_findByIdAndUpdate_eq id deleted t w :
  Comments_findByIdAndUpdate id deleted t w
  = if rejects w then (Throw MongoError, settle w)
    else match castObjectId id with
         | None => (Throw CastError, settle w)
         | Some k =>
           (Normal tt,
            set_db (set_comments (alter (setDeleted deleted t) k
                                    (comments (db w))) (db w)) (settle w))
         end.
Proof.
  unfold Comments_findByIdAndUpdate. rewrite bind_dbCall.
  destruct (rejects w); [reflexivity|].
  destruct (castObjectId id); [|reflexivity].
  unfold modify. by rewrite db_settle.
Qed.

(** The paginated listings, path by path. *)
Lemma getAllStoresPage_eq page limit q w :
  getAllStoresPage RegExp page limit q w
  = let w1 := settle w in
    let w2 := settle w1 in
    let w3 := settle w2 in
    let failed := Normal (fail_error Msg.storePageFailed) in
    if rejects w then (failed, w1)
    else if rejects w1 then (failed, w2)
    else match compileFilter RegExp (storeSearch q) with
         | None => (failed, w2)
         | Some test =>
           if rejects w2 then (failed, w3)
           else if (page - 1) * limit <? 0 then (failed, w3)
           else
             (Normal (ok_with None (Some
                {| records :=
                     applyLimit limit
                       (drop (Z.to_nat ((page - 1) * limit))
                          (sortNewestFirst StoreModel
                             (matching StoreModel test (db w))));
                   pagination :=
                     paginationOf page limit
                       (Z.of_nat (length (matching StoreModel test (db w))))
                |})), w3)
         end.
Proof.
  unfold getAllStoresPage, try_catch, connectToDatabase.
  rewrite bind_dbCall. cbv zeta.
  destruct (rejects w); [reflexivity|].
  unfold bind at 1. rewrite countDocuments_eq.
  destruct (rejects (settle w)); [reflexivity|].
  destruct (compileFilter RegExp (storeSearch q)) as [test|] eqn:Ec;
    [|reflexivity].
  unfold bind. rewrite find_eq, Ec, !db_settle. unfold window_of.
  destruct (rejects (settle (settle w))); [reflexivity|].
  by destruct ((page - 1) * limit <? 0).
Qed.

Lemma getCommentsPaginated_eq page limit q w :
  getCommentsPaginated RegExp page limit q w
  = let w1 := settle w in
    let w2 := settle w1 in
    let w3 := settle w2 in
    let failed := Normal (fail_error Msg.commentPageFailed) in
    if rejects w then (failed, w1)
    else if rejects w1 then (failed, w2)
    else match compileFilter RegExp (commentSearch q) with
         | None => (failed, w2)
         | Some test =>
           if rejects w2 then (failed, w3)
           else if (page - 1) * limit <? 0 then (failed, w3)
           else
             (Normal (ok_with None (Some
                {| records :=
                     map (populate (db w))
                       (applyLimit limit
                          (drop (Z.to_nat ((page - 1) * limit))
                             (sortNewestFirst Comments
                                (matching Comments test (db w)))));
                   pagination :=
                     paginationOf page limit
                       (Z.of_nat (length (matching Comments test (db w))))
                |})), w3)
         end.
Proof.
  unfold getCommentsPaginated, try_catch, connectToDatabase.
  rewrite bind_dbCall. cbv zeta.
  destruct (rejects w); [reflexivity|].
  unfold bind at 1. rewrite countDocuments_eq.
  destruct (rejects (settle w)); [reflexivity|].
  destruct (compileFilter RegExp (commentSearch q)) as [test|] eqn:Ec;
    [|reflexivity].
  unfold bind. rewrite findPopulated_eq, Ec, !db_settle. unfold window_of.
  destruct (rejects (settle (settle w))); [reflexivity|].
  by destruct ((page - 1) * limit <? 0).
Qed.

(** Soft delete and restore, path by path. *)
Lemma deleteComment_eq id w :
  deleteComment id w
  = let w1 := settle w in
    let w2 := settle w1 in
    let w3 := settle w2 in
    let failed := Normal (fail_error Msg.deleteFailed) in
    if rejects w then (failed, w1)
    else if negb (truthy id)
    then (Normal (fail_error Msg.deleteIdRequired), w1)
    else if rejects w1 then (failed, w2)
    else match castObjectId id with
         | None => (failed, w2)
         | Some k =>
           match comments (db w) !! k with
           | None => (Normal (fail_error Msg.deleteNotFound), w2)
           | Some _ =>
             if rejects w2 then (failed, w3)
             else (Normal (ok_with (Some Msg.deleted) None),
                   updated true k w w3)
           end
         end.
Proof.
  unfold deleteComment, try_catch, connectToDatabase.
  rewrite bind_dbCall. cbv zeta.
  destruct (rejects w); [reflexivity|].
  destruct (truthy id); simpl; [|reflexivity].
  unfold bind at 1. rewrite findById_eq.
  destruct (rejects (settle w)); [reflexivity|].
  destruct (castObjectId id) as [k|] eqn:Ek; [|reflexivity].
  rewrite db_settle. simpl.
  destruct (comments (db w) !! k); [|reflexivity].
  unfold bind at 1, new_Date. unfold bind at 1.
  rewrite Comments_findByIdAndUpdate_eq, Ek.
  destruct (rejects (settle (settle w))); [reflexivity|].
  unfold bind, revalidatePath, modify, ret, updated. simpl.
  by rewrite !revalidated_settle, !db_settle, !clock_settle.
Qed.

Lemma restoreComment_eq id w :
  restoreComment id w
  = let w1 := settle w in
    let w2 := settle w1 in
    let w3 := settle w2 in
    let failed := Normal (fail_error Msg.restoreFailed) in
    if rejects w then (failed, w1)
    else if negb (truthy id)
    then (Normal (fail_error Msg.restoreIdRequired), w1)
    else if rejects w1 then (failed, w2)
    else match castObjectId id with
         | None => (failed, w2)
         | Some k =>
           match comments (db w) !! k with
           | None => (Normal (fail_error Msg.restoreNotFound), w2)
           | Some _ =>
             if rejects w2 then (failed, w3)
             else (Normal (ok_with (Some Msg.restored) None),
                   updated false k w w3)
           end
         end.
Proof.
  unfold restoreComment, try_catch, connectToDatabase.
  rewrite bind_dbCall. cbv zeta.
  destruct (rejects w); [reflexivity|].
  destruct (truthy id); simpl; [|reflexivity].
  unfold bind at 1. rewrite findById_eq.
  destruct (rejects (settle w)); [reflexivity|].
  destruct (castObjectId id) as [k|] eqn:Ek; [|reflexivity].
  rewrite db_settle. simpl.
  destruct (comments (db w) !! k); [|reflexivity].
  unfold bind at 1, new_Date. unfold bind at 1.
  rewrite Comments_findByIdAndUpdate_eq, Ek.
  destruct (rejects (settle (settle w))); [reflexivity|].
  unfold bind, revalidatePath, modify, ret, updated. simpl.
  by rewrite !revalidated_settle, !db_settle, !clock_settle.
Qed.

End RunFacts.

(** ** Pagination *)

Section PaginationFacts.

Import Server.

Variable RegExp : jsstring → option (jsstring → bool).

Lemma Math_ceil_div_spec (a b : Z) :
  0 < b → ∃ n, Math_ceil_div a b = Int n ∧ isCeiling n a b.
Proof.
  intros Hb. exists (- (- a / b)). unfold Math_ceil_div, isCeiling.
  destruct (Z.eqb_spec b 0); [lia|]. split; [reflexivity|].
  pose proof (Z.mul_div_le (- a) b Hb).
  pose proof (Z.mul_succ_div_gt (- a) b Hb). nia.
Qed.

Lemma isCeiling_unique (n m a b : Z) :
  0 < b → isCeiling n a b → isCeiling m a b → n = m.
Proof. unfold isCeiling. intros Hb [? ?] [? ?]. nia. Qed.

Lemma paginationOf_ok (page limit count : Z) :
  1 ≤ limit → metadataOk page limit (paginationOf page limit count).
Proof.
  intros Hl. destruct (Math_ceil_div_spec count limit) as (n & En & Hn); [lia|].
  exists n. unfold paginationOf, metadataOk.
  cbn [totalPages totalCount hasNextPage hasPrevPage currentPage].
  rewrite En. cbn [lt_number]. by split_and!.
Qed.

Lemma length_sortNewestFirst {D} (M : Model D) (l : list (N * D)) :
  length (sortNewestFirst M l) = length l.
Proof. unfold sortNewestFirst. by rewrite merge_sort_Permutation. Qed.

Lemma length_page {A} (limit skip : Z) (l : list A) :
  1 ≤ limit → 0 ≤ skip →
  length (applyLimit limit (drop (Z.to_nat skip) l))
  = Nat.min (Z.to_nat limit) (length l - Z.to_nat skip).
Proof.
  intros Hl Hs. unfold applyLimit.
  destruct (Z.eqb_spec limit 0); [lia|].
  rewrite length_take, length_drop.
  replace (Z.abs_nat limit) with (Z.to_nat limit) by lia. reflexivity.
Qed.

Lemma matching_all {D} (M : Model D) (d : Database) :
  length (matching M (fun _ => true) d) = size (collection M d).
Proof.
  unfold matching. rewrite <- length_map_to_list.
  f_equal. induction (map_to_list (collection M d)) as [|x l IH];
    [reflexivity|].
  rewrite filter_cons_True by reflexivity. by rewrite IH.
Qed.

(** A page past the last one is empty. *)
Lemma page_beyond_empty {A} (page limit n : Z) (l : list A) :
  1 ≤ limit → isCeiling n (Z.of_nat (length l)) limit → n < page →
  applyLimit limit (drop (Z.to_nat ((page - 1) * limit)) l) = [].
Proof.
  intros Hl [_ Hn] Hp. unfold applyLimit.
  rewrite drop_ge by nia. by destruct (limit =? 0); [|rewrite take_nil].
Qed.

Lemma stores_listing_success page limit q w r w' :
  1 ≤ page → 1 ≤ limit →
  getAllStoresPage RegExp page limit q w = (Normal r, w') →
  success r = true →
  ∃ test,
    compileFilter RegExp (storeSearch q) = Some test
    ∧ payload r = Some
        {| records :=
             applyLimit limit
               (drop (Z.to_nat ((page - 1) * limit))
                  (sortNewestFirst StoreModel
                     (matching StoreModel test (db w))));
           pagination :=
             paginationOf page limit
               (Z.of_nat (length (matching StoreModel test (db w)))) |}.
Proof.
  intros Hp Hl. rewrite getAllStoresPage_eq. cbv zeta.
  destruct (rejects w); [by intros [= <- _]|].
  destruct (rejects (settle w)); [by intros [= <- _]|].
  destruct (compileFilter _ _) as [test|]; [|by intros [= <- _]].
  destruct (rejects _); [by intros [= <- _]|].
  destruct (_ <? 0); [by intros [= <- _]|].
  intros [= <- _] _. by exists test.
Qed.

Lemma comments_listing_success page limit q w r w' :
  1 ≤ page → 1 ≤ limit →
  getCommentsPaginated RegExp page limit q w = (Normal r, w') →
  success r = true →
  ∃ test,
    compileFilter RegExp (commentSearch q) = Some test
    ∧ payload r = Some
        {| records :=
             map (populate (db w))
               (applyLimit limit
                  (drop (Z.to_nat ((page - 1) * limit))
                     (sortNewestFirst Comments
                        (matching Comments test (db w)))));
           pagination :=
             paginationOf page limit
               (Z.of_nat (length (matching Comments test (db w)))) |}.
Proof.
  intros Hp Hl. rewrite getCommentsPaginated_eq. cbv zeta.
  destruct (rejects w); [by intros [= <- _]|].
  destruct (rejects (settle w)); [by intros [= <- _]|].
  destruct (compileFilter _ _) as [test|]; [|by intros [= <- _]].
  destruct (rejects _); [by intros [= <- _]|].
  destruct (_ <? 0); [by intros [= <- _]|].
  intros [= <- _] _. by exists test.
Qed.

Lemma stores_listing_healthy page limit q w test :
  faults w = [] → 1 ≤ page → 1 ≤ limit →
  compileFilter RegExp (storeSearch q) = Some test →
  getAllStoresPage RegExp page limit q w
  = (Normal (ok_with None (Some
       {| records :=
            applyLimit limit
              (drop (Z.to_nat ((page - 1) * limit))
                 (sortNewestFirst StoreModel
                    (matching StoreModel test (db w))));
          pagination :=
            paginationOf page limit
              (Z.of_nat (length (matching StoreModel test (db w)))) |})),
     w).
Proof.
  intros Hf Hp Hl Ec. rewrite getAllStoresPage_eq. cbv zeta.
  rewrite !(healthy_settle w Hf), (healthy_rejects w Hf), Ec.
  destruct (Z.ltb_spec ((page - 1) * limit) 0); [nia|reflexivity].
Qed.

Lemma comments_listing_healthy page limit q w test :
  faults w = [] → 1 ≤ page → 1 ≤ limit →
  compileFilter RegExp (commentSearch q) = Some test →
  getCommentsPaginated RegExp page limit q w
  = (Normal (ok_with None (Some
       {| records :=
            map (populate (db w))
              (applyLimit limit
                 (drop (Z.to_nat ((page - 1) * limit))
                    (sortNewestFirst Comments
                       (matching Comments test (db w)))));
          pagination :=
            paginationOf page limit
              (Z.of_nat (length (matching Comments test (db w)))) |})),
     w).
Proof.
  intros Hf Hp Hl Ec. rewrite getCommentsPaginated_eq. cbv zeta.
  rewrite !(healthy_settle w Hf), (healthy_rejects w Hf), Ec.
  destruct (Z.ltb_spec ((page - 1) * limit) 0); [nia|reflexivity].
Qed.

End PaginationFacts.

Section PaginationResults.

Import Server.

Variable RegExp : jsstring → option (jsstring → bool).

Lemma page_size_formula (page limit : Z) {A} (l : list A) :
  1 ≤ page → 1 ≤ limit →
  Z.of_nat (length (applyLimit limit
                      (drop (Z.to_nat ((page - 1) * limit)) l)))
  = Z.min limit (Z.max 0 (Z.of_nat (length l) - (page - 1) * limit)).
Proof. intros Hp Hl. rewrite length_page by nia. nia. Qed.

Lemma stores23_pages w :
  faults w = [] → size (stores (db w)) = 23%nat →
  ∃ p1 p3,
    getAllStoresPage RegExp 1 10 None w = (Normal (ok_with None (Some p1)), w)
    ∧ length (records p1) = 10%nat
    ∧ totalPages (pagination p1) = Int 3
    ∧ hasNextPage (pagination p1) = true
    ∧ getAllStoresPage RegExp 3 10 None w
      = (Normal (ok_with None (Some p3)), w)
    ∧ length (records p3) = 3%nat
    ∧ totalPages (pagination p3) = Int 3
    ∧ hasNextPage (pagination p3) = false.
Proof.
  intros Hf Hn.
  pose proof (stores_listing_healthy RegExp 1 10 None w (fun _ => true) Hf
                ltac:(lia) ltac:(lia) eq_refl) as H1.
  pose proof (stores_listing_healthy RegExp 3 10 None w (fun _ => true) Hf
                ltac:(lia) ltac:(lia) eq_refl) as H3.
  assert (Hc : length (matching StoreModel (fun _ => true) (db w)) = 23%nat)
    by (rewrite matching_all; exact Hn).
  eexists _, _. split; [exact H1|]. cbn [records pagination].
  split; [rewrite length_page, length_sortNewestFirst, Hc by lia;
          reflexivity|].
  split; [rewrite Hc; reflexivity|]. split; [rewrite Hc; reflexivity|].
  split; [exact H3|]. cbn [records pagination].
  split; [rewrite length_page, length_sortNewestFirst, Hc by lia;
          reflexivity|].
  split; rewrite Hc; reflexivity.
Qed.

Lemma comments23_pages w :
  faults w = [] → size (comments (db w)) = 23%nat →
  ∃ p1 p3,
    getCommentsPaginated RegExp 1 10 None w
    = (Normal (ok_with None (Some p1)), w)
    ∧ length (records p1) = 10%nat
    ∧ totalPages (pagination p1) = Int 3
    ∧ hasNextPage (pagination p1) = true
    ∧ getCommentsPaginated RegExp 3 10 None w
      = (Normal (ok_with None (Some p3)), w)
    ∧ length (records p3) = 3%nat
    ∧ totalPages (pagination p3) = Int 3
    ∧ hasNextPage (pagination p3) = false.
Proof.
  intros Hf Hn.
  pose proof (comments_listing_healthy RegExp 1 10 None w (fun _ => true) Hf
                ltac:(lia) ltac:(lia) eq_refl) as H1.
  pose proof (comments_listing_healthy RegExp 3 10 None w (fun _ => true) Hf
                ltac:(lia) ltac:(lia) eq_refl) as H3.
  assert (Hc : length (matching Comments (fun _ => true) (db w)) = 23%nat)
    by (rewrite matching_all; exact Hn).
  eexists _, _. split; [exact H1|]. cbn [records pagination].
  split; [rewrite length_map, length_page, length_sortNewestFirst, Hc by lia;
          reflexivity|].
  split; [rewrite Hc; reflexivity|]. split; [rewrite Hc; reflexivity|].
  split; [exact H3|]. cbn [records pagination].
  split; [rewrite length_map, length_page, length_sortNewestFirst, Hc by lia;
          reflexivity|].
  split; rewrite Hc; reflexivity.
Qed.

(** C1. A paginated listing that succeeds for a page and a page size of
    at least 1 returns metadata in which [totalPages] is the ceiling of
    [totalCount / limit], [hasNextPage] is [page < totalPages] and
    [hasPrevPage] is [page > 1], where [totalCount] is the number of
    documents that match the search, and a page of
    min(limit, max(0, totalCount - (page - 1) * limit)) records. With 23
    records, a working database and limit 10, page 1 has 10 records,
    3 pages in total and a next page; page 3 has 3 records and no next
    page. *)
Theorem pagination_metadata (w : World) (page limit : Z)
    (q : option jsstring) :
  1 ≤ page → 1 ≤ limit →
  (∀ r w', getAllStoresPage RegExp page limit q w = (Normal r, w') →
           success r = true →
           ∃ pg test,
             payload r = Some pg
             ∧ metadataOk page limit (pagination pg)
             ∧ compileFilter RegExp (storeSearch q) = Some test
             ∧ totalCount (pagination pg)
               = Z.of_nat (length (matching StoreModel test (db w)))
             ∧ Z.of_nat (length (records pg))
               = Z.min limit
                   (Z.max 0 (totalCount (pagination pg)
                             - (page - 1) * limit)))
  ∧ (∀ r w', getCommentsPaginated RegExp page limit q w = (Normal r, w') →
             success r = true →
             ∃ pg test,
               payload r = Some pg
               ∧ metadataOk page limit (pagination pg)
               ∧ compileFilter RegExp (commentSearch q) = Some test
               ∧ totalCount (pagination pg)
                 = Z.of_nat (length (matching Comments test (db w)))
               ∧ Z.of_nat (length (records pg))
                 = Z.min limit
                     (Z.max 0 (totalCount (pagination pg)
                               - (page - 1) * limit)))
  ∧ (faults w = [] → size (stores (db w)) = 23%nat →
     ∃ p1 p3,
       getAllStoresPage RegExp 1 10 None w
       = (Normal (ok_with None (Some p1)), w)
       ∧ length (records p1) = 10%nat
       ∧ totalPages (pagination p1) = Int 3
       ∧ hasNextPage (pagination p1) = true
       ∧ getAllStoresPage RegExp 3 10 None w
         = (Normal (ok_with None (Some p3)), w)
       ∧ length (records p3) = 3%nat
       ∧ totalPages (pagination p3) = Int 3
       ∧ hasNextPage (pagination p3) = false)
  ∧ (faults w = [] → size (comments (db w)) = 23%nat →
     ∃ p1 p3,
       getCommentsPaginated RegExp 1 10 None w
       = (Normal (ok_with None (Some p1)), w)
       ∧ length (records p1) = 10%nat
       ∧ totalPages (pagination p1) = Int 3
       ∧ hasNextPage (pagination p1) = true
       ∧ getCommentsPaginated RegExp 3 10 None w
         = (Normal (ok_with None (Some p3)), w)
       ∧ length (records p3) = 3%nat
       ∧ totalPages (pagination p3) = Int 3
       ∧ hasNextPage (pagination p3) = false).
Proof.
  intros Hp Hl. split_and!.
  - intros r w' Hrun Hok.
    destruct (stores_listing_success RegExp page limit q w r w'
                Hp Hl Hrun Hok) as (test & Ec & ->).
    eexists _, test. split; [reflexivity|]. cbn [records pagination].
    split; [by apply paginationOf_ok|]. split; [exact Ec|].
    split; [reflexivity|].
    rewrite page_size_formula, length_sortNewestFirst by assumption.
    reflexivity.
  - intros r w' Hrun Hok.
    destruct (comments_listing_success RegExp page limit q w r w'
                Hp Hl Hrun Hok) as (test & Ec & ->).
    eexists _, test. split; [reflexivity|]. cbn [records pagination].
    split; [by apply paginationOf_ok|]. split; [exact Ec|].
    split; [reflexivity|].
    rewrite length_map, page_size_formula, length_sortNewestFirst
      by assumption.
    reflexivity.
  - apply stores23_pages.
  - apply comments23_pages.
Qed.

(** C2. With a working database, a page number past [totalPages] (page
    and page size at least 1) gives a success result with no records,
    metadata by the same formulas and no next page. *)
Theorem page_beyond_last (w : World) (page limit : Z) (q : option jsstring) :
  faults w = [] → 1 ≤ page → 1 ≤ limit →
  (∀ test n,
     compileFilter RegExp (storeSearch q) = Some test →
     Math_ceil_div (Z.of_nat (length (matching StoreModel test (db w)))) limit
     = Int n →
     n < page →
     ∃ pg, getAllStoresPage RegExp page limit q w
           = (Normal (ok_with None (Some pg)), w)
           ∧ records pg = []
           ∧ metadataOk page limit (pagination pg)
           ∧ totalPages (pagination pg) = Int n
           ∧ totalCount (pagination pg)
             = Z.of_nat (length (matching StoreModel test (db w)))
           ∧ hasNextPage (pagination pg) = false)
  ∧ (∀ test n,
       compileFilter RegExp (commentSearch q) = Some test →
       Math_ceil_div (Z.of_nat (length (matching Comments test (db w)))) limit
       = Int n →
       n < page →
       ∃ pg, getCommentsPaginated RegExp page limit q w
             = (Normal (ok_with None (Some pg)), w)
             ∧ records pg = []
             ∧ metadataOk page limit (pagination pg)
             ∧ totalPages (pagination pg) = Int n
             ∧ totalCount (pagination pg)
               = Z.of_nat (length (matching Comments test (db w)))
             ∧ hasNextPage (pagination pg) = false).
Proof.
  intros Hf Hp Hl. split.
  - intros test n Ec En Hn. eexists.
    split; [by apply stores_listing_healthy|]. cbn [records pagination].
    destruct (Math_ceil_div_spec
                (Z.of_nat (length (matching StoreModel test (db w)))) limit)
      as (m & Em & Hm); [lia|].
    assert (m = n) as -> by congruence.
    split_and!.
    + apply (page_beyond_empty page limit n); [assumption| |assumption].
      by rewrite length_sortNewestFirst.
    + by apply paginationOf_ok.
    + exact En.
    + reflexivity.
    + unfold paginationOf. cbn [hasNextPage]. rewrite En. cbn [lt_number].
      apply Z.ltb_ge. lia.
  - intros test n Ec En Hn. eexists.
    split; [by apply comments_listing_healthy|]. cbn [records pagination].
    destruct (Math_ceil_div_spec
                (Z.of_nat (length (matching Comments test (db w)))) limit)
      as (m & Em & Hm); [lia|].
    assert (m = n) as -> by congruence.
    split_and!.
    + rewrite (page_beyond_empty page limit n);
        [reflexivity|assumption| |assumption].
      by rewrite length_sortNewestFirst.
    + by apply paginationOf_ok.
    + exact En.
    + reflexivity.
    + unfold paginationOf. cbn [hasNextPage]. rewrite En. cbn [lt_number].
      apply Z.ltb_ge. lia.
Qed.

End PaginationResults.

Lemma pagination_metadata_witness :
  ∃ p1, Server.getAllStoresPage LiteralDot.RegExp 1 10 None Sample.world23
        = (Server.Normal (Server.ok_with None (Some p1)), Sample.world23)
        ∧ length (Server.records p1) = 10%nat
        ∧ Server.totalPages (Server.pagination p1) = Server.Int 3.
Proof.
  destruct (pagination_metadata LiteralDot.RegExp Sample.world23 1 10 None
              ltac:(lia) ltac:(lia)) as (_ & _ & H & _).
  destruct (H eq_refl ltac:(vm_compute; reflexivity))
    as (p1 & p3 & H1 & H2 & H3 & _).
  exists p1. by split_and!.
Defined.

Lemma page_beyond_last_witness :
  ∃ pg, Server.getAllStoresPage LiteralDot.RegExp 4 10 None Sample.world23
        = (Server.Normal (Server.ok_with None (Some pg)), Sample.world23)
        ∧ Server.records pg = []
        ∧ Server.hasNextPage (Server.pagination pg) = false.
Proof.
  destruct (page_beyond_last LiteralDot.RegExp Sample.world23 4 10 None
              eq_refl ltac:(lia) ltac:(lia)) as (H & _).
  destruct (H (fun _ => true) 3 eq_refl ltac:(vm_compute; reflexivity)
              ltac:(lia)) as (pg & H1 & H2 & _ & _ & _ & H3).
  exists pg. by split_and!.
Defined.

(** ** Stores and comments in the database *)

Section StorageFacts.

Import Server.

Variable StoreInputSchema_parse : IStoreInput → list ZodIssue + IStoreInput.

Lemma createStore_eq data w :
  createStore StoreInputSchema_parse data w
  = let w1 := settle w in
    let w2 := settle w1 in
    let w3 := settle w2 in
    let failed := Normal (fail_error Msg.storeCreateFailed) in
    if rejects w then (failed, w1)
    else match StoreInputSchema_parse data with
         | inl _ => (failed, w1)
         | inr v =>
           if rejects w1 then (failed, w2)
           else
             match list_find (fun kd => storeId (snd kd) = i_storeId v)
                     (map_to_list (stores (db w))) with
             | Some _ => (Normal (fail_error Msg.storeIdTaken), w2)
             | None =>
               if rejects w2 then (failed, w3)
               else
                 (Normal (ok_with (Some Msg.storeCreated)
                            (Some (nextId w, storeDocument v (clock w)))),
                  created v w w3)
             end
         end.
Proof.
  unfold createStore, try_catch, connectToDatabase.
  rewrite bind_dbCall. cbv zeta.
  destruct (rejects w); [reflexivity|].
  destruct (StoreInputSchema_parse data) as [issues|v]; [reflexivity|].
  unfold zod, bind at 1, ret. unfold bind at 1, Store_findOne.
  rewrite bind_dbCall.
  destruct (rejects (settle w)); [reflexivity|].
  unfold bind at 1, get_world, ret. rewrite !db_settle.
  destruct (list_find _ _) as [[i kd]|]; [reflexivity|]. simpl.
  unfold bind at 1, Store_create. rewrite bind_dbCall.
  destruct (rejects (settle (settle w))); [reflexivity|].
  unfold bind, fresh_id, new_Date, modify, ret, revalidatePath, created.
  simpl. by rewrite !nextId_settle, !clock_settle, !db_settle,
                    !revalidated_settle.
Qed.

Lemma findOne_finds (sid : jsstring) (m : gmap N Store) k s :
  m !! k = Some s → storeId s = sid →
  is_Some (list_find (fun kd => storeId (snd kd) = sid) (map_to_list m)).
Proof.
  intros Hk Hs.
  destruct (list_find _ _) as [x|] eqn:E; [by eexists|].
  apply list_find_None in E.
  rewrite Forall_forall in E.
  destruct (E (k, s)); [|exact Hs].
  by apply elem_of_map_to_list.
Qed.

(** C3. An input that the schema accepts and whose validated storeId
    is the storeId of a stored document makes [createStore] return a
    failure and leaves the database as it was; the error is the
    conflict message when the database answers, and the general message
    when a database call rejected first. An input that the schema
    rejects is refused with the general message, whether its storeId is
    stored or not: the input is validated before the storeId is looked
    up; the database is as it was. *)
Theorem createStore_duplicate (w : World) (data : IStoreInput) :
  (∀ v k s,
     StoreInputSchema_parse data = inr v →
     stores (db w) !! k = Some s →
     storeId s = i_storeId v →
     ∃ r w',
       createStore StoreInputSchema_parse data w = (Normal r, w')
       ∧ success r = false
       ∧ payload r = None
       ∧ db w' = db w
       ∧ nextId w' = nextId w
       ∧ (error r = Some Msg.storeIdTaken
          ∨ error r = Some Msg.storeCreateFailed ∧ faults w ≠ [])
       ∧ (rejects w = false → rejects (settle w) = false →
          error r = Some Msg.storeIdTaken)
       ∧ (rejects w = true ∨ rejects (settle w) = true →
          error r = Some Msg.storeCreateFailed)
       ∧ (faults w = [] → error r = Some Msg.storeIdTaken ∧ w' = w))
  ∧ (∀ issues,
       StoreInputSchema_parse data = inl issues →
       createStore StoreInputSchema_parse data w
       = (Normal (fail_error Msg.storeCreateFailed), settle w)
       ∧ db (settle w) = db w
       ∧ nextId (settle w) = nextId w
       ∧ (faults w = [] → settle w = w)).
Proof.
  split.
  - intros v k s Hv Hk Hs. rewrite createStore_eq, Hv. cbv zeta.
    destruct (findOne_finds (i_storeId v) _ k s Hk Hs) as [x ->].
    destruct (rejects w) eqn:R1.
    { eexists _, _. split; [reflexivity|].
      rewrite db_settle, nextId_settle. split_and!; try done.
      - right. split; [reflexivity|]. intros Hf.
        by rewrite (healthy_rejects w Hf) in R1.
      - intros Hf. by rewrite (healthy_rejects w Hf) in R1. }
    destruct (rejects (settle w)) eqn:R2.
    { eexists _, _. split; [reflexivity|].
      rewrite !db_settle, !nextId_settle. split_and!; try done.
      - right. split; [reflexivity|]. intros Hf.
        by rewrite (healthy_settle w Hf), (healthy_rejects w Hf) in R2.
      - intros Hf.
        by rewrite (healthy_settle w Hf), (healthy_rejects w Hf) in R2. }
    eexists _, _. split; [reflexivity|].
    rewrite !db_settle, !nextId_settle. split_and!; try done.
    + by left.
    + by intros [|].
    + intros Hf. split; [reflexivity|]. by rewrite !(healthy_settle w Hf).
  - intros issues Hv. rewrite createStore_eq, Hv. cbv zeta.
    split; [by destruct (rejects w)|].
    split; [apply db_settle|]. split; [apply nextId_settle|].
    apply healthy_settle.
Qed.

Lemma db_updated deleted k w0 w :
  db (updated deleted k w0 w)
  = set_comments (alter (setDeleted deleted (clock w0)) k (comments (db w0)))
      (db w0).
Proof. reflexivity. Qed.

Lemma sameContent_setDeleted deleted t c :
  sameContent c (setDeleted deleted t c).
Proof. by repeat split. Qed.

Lemma deleteComment_success id w r w1 :
  deleteComment id w = (Normal r, w1) → success r = true →
  ∃ k c, castObjectId id = Some k
         ∧ comments (db w) !! k = Some c
         ∧ r = ok_with (Some Msg.deleted) None
         ∧ w1 = updated true k w (settle (settle (settle w))).
Proof.
  rewrite deleteComment_eq. cbv zeta.
  destruct (rejects w); [by intros [= <- _]|].
  destruct (truthy id); simpl; [|by intros [= <- _]].
  destruct (rejects (settle w)); [by intros [= <- _]|].
  destruct (castObjectId id) as [k|] eqn:Ek; [|by intros [= <- _]].
  destruct (comments (db w) !! k) as [c|] eqn:Ec; [|by intros [= <- _]].
  destruct (rejects _); [by intros [= <- _]|].
  intros [= <- <-] _. by exists k, c.
Qed.

Lemma restoreComment_success id w r w1 :
  restoreComment id w = (Normal r, w1) → success r = true →
  ∃ k c, castObjectId id = Some k
         ∧ comments (db w) !! k = Some c
         ∧ r = ok_with (Some Msg.restored) None
         ∧ w1 = updated false k w (settle (settle (settle w))).
Proof.
  rewrite restoreComment_eq. cbv zeta.
  destruct (rejects w); [by intros [= <- _]|].
  destruct (truthy id); simpl; [|by intros [= <- _]].
  destruct (rejects (settle w)); [by intros [= <- _]|].
  destruct (castObjectId id) as [k|] eqn:Ek; [|by intros [= <- _]].
  destruct (comments (db w) !! k) as [c|] eqn:Ec; [|by intros [= <- _]].
  destruct (rejects _); [by intros [= <- _]|].
  intros [= <- <-] _. by exists k, c.
Qed.

Lemma castObjectId_nonempty id k :
  castObjectId id = Some k → truthy id = true.
Proof. by destruct id. Qed.

Lemma deleteComment_healthy id k c w :
  faults w = [] → castObjectId id = Some k → comments (db w) !! k = Some c →
  deleteComment id w
  = (Normal (ok_with (Some Msg.deleted) None), updated true k w w).
Proof.
  intros Hf Hk Hc. rewrite deleteComment_eq. cbv zeta.
  by rewrite !(healthy_settle w Hf), (healthy_rejects w Hf),
       (castObjectId_nonempty id k Hk), Hk, Hc.
Qed.

Lemma restoreComment_healthy id k c w :
  faults w = [] → castObjectId id = Some k → comments (db w) !! k = Some c →
  restoreComment id w
  = (Normal (ok_with (Some Msg.restored) None), updated false k w w).
Proof.
  intros Hf Hk Hc. rewrite restoreComment_eq. cbv zeta.
  by rewrite !(healthy_settle w Hf), (healthy_rejects w Hf),
       (castObjectId_nonempty id k Hk), Hk, Hc.
Qed.

(** C4. A soft delete of a stored comment followed by its restore, both
    successful, leave the comment with the content it had, not deleted,
    and with the time of the restore as modification time; after the
    delete it is marked deleted with the time of the delete. The comment
    stays in the collection, the other comments, the stores and the
    posts are as before, and each call invalidates the admin pages. *)
Theorem delete_then_restore (w w1 w2 w3 : World) (id : jsstring) (k : N)
    (c : Comment) (r1 r2 : Result unit) :
  castObjectId id = Some k →
  comments (db w) !! k = Some c →
  deleteComment id w = (Normal r1, w1) → success r1 = true →
  db w2 = db w1 →
  restoreComment id w2 = (Normal r2, w3) → success r2 = true →
  (∃ c1, comments (db w1) !! k = Some c1
         ∧ sameContent c c1 ∧ isDeleted c1 = true
         ∧ c_updatedAt c1 = clock w)
  ∧ (∃ c3, comments (db w3) !! k = Some c3
           ∧ sameContent c c3 ∧ isDeleted c3 = false
           ∧ c_updatedAt c3 = clock w2)
  ∧ dom (comments (db w3)) = dom (comments (db w))
  ∧ (∀ j, j ≠ k → comments (db w3) !! j = comments (db w) !! j)
  ∧ stores (db w3) = stores (db w)
  ∧ posts (db w3) = posts (db w)
  ∧ js "/admin" ∈ revalidated w1
  ∧ js "/admin" ∈ revalidated w3.
Proof.
  intros Hk Hc Hdel Hok1 Hdb Hres Hok2.
  apply deleteComment_success in Hdel as (k1 & c1 & Hk1 & _ & _ & ->);
    [|exact Hok1].
  apply restoreComment_success in Hres as (k2 & c2 & Hk2 & _ & _ & ->);
    [|exact Hok2].
  assert (k1 = k) as -> by congruence. assert (k2 = k) as -> by congruence.
  rewrite !db_updated, Hdb, db_updated. cbn [comments stores posts set_comments].
  split_and!.
  - exists (setDeleted true (clock w) c).
    rewrite lookup_alter_eq, Hc.
    split; [reflexivity|]. by split; [apply sameContent_setDeleted|].
  - exists (setDeleted false (clock w2) (setDeleted true (clock w) c)).
    rewrite !lookup_alter_eq, Hc.
    split; [reflexivity|]. by split.
  - by rewrite !dom_alter_L.
  - intros j Hj. by rewrite !lookup_alter_ne.
  - reflexivity.
  - reflexivity.
  - unfold updated. cbn [revalidated set_revalidated].
    apply elem_of_app. right. by left.
  - unfold updated. cbn [revalidated set_revalidated].
    apply elem_of_app. right. by left.
Qed.

(** C9. With a working database, [deleteComment] on a stored comment
    succeeds and leaves it marked deleted, and [restoreComment] succeeds
    and leaves it not deleted, whatever the flag was before: the content
    is kept, the modification time is the time of the call, and the
    other comments are untouched. On a comment that is already in the
    target state only the modification time changes. *)
Theorem flag_updates_idempotent (w : World) (id : jsstring) (k : N)
    (c : Comment) :
  faults w = [] →
  castObjectId id = Some k →
  comments (db w) !! k = Some c →
  (∃ w', deleteComment id w
         = (Normal (ok_with (Some Msg.deleted) None), w')
         ∧ comments (db w') !! k = Some (setDeleted true (clock w) c)
         ∧ (∀ j, j ≠ k → comments (db w') !! j = comments (db w) !! j)
         ∧ (isDeleted c = true →
            setDeleted true (clock w) c = touch (clock w) c))
  ∧ (∃ w', restoreComment id w
           = (Normal (ok_with (Some Msg.restored) None), w')
           ∧ comments (db w') !! k = Some (setDeleted false (clock w) c)
           ∧ (∀ j, j ≠ k → comments (db w') !! j = comments (db w) !! j)
           ∧ (isDeleted c = false →
              setDeleted false (clock w) c = touch (clock w) c))
  ∧ sameContent c (setDeleted true (clock w) c)
  ∧ sameContent c (setDeleted false (clock w) c)
  ∧ isDeleted (setDeleted true (clock w) c) = true
  ∧ isDeleted (setDeleted false (clock w) c) = false.
Proof.
  intros Hf Hk Hc. split_and!.
  - eexists. split; [by eapply deleteComment_healthy|].
    rewrite db_updated. cbn [comments set_comments].
    rewrite lookup_alter_eq, Hc. split; [reflexivity|].
    split; [intros j Hj; by rewrite lookup_alter_ne|].
    intros E. unfold touch. by rewrite E.
  - eexists. split; [by eapply restoreComment_healthy|].
    rewrite db_updated. cbn [comments set_comments].
    rewrite lookup_alter_eq, Hc. split; [reflexivity|].
    split; [intros j Hj; by rewrite lookup_alter_ne|].
    intros E. unfold touch. by rewrite E.
  - apply sameContent_setDeleted.
  - apply sameContent_setDeleted.
  - reflexivity.
  - reflexivity.
Qed.

End StorageFacts.

(** C3, the rejected input. The storeId "S1" of the input is stored,
    but the schema rejects the input, which has no name: the error is
    the general one, not the conflict message. The error is the general
    one as well for an input that the schema accepts, with the same
    storeId, when the database does not answer. *)
Lemma createStore_rejected_duplicate :
  Server.stores (Server.db Sample.oneStore) !! 1%N = Some Sample.gangnam
  ∧ Server.storeId Sample.gangnam = Server.i_storeId Sample.namelessInput
  ∧ Server.createStore Sample.StoreSchema Sample.namelessInput Sample.oneStore
    = (Server.Normal (Server.fail_error Server.Msg.storeCreateFailed),
       Sample.oneStore)
  ∧ Server.storeId Sample.gangnam = Server.i_storeId Sample.gangnamInput
  ∧ Server.createStore Sample.StoreSchema Sample.gangnamInput
      (Server.set_faults [true] Sample.oneStore)
    = (Server.Normal (Server.fail_error Server.Msg.storeCreateFailed),
       Sample.oneStore)
  ∧ bool_decide (Server.Msg.storeCreateFailed = Server.Msg.storeIdTaken)
    = false.
Proof. vm_compute. repeat split. Qed.

Lemma createStore_duplicate_witness :
  ∃ r w',
    Server.createStore Sample.StoreSchema Sample.gangnamInput Sample.oneStore
    = (Server.Normal r, w')
    ∧ Server.success r = false
    ∧ Server.error r = Some Server.Msg.storeIdTaken
    ∧ Server.db w' = Server.db Sample.oneStore.
Proof.
  destruct (createStore_duplicate Sample.StoreSchema Sample.oneStore
              Sample.gangnamInput) as (H & _).
  destruct (H Sample.gangnamInput 1%N Sample.gangnam
              ltac:(vm_compute; reflexivity) ltac:(vm_compute; reflexivity)
              ltac:(vm_compute; reflexivity))
    as (r & w' & Hrun & Hfail & _ & Hdb & _ & _ & _ & _ & Hmsg).
  exists r, w'. destruct (Hmsg eq_refl) as [He _]. by split_and!.
Defined.

Lemma delete_then_restore_witness :
  ∃ c3,
    Server.comments
      (Server.db
         (Server.updated false 1%N
            (Server.set_clock 2000
               (Server.updated true 1%N Sample.world23 Sample.world23))
            (Server.set_clock 2000
               (Server.updated true 1%N Sample.world23 Sample.world23))))
      !! 1%N = Some c3
    ∧ Server.sameContent (Sample.comment 1) c3
    ∧ Server.isDeleted c3 = false
    ∧ Server.c_updatedAt c3 = 2000.
Proof.
  pose (w1 := Server.updated true 1%N Sample.world23 Sample.world23).
  pose (w2 := Server.set_clock 2000 w1).
  assert (Hk : Server.castObjectId Sample.id1 = Some 1%N)
    by (vm_compute; reflexivity).
  assert (Hc : Server.comments (Server.db Sample.world23) !! 1%N
               = Some (Sample.comment 1)) by (vm_compute; reflexivity).
  assert (Hc2 : Server.comments (Server.db w2) !! 1%N
                = Some (Server.setDeleted true 1000 (Sample.comment 1)))
    by (vm_compute; reflexivity).
  destruct (delete_then_restore Sample.world23 w1 w2
              (Server.updated false 1%N w2 w2) Sample.id1 1%N
              (Sample.comment 1) _ _ Hk Hc
              (deleteComment_healthy Sample.id1 1%N _ Sample.world23
                 eq_refl Hk Hc)
              eq_refl eq_refl
              (restoreComment_healthy Sample.id1 1%N _ w2 eq_refl Hk Hc2)
              eq_refl) as (_ & H & _).
  exact H.
Defined.

Lemma flag_updates_idempotent_witness :
  ∃ w', Server.deleteComment Sample.id1 Sample.world23
        = (Server.Normal (Server.ok_with (Some Server.Msg.deleted) None), w')
        ∧ Server.comments (Server.db w') !! 1%N
          = Some (Server.setDeleted true 1000 (Sample.comment 1)).
Proof.
  destruct (flag_updates_idempotent Sample.world23 Sample.id1 1%N
              (Sample.comment 1) eq_refl ltac:(vm_compute; reflexivity)
              ltac:(vm_compute; reflexivity))
    as ((w' & Hrun & Hc & _) & _).
  exists w'. split; [exact Hrun|exact Hc].
Defined.

(** ** No exception leaves an action *)

Section BoundaryFacts.

Import Server.

Variable RegExp : jsstring → option (jsstring → bool).
Variable unknown : Type.
Variable CommentInputSchema_parse : unknown → list ZodIssue + CommentInput.
Variable StoreInputSchema_parse : IStoreInput → list ZodIssue + IStoreInput.

Lemma yields_ret {A} (a : A) (P : A → Prop) : P a → yields (ret a) P.
Proof. intros Ha w a' w' [= <- _]. exact Ha. Qed.

Lemma yields_throw {A} (e : exn) (P : A → Prop) : yields (throw e) P.
Proof. intros w a w' [=]. Qed.

Lemma yields_bind {A B} (m : Async A) (k : A → Async B) (P : B → Prop) :
  (∀ a, yields (k a) P) → yields (bind m k) P.
Proof.
  intros Hk w b w'. unfold bind.
  destruct (m w) as [[a|e] w1]; [apply Hk|intros [=]].
Qed.

Lemma try_catch_settles {P} (body : Async (Result P))
    (handler : exn → Async (Result P)) (w : World) :
  yields body wellFormed →
  (∀ e w0, ∃ r w', handler e w0 = (Normal r, w') ∧ wellFormed r) →
  settles (try_catch body handler) w.
Proof.
  intros Hbody Hhandler. unfold settles, try_catch.
  destruct (body w) as [[r|e] w1] eqn:E.
  - exists r, w1. split; [reflexivity|]. by eapply Hbody.
  - apply Hhandler.
Qed.

Lemma wellFormed_ok {P} (m : option jsstring) (p : option P) :
  wellFormed (ok_with m p).
Proof. intros [=]. Qed.

Lemma wellFormed_fail_error {P} (e : jsstring) :
  wellFormed (fail_error (P := P) e).
Proof. intros _. left. by eexists. Qed.

Lemma wellFormed_fail_message {P} (m : jsstring) issues :
  wellFormed (fail_message (P := P) m issues).
Proof. intros _. right. by eexists. Qed.

Ltac returns_well :=
  repeat first
    [ apply yields_ret;
      first [apply wellFormed_ok | apply wellFormed_fail_error
            | apply wellFormed_fail_message]
    | apply yields_throw
    | apply yields_bind; intros ?
    | match goal with
      | |- yields (if ?b then _ else _) _ => destruct b
      | |- yields (match ?x with _ => _ end) _ => destruct x
      end ].

Ltac handler_returns :=
  intros e w0; destruct e; eexists _, _; (split; [reflexivity|]);
  first [apply wellFormed_fail_error | apply wellFormed_fail_message].

Lemma flag_actions_decline (id : jsstring) (w : World) :
  id = [] ∨ castObjectId id = None
  ∨ (∃ k, castObjectId id = Some k ∧ comments (db w) !! k = None) →
  declines (deleteComment id) w ∧ declines (restoreComment id) w.
Proof.
  intros Hid. unfold declines.
  rewrite deleteComment_eq, restoreComment_eq. cbv zeta.
  destruct (rejects w); [by split; eexists _, _|].
  destruct Hid as [->|Hid]; [by split; eexists _, _|].
  destruct (truthy id); simpl; [|by split; eexists _, _].
  destruct (rejects (settle w)); [by split; eexists _, _|].
  destruct Hid as [->|(k & -> & ->)]; by split; eexists _, _.
Qed.

(** C8. Every server action returns a result: none of them throws,
    whatever the input, the schemas, the database's regular expressions
    and the fate of the database calls; a failure result carries an
    error or a message. [deleteComment] and [restoreComment] return a
    failure with an error text when the id is empty, is no ObjectId, or
    names no stored comment. *)
Theorem actions_never_throw (w : World) :
  (∀ data, settles (createComment unknown CommentInputSchema_parse data) w)
  ∧ settles (getAllComments RegExp) w
  ∧ (∀ page limit q, settles (getCommentsPaginated RegExp page limit q) w)
  ∧ (∀ id, settles (deleteComment id) w)
  ∧ (∀ id, settles (restoreComment id) w)
  ∧ (∀ data, settles (createStore StoreInputSchema_parse data) w)
  ∧ settles (getAllStores RegExp) w
  ∧ (∀ page limit q, settles (getAllStoresPage RegExp page limit q) w)
  ∧ (∀ id,
       id = [] ∨ castObjectId id = None
       ∨ (∃ k, castObjectId id = Some k ∧ comments (db w) !! k = None) →
       declines (deleteComment id) w ∧ declines (restoreComment id) w).
Proof.
  split_and!; intros;
    try (apply try_catch_settles; [returns_well|handler_returns]).
  by apply flag_actions_decline.
Qed.

End BoundaryFacts.

(** ** Search *)

Section EngineFacts.

Import Pattern LiteralDot.

Lemma parse_plain (p : jsstring) :
  plain p = true → parse p = Some (map Lit p).
Proof.
  induction p as [|u p IH]; [reflexivity|].
  unfold plain. cbn [forallb]. intros H.
  apply andb_true_iff in H as [Hu Hp].
  cbn [parse map]. rewrite (IH Hp).
  assert (u ≠ 46%N) as H46
    by (intros ->; vm_compute in Hu; discriminate).
  assert (u ≠ 92%N) as H92
    by (intros ->; vm_compute in Hu; discriminate).
  destruct (N.eqb_spec u 46); [done|].
  destruct (N.eqb_spec u 92); [done|].
  apply negb_true_iff in Hu. by rewrite Hu.
Qed.

Lemma matchesAt_literal (s p : jsstring) :
  matchesAt s (map Lit p) = startsWith (toLowerCase s) (toLowerCase p).
Proof.
  revert s. induction p as [|c p IH]; intros s; [by destruct s|].
  destruct s as [|u s]; [reflexivity|].
  cbn [map matchesAt atomMatch toLowerCase startsWith].
  rewrite IH. by rewrite (N.eqb_sym (lowerUnit u)).
Qed.

Lemma search_literal (s p : jsstring) :
  search s (map Lit p) = containsCI toLowerCase s p.
Proof.
  unfold containsCI. induction s as [|u s IH].
  - cbn [search]. by rewrite matchesAt_literal.
  - cbn [search]. rewrite IH, matchesAt_literal. reflexivity.
Qed.

Lemma LiteralDot_readsLiterally (p : jsstring) :
  plain p = true → Server.readsLiterally RegExp toLowerCase p.
Proof.
  intros Hp. unfold Server.readsLiterally, RegExp. rewrite (parse_plain p Hp).
  eexists. split; [reflexivity|]. intros x. apply search_literal.
Qed.

End EngineFacts.

Section SearchFacts.

Import Pattern SearchSpec Server.

Variable RegExp : jsstring → option (jsstring → bool).
Variable fold : jsstring → jsstring.

Lemma truthy_nonempty (s : jsstring) : s ≠ [] → truthy s = true.
Proof. by destruct s. Qed.

Lemma storeSearch_compiles (s : jsstring) :
  s ≠ [] → readsLiterally RegExp fold s →
  ∃ test, compileFilter RegExp (storeSearch (Some s)) = Some test
          ∧ ∀ d, test d = storeContains fold s d.
Proof.
  intros Hs (t & Et & Ht).
  unfold storeSearch. rewrite (truthy_nonempty s Hs).
  cbn [compileFilter compileOr]. unfold compileRegex. cbn [pattern values].
  rewrite Et. eexists. split; [reflexivity|].
  intros d. cbn [existsb]. unfold storeContains.
  rewrite !Ht, !orb_false_r, <- !orb_assoc. do 4 f_equal.
  induction (tags d) as [|x l IH]; [reflexivity|].
  cbn [existsb]. by rewrite Ht, IH.
Qed.

Lemma commentSearch_compiles (s : jsstring) :
  s ≠ [] → readsLiterally RegExp fold s →
  ∃ test, compileFilter RegExp (commentSearch (Some s)) = Some test
          ∧ ∀ d, test d = commentContains fold s d.
Proof.
  intros Hs (t & Et & Ht).
  unfold commentSearch. rewrite (truthy_nonempty s Hs).
  cbn [compileFilter compileOr]. unfold compileRegex. cbn [pattern values].
  rewrite Et. eexists. split; [reflexivity|].
  intros d. cbn [existsb]. unfold commentContains.
  rewrite !Ht, !orb_false_r, <- !orb_assoc. do 2 f_equal.
  destruct (email d) as [e|]; cbn [optional_values existsb];
    [by rewrite Ht, orb_false_r|reflexivity].
Qed.

Lemma matching_ext {D} (M : Model D) (test hit : D → bool) (d : Database) :
  (∀ x, test x = hit x) →
  matching M test d
  = filter (fun kd => hit (snd kd) = true) (map_to_list (collection M d)).
Proof.
  intros H. unfold matching. apply list_filter_iff.
  intros kd. by rewrite H.
Qed.

#[local] Instance newerFirst_total {D} (M : Model D) : Total (newerFirst M).
Proof. intros x y. unfold newerFirst. lia. Qed.

#[local] Instance newerFirst_trans {D} (M : Model D) :
  Transitive (newerFirst M).
Proof. intros x y z. unfold newerFirst. lia. Qed.

Lemma sortNewestFirst_sorted {D} (M : Model D) (l : list (N * D)) :
  StronglySorted (newerFirst M) (sortNewestFirst M l).
Proof. apply StronglySorted_merge_sort; apply _. Qed.

Lemma window_sorted {A} (R : relation A) (limit : Z) (n : nat) (l : list A) :
  StronglySorted R l → StronglySorted R (applyLimit limit (drop n l)).
Proof.
  intros Hl.
  assert (Hd : StronglySorted R (drop n l)).
  { rewrite <- (take_drop n l) in Hl. by apply StronglySorted_app_1_r in Hl. }
  unfold applyLimit. destruct (limit =? 0); [exact Hd|].
  rewrite <- (take_drop (Z.abs_nat limit) (drop n l)) in Hd.
  by apply StronglySorted_app_1_l in Hd.
Qed.

Lemma window_subset {A} (limit : Z) (n : nat) (l : list A) (x : A) :
  x ∈ applyLimit limit (drop n l) → x ∈ l.
Proof.
  intros Hx.
  assert (Hs : applyLimit limit (drop n l) `sublist_of` l).
  { unfold applyLimit. destruct (limit =? 0); [apply sublist_drop|].
    etrans; [apply sublist_take|apply sublist_drop]. }
  by eapply elem_of_sublist.
Qed.

Lemma pageOf_matching {D} (M : Model D) (test hit : D → bool) d page limit :
  (∀ x, test x = hit x) →
  pageOf M hit d page limit
    (applyLimit limit (drop (Z.to_nat ((page - 1) * limit))
                         (sortNewestFirst M (matching M test d)))).
Proof.
  intros H. exists (sortNewestFirst M (matching M test d)). split_and!.
  - rewrite <- (matching_ext M test hit d H).
    apply merge_sort_Permutation.
  - apply sortNewestFirst_sorted.
  - reflexivity.
Qed.

Lemma pageOf_sound {D} (M : Model D) (hit : D → bool) d page limit l :
  pageOf M hit d page limit l →
  StronglySorted (newerFirst M) l
  ∧ ∀ kd, kd ∈ l →
          collection M d !! fst kd = Some (snd kd) ∧ hit (snd kd) = true.
Proof.
  intros (sorted & Hperm & Hsorted & ->). split.
  - by apply window_sorted.
  - intros kd Hkd. apply window_subset in Hkd.
    rewrite Hperm in Hkd. apply list_elem_of_filter in Hkd as [Hhit Hin].
    split; [|exact Hhit]. apply elem_of_map_to_list. by destruct kd.
Qed.

(** C7. With a working database, a non-empty search string without
    metacharacters, which the database's regular expressions read as a
    text (accepted as a pattern, and matched where the text occurs, case
    ignored by the database's case folding), makes each listing succeed
    with [totalCount] the number of records that contain the string,
    case ignored, in one of the search fields, and with the requested
    page of exactly those records, newest first: every record returned
    is stored and contains the string. Nothing is assumed of the
    expressions for other strings, nor of the case folding. *)
Theorem search_literal_pattern (w : World) (page limit : Z) (s : jsstring) :
  faults w = [] → 1 ≤ page → 1 ≤ limit → s ≠ [] → plain s = true →
  readsLiterally RegExp fold s →
  (∃ pg,
     getAllStoresPage RegExp page limit (Some s) w
     = (Normal (ok_with None (Some pg)), w)
     ∧ totalCount (pagination pg)
       = Z.of_nat (length (filter
                             (fun kd => storeContains fold s (snd kd) = true)
                             (map_to_list (stores (db w)))))
     ∧ pageOf StoreModel (storeContains fold s) (db w) page limit (records pg)
     ∧ StronglySorted (newerFirst StoreModel) (records pg)
     ∧ ∀ kd, kd ∈ records pg →
             stores (db w) !! fst kd = Some (snd kd)
             ∧ storeContains fold s (snd kd) = true)
  ∧ (∃ pg found,
       getCommentsPaginated RegExp page limit (Some s) w
       = (Normal (ok_with None (Some pg)), w)
       ∧ totalCount (pagination pg)
         = Z.of_nat (length (filter
                               (fun kd =>
                                  commentContains fold s (snd kd) = true)
                               (map_to_list (comments (db w)))))
       ∧ records pg = map (populate (db w)) found
       ∧ pageOf Comments (commentContains fold s) (db w) page limit found
       ∧ StronglySorted (newerFirst Comments) found
       ∧ ∀ kd, kd ∈ found →
               comments (db w) !! fst kd = Some (snd kd)
               ∧ commentContains fold s (snd kd) = true).
Proof.
  intros Hf Hp Hl Hs _ Hlit. split.
  - destruct (storeSearch_compiles s Hs Hlit) as (test & Ec & Ht).
    eexists. split; [by apply stores_listing_healthy|].
    cbn [records pagination paginationOf totalCount].
    pose proof (pageOf_matching StoreModel test (storeContains fold s) (db w)
                  page limit Ht) as Hpage.
    split; [by rewrite (matching_ext StoreModel test _ _ Ht)|].
    split; [exact Hpage|]. exact (pageOf_sound _ _ _ _ _ _ Hpage).
  - destruct (commentSearch_compiles s Hs Hlit) as (test & Ec & Ht).
    eexists _, _. split; [by apply comments_listing_healthy|].
    cbn [records pagination paginationOf totalCount].
    pose proof (pageOf_matching Comments test (commentContains fold s) (db w)
                  page limit Ht) as Hpage.
    split; [by rewrite (matching_ext Comments test _ _ Ht)|].
    split; [reflexivity|].
    split; [exact Hpage|]. exact (pageOf_sound _ _ _ _ _ _ Hpage).
Qed.

End SearchFacts.

(** C7, the dot. The pattern "." is an expression that matches any
    character: the listing returns a store none of whose search fields
    contains a dot, and counts it. The pattern "(" is no expression:
    the listing fails. *)
Lemma regex_dot_matches_any_store :
  Server.getAllStoresPage LiteralDot.RegExp 1 10 (Some (js "."))
    Sample.oneStore
  = (Server.Normal
       (Server.ok_with None
          (Some {| Server.records := [(1%N, Sample.gangnam)];
                   Server.pagination := Server.paginationOf 1 10 1 |})),
     Sample.oneStore)
  ∧ SearchSpec.storeContains toLowerCase (js ".") Sample.gangnam = false
  ∧ Server.getAllStoresPage LiteralDot.RegExp 1 10 (Some (js "("))
      Sample.oneStore
    = (Server.Normal (Server.fail_error Server.Msg.storePageFailed),
       Sample.oneStore).
Proof. vm_compute. repeat split. Qed.

Lemma search_literal_pattern_witness :
  ∃ pg,
    Server.getAllStoresPage LiteralDot.RegExp 1 10 (Some (js "gang"))
      Sample.oneStore
    = (Server.Normal (Server.ok_with None (Some pg)), Sample.oneStore)
    ∧ Server.totalCount (Server.pagination pg) = 1.
Proof.
  destruct (search_literal_pattern LiteralDot.RegExp toLowerCase
              Sample.oneStore 1 10 (js "gang")
              eq_refl ltac:(lia) ltac:(lia)
              ltac:(vm_compute; discriminate) ltac:(vm_compute; reflexivity)
              (LiteralDot_readsLiterally (js "gang")
                 ltac:(vm_compute; reflexivity)))
    as ((pg & Hrun & Hcount & _) & _).
  exists pg. split; [exact Hrun|]. rewrite Hcount.
  vm_compute. reflexivity.
Defined.


(** * Further properties of the server actions *)

Section CreateFacts.

Import Server Effects.

Variable unknown : Type.
Variable CommentInputSchema_parse : unknown → list ZodIssue + CommentInput.
Variable StoreInputSchema_parse : IStoreInput → list ZodIssue + IStoreInput.

Lemma createComment_eq data w :
  createComment unknown CommentInputSchema_parse data w
  = match CommentInputSchema_parse data with
    | inl issues =>
      (Normal (fail_message Msg.commentInvalid (Some issues)), w)
    | inr v =>
      let w1 := settle w in
      let w2 := settle w1 in
      let failed := Normal (fail_message Msg.commentCreateFailed None) in
      if rejects w then (failed, w1)
      else if rejects w1 then (failed, w2)
      else match castObjectId (in_postId v) with
           | None => (failed, w2)
           | Some pid =>
             (Normal (ok_with (Some Msg.commentCreated)
                (Some {| d_id := ObjectId_toString (nextId w);
                         d_postId := pid;
                         d_author := in_author v;
                         d_content := in_content v;
                         d_createdAt := clock w |})),
              commented v pid w w2)
           end
    end.
Proof.
  unfold createComment, try_catch.
  destruct (CommentInputSchema_parse data) as [issues|v]; [reflexivity|].
  unfold zod, bind at 1, ret, connectToDatabase. rewrite bind_dbCall.
  cbv zeta. destruct (rejects w); [reflexivity|].
  unfold bind at 1, Comments_create. rewrite bind_dbCall.
  destruct (rejects (settle w)); [reflexivity|].
  destruct (castObjectId (in_postId v)) as [pid|]; [|reflexivity].
  unfold bind, fresh_id, new_Date, modify, ret, revalidatePath, commented,
    commentDocument.
  simpl. by rewrite !nextId_settle, !clock_settle, !db_settle,
                    !revalidated_settle.
Qed.


Lemma faults_settle w : faults (settle w) = tail (faults w).
Proof. unfold settle. by destruct (faults w) eqn:E; [rewrite E|]. Qed.

Lemma untouched_refl w : untouched w w.
Proof. by repeat split. Qed.

Lemma untouched_settle w : untouched w (settle w).
Proof.
  unfold untouched.
  by rewrite db_settle, nextId_settle, revalidated_settle, clock_settle.
Qed.

Lemma untouched_settle_r w w' : untouched w w' → untouched w (settle w').
Proof.
  unfold untouched.
  rewrite db_settle, nextId_settle, revalidated_settle, clock_settle. tauto.
Qed.

(** Hexadecimal ids: printing and casting. *)
Lemma hexDigit_hexChar (d : N) : (d < 16)%N → hexDigit (hexChar d) = Some d.
Proof.
  intros Hd. unfold hexChar, hexDigit.
  destruct (N.ltb_spec d 10).
  - destruct (N.leb_spec 48 (48 + d)), (N.leb_spec (48 + d) 57);
      simpl; try lia. f_equal. lia.
  - destruct (N.leb_spec 48 (87 + d)), (N.leb_spec (87 + d) 57);
      simpl; try lia;
      destruct (N.leb_spec 97 (87 + d)), (N.leb_spec (87 + d) 102);
      simpl; try lia; f_equal; lia.
Qed.

Lemma hexValue_snoc (acc : N) (l : jsstring) (c : N) :
  hexValue acc (l ++ [c])
  = match hexValue acc l, hexDigit c with
    | Some a, Some d => Some (16 * a + d)%N
    | _, _ => None
    end.
Proof.
  revert acc. induction l as [|u l IH]; intros acc; simpl.
  - by destruct (hexDigit c).
  - destruct (hexDigit u) as [d|]; [apply IH|reflexivity].
Qed.

Lemma length_hexDigits (k : nat) (n : N) : length (hexDigits k n) = k.
Proof.
  revert n. induction k as [|k IH]; intros n; [reflexivity|].
  cbn [hexDigits]. rewrite length_app, IH. simpl. lia.
Qed.

Lemma hexValue_hexDigits (k : nat) (n acc : N) :
  hexValue acc (hexDigits k n)
  = Some (acc * 16 ^ N.of_nat k + n mod 16 ^ N.of_nat k)%N.
Proof.
  revert n. induction k as [|k IH]; intros n.
  - simpl. rewrite N.mod_1_r. f_equal. lia.
  - cbn [hexDigits]. rewrite hexValue_snoc, IH, hexDigit_hexChar
      by (apply N.mod_lt; lia).
    f_equal. rewrite Nat2N.inj_succ, N.pow_succ_r'.
    rewrite (N.Div0.mod_mul_r n 16). lia.
Qed.

Lemma castObjectId_toString (id : N) :
  (id < 16 ^ 24)%N → castObjectId (ObjectId_toString id) = Some id.
Proof.
  intros Hid. unfold castObjectId, ObjectId_toString.
  rewrite length_hexDigits, Nat.eqb_refl, hexValue_hexDigits.
  f_equal. rewrite N.mod_small by exact Hid. lia.
Qed.

Lemma createComment_healthy data v pid w :
  CommentInputSchema_parse data = inr v →
  castObjectId (in_postId v) = Some pid →
  faults w = [] →
  createComment unknown CommentInputSchema_parse data w
  = (Normal (ok_with (Some Msg.commentCreated)
       (Some {| d_id := ObjectId_toString (nextId w); d_postId := pid;
                d_author := in_author v; d_content := in_content v;
                d_createdAt := clock w |})),
     commented v pid w w).
Proof.
  intros Hv Hpid Hf. rewrite createComment_eq, Hv. cbv zeta.
  by rewrite !(healthy_settle w Hf), (healthy_rejects w Hf), Hpid.
Qed.


(** X2. The id string that [createComment] returns casts back to the id
    under which the comment is stored, so [deleteComment] on it finds
    the comment and marks it deleted. *)
Theorem created_comment_can_be_deleted (data : unknown) (v : CommentInput)
    (pid : N) (w : World) :
  CommentInputSchema_parse data = inr v →
  castObjectId (in_postId v) = Some pid →
  faults w = [] →
  (nextId w < 16 ^ 24)%N →
  ∃ r w' cd w'',
    createComment unknown CommentInputSchema_parse data w = (Normal r, w')
    ∧ payload r = Some cd
    ∧ castObjectId (d_id cd) = Some (nextId w)
    ∧ deleteComment (d_id cd) w'
      = (Normal (ok_with (Some Msg.deleted) None), w'')
    ∧ comments (db w'') !! nextId w
      = Some (setDeleted true (clock w) (commentDocument v pid (clock w))).
Proof.
  intros Hv Hpid Hf Hid. eexists _, _, _, _.
  split; [by apply createComment_healthy|]. cbn [payload ok_with d_id].
  split; [reflexivity|].
  pose proof (castObjectId_toString (nextId w) Hid) as Hcast.
  split; [exact Hcast|].
  assert (Hc : comments (db (commented v pid w w)) !! nextId w
               = Some (commentDocument v pid (clock w)))
    by apply lookup_insert_eq.
  split.
  - by apply (deleteComment_healthy _ (nextId w)
                (commentDocument v pid (clock w))).
  - rewrite db_updated. cbn [comments set_comments].
    by rewrite lookup_alter_eq, Hc.
Qed.

(** X3. Input that a schema rejects. [createComment] validates before it
    connects: it returns the schema's issues with the message for
    invalid input and leaves the world exactly as it was, whatever the
    state of the database. [createStore] connects first: the attempt
    uses up a database call and the result is the general failure,
    without the issues; nothing is stored. *)
Theorem invalid_input_is_reported (w : World) :
  (∀ data issues,
     CommentInputSchema_parse data = inl issues →
     createComment unknown CommentInputSchema_parse data w
     = (Normal (fail_message Msg.commentInvalid (Some issues)), w))
  ∧ (∀ data issues,
       StoreInputSchema_parse data = inl issues →
       createStore StoreInputSchema_parse data w
       = (Normal (fail_error Msg.storeCreateFailed), settle w)
       ∧ untouched w (settle w)
       ∧ faults (settle w) = tail (faults w)).
Proof.
  split.
  - intros data issues E. by rewrite createComment_eq, E.
  - intros data issues E. rewrite createStore_eq, E. cbv zeta.
    split; [by destruct (rejects w)|].
    split; [apply untouched_settle|apply faults_settle].
Qed.

End CreateFacts.


Section StoreFacts.

Import Server Effects.

Variable StoreInputSchema_parse : IStoreInput → list ZodIssue + IStoreInput.

Lemma findOne_none (sid : jsstring) (m : gmap N Store) :
  list_find (fun kd => storeId (snd kd) = sid) (map_to_list m) = None
  ↔ ∀ k s, m !! k = Some s → storeId s ≠ sid.
Proof.
  rewrite list_find_None, Forall_forall. split.
  - intros H k s Hk. apply (H (k, s)). by apply elem_of_map_to_list.
  - intros H [k s] Hks. apply (H k s). by apply elem_of_map_to_list.
Qed.

Lemma createStore_healthy data v w :
  StoreInputSchema_parse data = inr v →
  faults w = [] →
  (∀ k s, stores (db w) !! k = Some s → storeId s ≠ i_storeId v) →
  createStore StoreInputSchema_parse data w
  = (Normal (ok_with (Some Msg.storeCreated)
               (Some (nextId w, storeDocument v (clock w)))),
     created v w w).
Proof.
  intros Hv Hf Hfresh. rewrite createStore_eq, Hv. cbv zeta.
  apply findOne_none in Hfresh.
  by rewrite !(healthy_settle w Hf), (healthy_rejects w Hf), Hfresh.
Qed.

Lemma createStore_success data w r w' :
  createStore StoreInputSchema_parse data w = (Normal r, w') →
  success r = true →
  ∃ v, StoreInputSchema_parse data = inr v
       ∧ (∀ k s, stores (db w) !! k = Some s → storeId s ≠ i_storeId v)
       ∧ w' = created v w (settle (settle (settle w))).
Proof.
  rewrite createStore_eq. cbv zeta.
  destruct (rejects w); [by intros [= <- _]|].
  destruct (StoreInputSchema_parse data) as [issues|v];
    [by intros [= <- _]|].
  destruct (rejects (settle w)); [by intros [= <- _]|].
  destruct (list_find _ _) as [x|] eqn:E; [by intros [= <- _]|].
  destruct (rejects _); [by intros [= <- _]|].
  intros [= <- <-] _. exists v. split; [reflexivity|].
  split; [by apply findOne_none|reflexivity].
Qed.

Lemma createStore_failure data w r w' :
  createStore StoreInputSchema_parse data w = (Normal r, w') →
  success r = false → untouched w w'.
Proof.
  rewrite createStore_eq. cbv zeta.
  destruct (rejects w); [intros [= <- <-] _; apply untouched_settle|].
  destruct (StoreInputSchema_parse data) as [issues|v];
    [intros [= <- <-] _; apply untouched_settle|].
  destruct (rejects (settle w));
    [intros [= <- <-] _; do 2 apply untouched_settle_r; apply untouched_refl|].
  destruct (list_find _ _) as [x|];
    [intros [= <- <-] _; do 2 apply untouched_settle_r; apply untouched_refl|].
  destruct (rejects _);
    [intros [= <- <-] _; do 3 apply untouched_settle_r; apply untouched_refl|].
  by intros [= <- <-].
Qed.

Lemma createStore_taken data v k s w :
  StoreInputSchema_parse data = inr v →
  stores (db w) !! k = Some s → storeId s = i_storeId v →
  ∃ r w', createStore StoreInputSchema_parse data w = (Normal r, w')
          ∧ success r = false
          ∧ (faults w = [] → error r = Some Msg.storeIdTaken).
Proof.
  intros Hv Hk Hs. rewrite createStore_eq, Hv. cbv zeta.
  destruct (findOne_finds (i_storeId v) _ k s Hk Hs) as [x ->].
  destruct (rejects w) eqn:R1.
  { eexists _, _. split_and!; try reflexivity.
    intros Hf. by rewrite (healthy_rejects w Hf) in R1. }
  destruct (rejects (settle w)) eqn:R2.
  { eexists _, _. split_and!; try reflexivity. intros Hf.
    by rewrite (healthy_settle w Hf), (healthy_rejects w Hf) in R2. }
  eexists _, _. by split_and!.
Qed.


(** X5. [createStore] keeps storeIds unique: if no two stored stores
    share a storeId, the same holds of the stores after any call,
    whatever its input and outcome. *)
Theorem createStore_keeps_storeIds_unique (data : IStoreInput) (w w' : World)
    (r : Result (N * Store)) :
  uniqueStoreIds (stores (db w)) →
  createStore StoreInputSchema_parse data w = (Normal r, w') →
  uniqueStoreIds (stores (db w')).
Proof.
  intros Hu Hrun. destruct (success r) eqn:Hok.
  - apply createStore_success in Hrun as (v & _ & Hfresh & ->);
      [|exact Hok].
    unfold created. cbn [db set_revalidated set_db stores set_stores].
    intros i j s t Hi Hj Hst.
    apply lookup_insert_Some in Hi as [[<- <-]|[Hni Hi]];
      apply lookup_insert_Some in Hj as [[<- <-]|[Hnj Hj]].
    + reflexivity.
    + destruct (Hfresh j t Hj). by rewrite <- Hst.
    + destruct (Hfresh i s Hi). by rewrite Hst.
    + by apply (Hu i j s t).
  - apply createStore_failure in Hrun as (-> & _); [exact Hu|exact Hok].
Qed.

(** X6. After [createStore] succeeded, the same input is refused: a
    second call on the resulting world fails, with the conflict message
    when the database answers. *)
Theorem createStore_twice_conflicts (data : IStoreInput) (w w' : World)
    (r : Result (N * Store)) :
  createStore StoreInputSchema_parse data w = (Normal r, w') →
  success r = true →
  ∃ r2 w2,
    createStore StoreInputSchema_parse data w' = (Normal r2, w2)
    ∧ success r2 = false
    ∧ db w2 = db w'
    ∧ (faults w' = [] → error r2 = Some Msg.storeIdTaken).
Proof.
  intros Hrun Hok.
  apply createStore_success in Hrun as (v & Hv & _ & ->); [|exact Hok].
  destruct (createStore_taken data v (nextId w) (storeDocument v (clock w))
              (created v w (settle (settle (settle w)))) Hv)
    as (r2 & w2 & Hrun2 & Hfail & Hmsg); [apply lookup_insert_eq|reflexivity|].
  exists r2, w2. split; [exact Hrun2|]. split; [exact Hfail|].
  split; [|exact Hmsg].
  by destruct (createStore_failure _ _ _ _ Hrun2 Hfail).
Qed.

End StoreFacts.


Section ReadFacts.

Import Server Effects.

Variable RegExp : jsstring → option (jsstring → bool).
Variable unknown : Type.
Variable CommentInputSchema_parse : unknown → list ZodIssue + CommentInput.
Variable StoreInputSchema_parse : IStoreInput → list ZodIssue + IStoreInput.

Lemma matching_everything {D} (M : Model D) (d : Database) :
  matching M (fun _ => true) d = map_to_list (collection M d).
Proof.
  unfold matching.
  induction (map_to_list (collection M d)) as [|x l IH]; [reflexivity|].
  rewrite filter_cons_True by reflexivity. by rewrite IH.
Qed.

Lemma getAllStores_eq w :
  getAllStores RegExp w
  = let failed := Normal (fail_error Msg.storeListFailed) in
    if rejects w then (failed, settle w)
    else if rejects (settle w) then (failed, settle (settle w))
    else (Normal (ok_with None
            (Some (sortNewestFirst StoreModel
                     (map_to_list (stores (db w)))))),
          settle (settle w)).
Proof.
  unfold getAllStores, try_catch, connectToDatabase.
  rewrite bind_dbCall. cbv zeta.
  destruct (rejects w); [reflexivity|].
  unfold bind. rewrite find_eq. cbn [compileFilter window_of].
  destruct (rejects (settle w)); [reflexivity|].
  by rewrite matching_everything, db_settle.
Qed.

Lemma getAllComments_eq w :
  getAllComments RegExp w
  = let failed := Normal (fail_error Msg.commentListFailed) in
    if rejects w then (failed, settle w)
    else if rejects (settle w) then (failed, settle (settle w))
    else (Normal (ok_with None
            (Some (map (populate (db w))
                     (sortNewestFirst Comments
                        (map_to_list (comments (db w))))))),
          settle (settle w)).
Proof.
  unfold getAllComments, try_catch, connectToDatabase.
  rewrite bind_dbCall. cbv zeta.
  destruct (rejects w); [reflexivity|].
  unfold bind. rewrite findPopulated_eq. cbn [compileFilter window_of].
  destruct (rejects (settle w)); [reflexivity|].
  by rewrite matching_everything, db_settle.
Qed.


(** X8. With a working database [getAllStores] returns every stored
    store exactly once, newest first, and [getAllComments] every stored
    comment, newest first, each with the title and slug of its post;
    neither depends on the regular expressions of the database. *)
Theorem getAll_lists_everything (w : World) :
  faults w = [] →
  ∃ ss cs,
    getAllStores RegExp w = (Normal (ok_with None (Some ss)), w)
    ∧ ss ≡ₚ map_to_list (stores (db w))
    ∧ StronglySorted (newerFirst StoreModel) ss
    ∧ getAllComments RegExp w
      = (Normal (ok_with None (Some (map (populate (db w)) cs))), w)
    ∧ cs ≡ₚ map_to_list (comments (db w))
    ∧ StronglySorted (newerFirst Comments) cs.
Proof.
  intros Hf. eexists _, _.
  rewrite getAllStores_eq, getAllComments_eq. cbv zeta.
  rewrite !(healthy_settle w Hf), (healthy_rejects w Hf).
  split_and!; try reflexivity;
    first [apply merge_sort_Permutation | apply sortNewestFirst_sorted].
Qed.

End ReadFacts.

Lemma getAll_lists_everything_witness :
  ∃ ss, Server.getAllStores LiteralDot.RegExp Sample.world23
        = (Server.Normal (Server.ok_with None (Some ss)), Sample.world23)
        ∧ length ss = 23%nat.
Proof.
  destruct (getAll_lists_everything LiteralDot.RegExp Sample.world23 eq_refl)
    as (ss & cs & Hrun & Hperm & _).
  exists ss. split; [exact Hrun|]. rewrite Hperm. vm_compute. reflexivity.
Defined.


Section ListingFacts.

Import Server Effects.

Variable RegExp : jsstring → option (jsstring → bool).

Lemma window_sublist {A} (limit : Z) (n : nat) (l : list A) :
  applyLimit limit (drop n l) `sublist_of` l.
Proof.
  unfold applyLimit. destruct (limit =? 0); [apply sublist_drop|].
  etrans; [apply sublist_take|apply sublist_drop].
Qed.

Lemma matching_stored {D} (M : Model D) (test : D → bool) (d : Database) kd :
  kd ∈ matching M test d → collection M d !! fst kd = Some (snd kd).
Proof.
  unfold matching. intros H. apply list_elem_of_filter in H as [_ H].
  apply elem_of_map_to_list. by destruct kd.
Qed.

Lemma matching_NoDup {D} (M : Model D) (test : D → bool) (d : Database) :
  NoDup (matching M test d).*1.
Proof.
  eapply sublist_NoDup; [apply (NoDup_fst_map_to_list (collection M d))|].
  apply fmap_sublist, sublist_filter.
Qed.

Lemma length_matching_le {D} (M : Model D) (test : D → bool) (d : Database) :
  (length (matching M test d) ≤ size (collection M d))%nat.
Proof.
  unfold matching. rewrite <- length_map_to_list. apply length_filter.
Qed.

(** What every page of a listing is like, for a page and a page size of
    at least 1. *)
Lemma page_sound {D} (M : Model D) (test : D → bool) (d : Database)
    (page limit : Z) :
  1 ≤ page → 1 ≤ limit →
  let l := applyLimit limit
             (drop (Z.to_nat ((page - 1) * limit))
                (sortNewestFirst M (matching M test d))) in
  (∀ kd, kd ∈ l → collection M d !! fst kd = Some (snd kd))
  ∧ NoDup l.*1
  ∧ Z.of_nat (length l) ≤ limit
  ∧ StronglySorted (newerFirst M) l.
Proof.
  intros Hp Hl l.
  assert (Hsub : l `sublist_of` sortNewestFirst M (matching M test d))
    by apply window_sublist.
  split_and!.
  - intros kd Hkd. apply (matching_stored M test).
    eapply elem_of_sublist in Hkd; [|exact Hsub].
    unfold sortNewestFirst in Hkd. by rewrite merge_sort_Permutation in Hkd.
  - eapply sublist_NoDup; [|by apply fmap_sublist].
    unfold sortNewestFirst. rewrite merge_sort_Permutation.
    apply matching_NoDup.
  - unfold l. rewrite length_page by nia. lia.
  - apply window_sorted, sortNewestFirst_sorted.
Qed.

(** X9. Whatever the search string and the regular expressions of the
    database, a page that a listing returns (page and page size at
    least 1) holds only stored documents, each at most once, at most
    [limit] of them, newest first, and [totalCount] is at most the size
    of the collection. *)
Theorem listing_returns_stored_records (w : World) (page limit : Z)
    (q : option jsstring) :
  1 ≤ page → 1 ≤ limit →
  (∀ r w' pg,
     getAllStoresPage RegExp page limit q w = (Normal r, w') →
     payload r = Some pg →
     (∀ kd, kd ∈ records pg → stores (db w) !! fst kd = Some (snd kd))
     ∧ NoDup (records pg).*1
     ∧ Z.of_nat (length (records pg)) ≤ limit
     ∧ StronglySorted (newerFirst StoreModel) (records pg)
     ∧ totalCount (pagination pg) ≤ Z.of_nat (size (stores (db w))))
  ∧ (∀ r w' pg,
       getCommentsPaginated RegExp page limit q w = (Normal r, w') →
       payload r = Some pg →
       ∃ found,
         records pg = map (populate (db w)) found
         ∧ (∀ kd, kd ∈ found → comments (db w) !! fst kd = Some (snd kd))
         ∧ NoDup found.*1
         ∧ Z.of_nat (length found) ≤ limit
         ∧ StronglySorted (newerFirst Comments) found
         ∧ totalCount (pagination pg) ≤ Z.of_nat (size (comments (db w)))).
Proof.
  intros Hp Hl. split.
  - intros r w' pg Hrun Hpg.
    assert (Hok : success r = true).
    { revert Hrun Hpg. rewrite getAllStoresPage_eq. cbv zeta.
      repeat case_match; intros [= <- _]; by intros [=]. }
    destruct (stores_listing_success RegExp page limit q w r w'
                Hp Hl Hrun Hok) as (test & _ & E).
    rewrite E in Hpg. injection Hpg as <-. cbn [records pagination].
    destruct (page_sound StoreModel test (db w) page limit Hp Hl)
      as (H1 & H2 & H3 & H4).
    split_and!; try assumption.
    cbn. pose proof (length_matching_le StoreModel test (db w)).
    change (collection StoreModel (db w)) with (stores (db w)) in *. lia.
  - intros r w' pg Hrun Hpg.
    assert (Hok : success r = true).
    { revert Hrun Hpg. rewrite getCommentsPaginated_eq. cbv zeta.
      repeat case_match; intros [= <- _]; by intros [=]. }
    destruct (comments_listing_success RegExp page limit q w r w'
                Hp Hl Hrun Hok) as (test & _ & E).
    rewrite E in Hpg. injection Hpg as <-. cbn [records pagination].
    destruct (page_sound Comments test (db w) page limit Hp Hl)
      as (H1 & H2 & H3 & H4).
    eexists. split; [reflexivity|]. split_and!; try assumption.
    cbn. pose proof (length_matching_le Comments test (db w)).
    change (collection Comments (db w)) with (comments (db w)) in *. lia.
Qed.

Lemma pages_concat {A} (L : nat) (l : list A) (k : nat) :
  concat ((fun p => take L (drop (Z.to_nat ((p - 1) * Z.of_nat L)) l))
            <$> seqZ 1 (Z.of_nat k))
  = take (k * L) l.
Proof.
  induction k as [|k IH]; [reflexivity|].
  rewrite seqZ_S, fmap_app, concat_app, IH. cbn [fmap list_fmap concat].
  rewrite app_nil_r.
  replace (Z.to_nat ((1 + Z.of_nat k - 1) * Z.of_nat L)) with (k * L)%nat
    by lia.
  rewrite take_take_drop. f_equal. lia.
Qed.

Lemma recordsOf_stores_page page limit q w test :
  faults w = [] → 1 ≤ page → 1 ≤ limit →
  compileFilter RegExp (storeSearch q) = Some test →
  recordsOf (getAllStoresPage RegExp page limit q w)
  = take (Z.to_nat limit)
      (drop (Z.to_nat ((page - 1) * Z.of_nat (Z.to_nat limit)))
         (sortNewestFirst StoreModel (matching StoreModel test (db w)))).
Proof.
  intros Hf Hp Hl Ec.
  rewrite (stores_listing_healthy RegExp page limit q w test Hf Hp Hl Ec).
  cbn [recordsOf payload ok_with records]. unfold applyLimit.
  destruct (Z.eqb_spec limit 0); [lia|].
  rewrite Z2Nat.id by lia.
  by replace (Z.abs_nat limit) with (Z.to_nat limit) by lia.
Qed.

(** Two sorted lists with the same elements are the same list when no
    two elements are tied. *)
Lemma sorted_perm_unique {A} (R : relation A) (l1 l2 : list A) :
  (∀ x y, x ∈ l1 → y ∈ l1 → R x y → R y x → x = y) →
  StronglySorted R l1 → StronglySorted R l2 → l1 ≡ₚ l2 → l1 = l2.
Proof.
  revert l2. induction l1 as [|x l1 IH]; intros l2 Hanti H1 H2 Hperm.
  { by apply Permutation_nil_l in Hperm. }
  destruct l2 as [|y l2].
  { by apply Permutation_nil_r in Hperm. }
  apply StronglySorted_inv in H1 as [H1 Hx].
  apply StronglySorted_inv in H2 as [H2 Hy].
  rewrite Forall_forall in Hx, Hy.
  assert (x = y) as <-.
  { assert (Hxin : x ∈ y :: l2) by (rewrite <- Hperm; left).
    assert (Hyin : y ∈ x :: l1) by (rewrite Hperm; left).
    apply elem_of_cons in Hxin as [E|Hxin]; [exact E|].
    apply elem_of_cons in Hyin as [E|Hyin]; [by symmetry|].
    apply Hanti; [left|by right|by apply Hx|by apply Hy]. }
  f_equal.
  apply IH; [|exact H1|exact H2|by apply Permutation_cons_inv in Hperm].
  intros a b Ha Hb. apply Hanti; by right.
Qed.

(** X10. When no two stored stores were created at the same time, the
    pages 1 to [totalPages] of a listing, one after the other, are the
    matching stores from the newest to the oldest: no matching store is
    skipped and none is repeated (working database, page size at least
    1, the database unchanged between the requests). *)
Theorem pages_partition_the_result (w : World) (limit n : Z)
    (q : option jsstring) (test : Store → bool)
    (sorted : list (N * Store)) :
  faults w = [] → 1 ≤ limit →
  distinctTimes (stores (db w)) →
  compileFilter RegExp (storeSearch q) = Some test →
  Math_ceil_div (Z.of_nat (length (matching StoreModel test (db w)))) limit
  = Int n →
  sorted ≡ₚ matching StoreModel test (db w) →
  StronglySorted (newerFirst StoreModel) sorted →
  concat ((fun p => recordsOf (getAllStoresPage RegExp p limit q w))
            <$> seqZ 1 n)
  = sorted.
Proof.
  intros Hf Hl Hdistinct Ec En Hperm Hsorted.
  destruct (Math_ceil_div_spec
              (Z.of_nat (length (matching StoreModel test (db w)))) limit)
    as (m & Em & Hm1 & Hm2); [lia|].
  assert (m = n) as -> by congruence.
  assert (0 ≤ n) by nia.
  transitivity (sortNewestFirst StoreModel (matching StoreModel test (db w))).
  - transitivity
      (concat ((fun p =>
                  take (Z.to_nat limit)
                    (drop (Z.to_nat ((p - 1) * Z.of_nat (Z.to_nat limit)))
                       (sortNewestFirst StoreModel
                          (matching StoreModel test (db w)))))
                 <$> seqZ 1 n)).
    + f_equal. apply Forall_fmap_ext, Forall_forall. intros p Hp.
      apply elem_of_seqZ in Hp.
      apply recordsOf_stores_page; (assumption || lia).
    + rewrite <- (Z2Nat.id n) at 1 by lia. rewrite pages_concat.
      apply take_ge. rewrite length_sortNewestFirst. nia.
  - symmetry. apply (sorted_perm_unique (newerFirst StoreModel)).
    + intros [i s] [j t] Hi Hj Hst Hts. rewrite Hperm in Hi, Hj.
      apply (matching_stored StoreModel test) in Hi, Hj.
      cbn [fst snd collection StoreModel] in Hi, Hj.
      unfold newerFirst in Hst, Hts. cbn [snd createdAt StoreModel] in Hst, Hts.
      assert (i = j) as <- by (apply (Hdistinct i j s t Hi Hj); lia).
      rewrite Hi in Hj. by injection Hj as <-.
    + exact Hsorted.
    + apply sortNewestFirst_sorted.
    + rewrite Hperm. symmetry. apply merge_sort_Permutation.
Qed.

Lemma paginationOf_consistent (page limit count : Z) (len : nat) :
  1 ≤ page → 1 ≤ limit → 0 ≤ count →
  Z.of_nat len = Z.min limit (Z.max 0 (count - (page - 1) * limit)) →
  pageConsistent page limit len (paginationOf page limit count).
Proof.
  intros Hp Hl Hc Hlen.
  destruct (Math_ceil_div_spec count limit) as (n & En & Hn1 & Hn2); [lia|].
  unfold pageConsistent, paginationOf.
  cbn [hasNextPage totalCount totalPages]. rewrite En. cbn [lt_number].
  rewrite Z.ltb_lt. split_and!.
  - split; intros; nia.
  - intros. nia.
  - split; intros; nia.
  - split; [intros [= ->]|intros ->; f_equal]; nia.
Qed.

(** X11. In a page that a listing returns (page and page size at least
    1) [hasNextPage] is set exactly when records remain after the page,
    and then the page holds exactly [limit] records; the page is empty
    exactly when it starts at or past the end of the result; and
    [totalPages] is 0 exactly when nothing matches. *)
Theorem next_page_means_full_page (w : World) (page limit : Z)
    (q : option jsstring) :
  1 ≤ page → 1 ≤ limit →
  (∀ r w' pg,
     getAllStoresPage RegExp page limit q w = (Normal r, w') →
     payload r = Some pg →
     pageConsistent page limit (length (records pg)) (pagination pg))
  ∧ (∀ r w' pg,
       getCommentsPaginated RegExp page limit q w = (Normal r, w') →
       payload r = Some pg →
       pageConsistent page limit (length (records pg)) (pagination pg)).
Proof.
  intros Hp Hl. split.
  - intros r w' pg Hrun Hpg.
    assert (Hok : success r = true).
    { revert Hrun Hpg. rewrite getAllStoresPage_eq. cbv zeta.
      repeat case_match; intros [= <- _]; by intros [=]. }
    destruct (stores_listing_success RegExp page limit q w r w'
                Hp Hl Hrun Hok) as (test & _ & E).
    rewrite E in Hpg. injection Hpg as <-. cbn [records pagination].
    apply paginationOf_consistent; [assumption|assumption|lia|].
    by rewrite page_size_formula, length_sortNewestFirst.
  - intros r w' pg Hrun Hpg.
    assert (Hok : success r = true).
    { revert Hrun Hpg. rewrite getCommentsPaginated_eq. cbv zeta.
      repeat case_match; intros [= <- _]; by intros [=]. }
    destruct (comments_listing_success RegExp page limit q w r w'
                Hp Hl Hrun Hok) as (test & _ & E).
    rewrite E in Hpg. injection Hpg as <-. cbn [records pagination].
    apply paginationOf_consistent; [assumption|assumption|lia|].
    by rewrite length_map, page_size_formula, length_sortNewestFirst.
Qed.

End ListingFacts.


Section FlagAndSearchFacts.

Import Server Effects.

Variable RegExp : jsstring → option (jsstring → bool).

Lemma commentSearch_ignores_flag q test deleted t c :
  compileFilter RegExp (commentSearch q) = Some test →
  test (setDeleted deleted t c) = test c.
Proof.
  unfold commentSearch.
  destruct q as [s|]; [destruct (truthy s)|];
    cbn [compileFilter compileOr]; unfold compileRegex; cbn [pattern values];
    try (destruct (RegExp s)); intros [= <-]; reflexivity.
Qed.

Lemma alter_as_insert {A} (f : A → A) (k : N) (m : gmap N A) (c : A) :
  m !! k = Some c → alter f k m = <[k := f c]> (delete k m).
Proof.
  intros Hk. apply map_eq. intros j.
  destruct (decide (k = j)) as [<-|Hne].
  - by rewrite lookup_alter_eq, lookup_insert_eq, Hk.
  - by rewrite lookup_alter_ne, lookup_insert_ne, lookup_delete_ne.
Qed.

Lemma matching_after_flag (test : Comment → bool) d k c deleted t :
  comments d !! k = Some c →
  test (setDeleted deleted t c) = test c →
  (matching Comments test
     (set_comments (alter (setDeleted deleted t) k (comments d)) d)).*1
  ≡ₚ (matching Comments test d).*1.
Proof.
  intros Hk Ht. unfold matching. cbn [collection Comments comments set_comments].
  rewrite (alter_as_insert _ k _ c Hk).
  rewrite map_to_list_insert by apply lookup_delete_eq.
  rewrite <- (map_to_list_delete (comments d) k c Hk).
  rewrite !filter_cons. cbn [snd]. rewrite Ht.
  destruct (decide (test c = true)); [|reflexivity].
  by rewrite !fmap_cons.
Qed.

(** X12. A soft delete or a restore does not change which comments a
    search finds: after either succeeds, the ids of the comments that
    match any given search are the ids that matched before, so the
    admin listing reports the same [totalCount] and still lists a
    soft-deleted comment. *)
Theorem flag_update_keeps_search_results (w w' : World) (id : jsstring)
    (r : Result unit) (q : option jsstring) (test : Comment → bool) :
  compileFilter RegExp (commentSearch q) = Some test →
  (deleteComment id w = (Normal r, w')
   ∨ restoreComment id w = (Normal r, w')) →
  success r = true →
  (matching Comments test (db w')).*1 ≡ₚ (matching Comments test (db w)).*1
  ∧ length (matching Comments test (db w'))
    = length (matching Comments test (db w)).
Proof.
  intros Ec Hrun Hok.
  assert (Hperm : (matching Comments test (db w')).*1
                  ≡ₚ (matching Comments test (db w)).*1).
  { destruct Hrun as [Hrun|Hrun].
    - apply deleteComment_success in Hrun as (k & c & _ & Hk & _ & ->);
        [|exact Hok].
      rewrite db_updated. apply (matching_after_flag test (db w) k c);
        [exact Hk|]. by eapply commentSearch_ignores_flag.
    - apply restoreComment_success in Hrun as (k & c & _ & Hk & _ & ->);
        [|exact Hok].
      rewrite db_updated. apply (matching_after_flag test (db w) k c);
        [exact Hk|]. by eapply commentSearch_ignores_flag. }
  split; [exact Hperm|].
  apply Permutation_length in Hperm. by rewrite !length_fmap in Hperm.
Qed.

(** X13. An empty search string is no search: the listings give for it
    what they give when the search is absent, all documents count, and
    the regular expressions of the database play no part. *)
Theorem empty_search_is_no_search
    (RegExp' : jsstring → option (jsstring → bool)) (w : World)
    (page limit : Z) :
  getAllStoresPage RegExp page limit (Some []) w
  = getAllStoresPage RegExp' page limit None w
  ∧ getCommentsPaginated RegExp page limit (Some []) w
    = getCommentsPaginated RegExp' page limit None w
  ∧ (∀ r w' pg,
       getAllStoresPage RegExp page limit None w = (Normal r, w') →
       payload r = Some pg →
       totalCount (pagination pg) = Z.of_nat (size (stores (db w))))
  ∧ (∀ r w' pg,
       getCommentsPaginated RegExp page limit None w = (Normal r, w') →
       payload r = Some pg →
       totalCount (pagination pg) = Z.of_nat (size (comments (db w)))).
Proof.
  split_and!.
  - by rewrite !getAllStoresPage_eq.
  - by rewrite !getCommentsPaginated_eq.
  - intros r w' pg. rewrite getAllStoresPage_eq. cbv zeta.
    cbn [storeSearch compileFilter].
    repeat case_match; intros [= <- _]; intros [= <-].
    cbn. by rewrite matching_all.
  - intros r w' pg. rewrite getCommentsPaginated_eq. cbv zeta.
    cbn [commentSearch compileFilter].
    repeat case_match; intros [= <- _]; intros [= <-].
    cbn. by rewrite matching_all.
Qed.

(** X14. A non-empty search string that the database refuses as a
    regular expression makes both listings return their failure result,
    on every page and whatever else happens. *)
Theorem refused_pattern_fails (w : World) (page limit : Z) (s : jsstring) :
  s ≠ [] → RegExp s = None →
  (∃ w', getAllStoresPage RegExp page limit (Some s) w
         = (Normal (fail_error Msg.storePageFailed), w')
         ∧ untouched w w')
  ∧ (∃ w', getCommentsPaginated RegExp page limit (Some s) w
           = (Normal (fail_error Msg.commentPageFailed), w')
           ∧ untouched w w').
Proof.
  intros Hs Hr.
  pose proof (untouched_settle w) as H1.
  pose proof (untouched_settle_r w _ H1) as H2.
  split.
  - rewrite getAllStoresPage_eq. cbv zeta. unfold storeSearch.
    rewrite (truthy_nonempty s Hs). cbn [compileFilter compileOr].
    unfold compileRegex. cbn [pattern]. rewrite Hr.
    repeat case_match; by eexists.
  - rewrite getCommentsPaginated_eq. cbv zeta. unfold commentSearch.
    rewrite (truthy_nonempty s Hs). cbn [compileFilter compileOr].
    unfold compileRegex. cbn [pattern]. rewrite Hr.
    repeat case_match; by eexists.
Qed.

End FlagAndSearchFacts.


(** * Further properties of the tag widget *)

Section MoreTagFacts.

Import TagWidget Shapes.

Variable toLowerCase : jsstring → jsstring.


Lemma trimStart_head (s : jsstring) :
  match trimStart s with
  | [] => True
  | u :: _ => isWhiteSpace u = false
  end.
Proof.
  induction s as [|u s IH]; simpl; [exact I|].
  destruct (isWhiteSpace u) eqn:E; [exact IH|exact E].
Qed.

Lemma trimStart_keeps (u : N) (s : jsstring) :
  isWhiteSpace u = false → trimStart (u :: s) = u :: s.
Proof. intros E. simpl. by rewrite E. Qed.

Lemma trimStart_idem (s : jsstring) : trimStart (trimStart s) = trimStart s.
Proof.
  pose proof (trimStart_head s) as H.
  destruct (trimStart s) as [|u r]; [reflexivity|]. by apply trimStart_keeps.
Qed.

Lemma trimStart_snoc (l : jsstring) (u : N) :
  isWhiteSpace u = false → trimStart (l ++ [u]) = trimStart l ++ [u].
Proof.
  intros E. induction l as [|x l IH]; simpl; [by rewrite E|].
  destruct (isWhiteSpace x); [exact IH|reflexivity].
Qed.

Lemma trimEnd_cons (u : N) (r : jsstring) :
  isWhiteSpace u = false → trimEnd (u :: r) = u :: trimEnd r.
Proof.
  intros E. unfold trimEnd. cbn [rev].
  rewrite (trimStart_snoc _ u E), rev_app_distr. reflexivity.
Qed.

Lemma trimEnd_idem (s : jsstring) : trimEnd (trimEnd s) = trimEnd s.
Proof. unfold trimEnd. by rewrite rev_involutive, trimStart_idem. Qed.

Lemma trim_cases (s : jsstring) :
  trim s = []
  ∨ ∃ u r, trim s = u :: trimEnd r ∧ isWhiteSpace u = false.
Proof.
  unfold trim. pose proof (trimStart_head s) as H.
  destruct (trimStart s) as [|u r]; [by left|].
  right. exists u, r. split; [by apply trimEnd_cons|exact H].
Qed.

Lemma trim_idem (s : jsstring) : trim (trim s) = trim s.
Proof.
  destruct (trim_cases s) as [->|(u & r & -> & E)]; [reflexivity|].
  unfold trim. rewrite (trimStart_keeps u _ E), (trimEnd_cons u _ E).
  by rewrite trimEnd_idem.
Qed.

Lemma filter_all {A} (P : A → Prop) `{∀ x, Decision (P x)} (l : list A) :
  (∀ x, x ∈ l → P x) → filter P l = l.
Proof.
  induction l as [|x l IH]; intros Hl; [reflexivity|].
  rewrite filter_cons_True by (apply Hl; left).
  f_equal. apply IH. intros y Hy. apply Hl. by right.
Qed.

(** X15. Adding the same tag twice is adding it once. *)
Theorem handleTagAdd_twice (tags : list jsstring) (newTag : jsstring) :
  handleTagAdd toLowerCase (handleTagAdd toLowerCase tags newTag) newTag
  = handleTagAdd toLowerCase tags newTag.
Proof.
  destruct (decide (trim newTag = [])) as [E|E];
    [by rewrite !(handleTagAdd_blank toLowerCase)|].
  destruct (Array_includes (map toLowerCase tags)
              (toLowerCase (trim newTag))) eqn:Ei.
  - apply Array_includes_lower in Ei.
    by rewrite !(handleTagAdd_duplicate toLowerCase tags newTag Ei).
  - rewrite (handleTagAdd_fresh toLowerCase tags newTag E).
    + apply handleTagAdd_duplicate. exists (trim newTag).
      split; [|reflexivity]. apply elem_of_app. right. by left.
    + intros t Ht Heq.
      assert (Array_includes (map toLowerCase tags)
                (toLowerCase (trim newTag)) = true)
        by (apply Array_includes_lower; by exists t).
      congruence.
Qed.

(** X16. A tag that is not yet in the list can be taken back: removing
    the trimmed tag after adding it gives the list as it was. *)
Theorem handleTagAdd_then_remove (tags : list jsstring) (newTag : jsstring) :
  trim newTag ∉ tags →
  handleTagRemove (handleTagAdd toLowerCase tags newTag) (trim newTag) = tags.
Proof.
  intros Hnew.
  assert (Hkeep : handleTagRemove tags (trim newTag) = tags).
  { apply filter_all. intros x Hx ->. by apply Hnew. }
  unfold handleTagAdd.
  destruct (truthy (trim newTag)); simpl; [|exact Hkeep].
  destruct (Array_includes _ _); simpl; [exact Hkeep|].
  unfold handleTagRemove in *. rewrite filter_app, Hkeep.
  rewrite filter_cons_False by (intros H; by apply H).
  by rewrite filter_nil, app_nil_r.
Qed.

(** X17. The widget never stores an empty tag or a tag with white space
    around it: when every tag of the list is non-empty and trimmed, so
    is every tag after adding, after removing, and after the Enter key
    of the tag input, which also leaves the list free of tags that
    differ only by case. *)
Theorem tags_stay_tidy (tags : list jsstring) (text : jsstring)
    (isComposing : bool) :
  Forall tidy tags →
  Forall tidy (handleTagAdd toLowerCase tags text)
  ∧ Forall tidy (handleTagRemove tags text)
  ∧ Forall tidy (fst (onEnterKey toLowerCase tags text isComposing))
  ∧ (caseUnique toLowerCase tags →
     caseUnique toLowerCase
       (fst (onEnterKey toLowerCase tags text isComposing))).
Proof.
  intros Ht.
  assert (Hadd : Forall tidy (handleTagAdd toLowerCase tags text)).
  { unfold handleTagAdd.
    destruct (truthy (trim text)) eqn:E; simpl; [|exact Ht].
    destruct (Array_includes _ _); simpl; [exact Ht|].
    apply Forall_app. split; [exact Ht|]. apply Forall_singleton.
    split; [by destruct (trim text)|apply trim_idem]. }
  split; [exact Hadd|]. split.
  - unfold handleTagRemove. rewrite Forall_forall in *.
    intros x Hx. apply list_elem_of_filter in Hx as [_ Hx]. by apply Ht.
  - unfold onEnterKey.
    destruct isComposing; simpl; [by split|].
    destruct (0 <? length (trim text))%nat; simpl; [|by split].
    split; [exact Hadd|apply handleTagAdd_caseUnique].
Qed.

End MoreTagFacts.

Lemma handleTagAdd_then_remove_witness :
  TagWidget.handleTagRemove
    (TagWidget.handleTagAdd toLowerCase [js "Seoul"] (js " Jeju "))
    (js "Jeju")
  = [js "Seoul"].
Proof.
  change (js "Jeju") with (trim (js " Jeju ")).
  apply handleTagAdd_then_remove.
  vm_compute. intros H. apply list_elem_of_singleton in H. discriminate.
Defined.

Lemma tags_stay_tidy_witness :
  Forall Shapes.tidy
    (TagWidget.handleTagAdd toLowerCase [js "Seoul"] (js "  Jeju "))
  ∧ TagWidget.handleTagAdd toLowerCase [js "Seoul"] (js "  Jeju ")
    = [js "Seoul"; js "Jeju"].
Proof.
  assert (H : Forall Shapes.tidy [js "Seoul"]).
  { apply Forall_singleton. split; [discriminate|vm_compute; reflexivity]. }
  destruct (tags_stay_tidy toLowerCase [js "Seoul"] (js "  Jeju ") false H)
    as (Ha & _).
  split; [exact Ha|vm_compute; reflexivity].
Defined.


(** * Further properties of the pagination bars *)

Section WindowFacts.

Import ListState.

(** X18. The numbered buttons of the admin tables are the pages from
    two before to two after the page of the pagination record, cut to
    1..totalPages: for a page within that range, the page itself and
    its neighbours that exist are among them, every button is a page
    that exists, and there are at most five. *)
Theorem admin_buttons_window (st : State) (pg : PaginationInfo) :
  pagination st = Some pg →
  1 ≤ currentPage pg ≤ totalPages pg →
  ∃ l,
    renderPaginationButtons st = Some l
    ∧ currentPage pg ∈ l
    ∧ (∀ i, i ∈ l ↔
            1 ≤ i ≤ totalPages pg
            ∧ currentPage pg - 2 ≤ i ≤ currentPage pg + 2)
    ∧ (length l ≤ 5)%nat
    ∧ NoDup l.
Proof.
  intros Hpg Hin. unfold renderPaginationButtons. rewrite Hpg.
  eexists. split; [reflexivity|]. split_and!.
  - apply elem_of_seqZ. lia.
  - intros i. rewrite elem_of_seqZ. lia.
  - rewrite length_seqZ. lia.
  - apply NoDup_seqZ.
Qed.

(** X19. The page links of the public post list, for a current page
    within 1..totalPages and more than one page: at most five links to
    consecutive pages that exist, the current page among them; page 1
    is among them or has its own link, and so has the last page. *)
Theorem post_links_window (st : State) (pg : PaginationInfo) :
  pagination st = Some pg →
  1 < totalPages pg →
  1 ≤ page st ≤ totalPages pg →
  page st ∈ postPageLinks st pg
  ∧ (∀ i, i ∈ postPageLinks st pg → 1 ≤ i ≤ totalPages pg)
  ∧ (length (postPageLinks st pg) ≤ 5)%nat
  ∧ NoDup (postPageLinks st pg)
  ∧ (1 ∈ postPageLinks st pg ∨ postClick st FirstPage = Some 1)
  ∧ (totalPages pg ∈ postPageLinks st pg
     ∨ postClick st LastPage = Some (totalPages pg)).
Proof.
  intros Hpg Hmany Hin.
  assert (Hmem : ∀ i, i ∈ postPageLinks st pg ↔
            i ≤ totalPages pg
            ∧ Z.max 1 (Z.min (page st - 2) (totalPages pg - 4)) ≤ i
            ∧ i < Z.max 1 (Z.min (page st - 2) (totalPages pg - 4))
                  + Z.min 5 (totalPages pg)).
  { intros i. unfold postPageLinks. rewrite list_elem_of_filter.
    change (map ?f ?l) with (f <$> l). rewrite list_elem_of_fmap.
    split.
    - intros (Hle & k & -> & Hk). apply elem_of_seqZ in Hk. lia.
    - intros (Hle & Hlo & Hhi). split; [exact Hle|].
      exists (i - Z.max 1 (Z.min (page st - 2) (totalPages pg - 4))).
      split; [lia|]. apply elem_of_seqZ. lia. }
  split_and!.
  - apply Hmem. lia.
  - intros i Hi. apply Hmem in Hi. lia.
  - unfold postPageLinks. etrans; [apply length_filter|].
    rewrite length_map, length_seqZ. lia.
  - unfold postPageLinks. apply NoDup_filter.
    change (map ?f ?l) with (f <$> l).
    apply NoDup_fmap_2; [|apply NoDup_seqZ]. intros x y. lia.
  - unfold postClick. rewrite Hpg.
    destruct (Z.ltb_spec 1 (totalPages pg)); [|lia].
    destruct (Z.ltb_spec 3 (page st)); [by right|].
    left. apply Hmem. lia.
  - unfold postClick. rewrite Hpg.
    destruct (Z.ltb_spec 1 (totalPages pg)); [|lia].
    destruct (Z.ltb_spec (page st) (totalPages pg - 2)); [by right|].
    left. apply Hmem. lia.
Qed.

End WindowFacts.

Lemma admin_buttons_window_witness :
  ∃ l, ListState.renderPaginationButtons ListState.page2of3 = Some l
       ∧ 2 ∈ l ∧ (length l ≤ 5)%nat.
Proof.
  destruct (admin_buttons_window ListState.page2of3 _ eq_refl
              ltac:(simpl; lia)) as (l & Hl & Hcur & _ & Hlen & _).
  exists l. by split_and!.
Defined.

Lemma post_links_window_witness :
  2 ∈ ListState.postPageLinks ListState.page2of3
        {| ListState.currentPage := 2; ListState.totalPages := 3;
           ListState.totalCount := 23; ListState.limit := 10;
           ListState.hasNextPage := true; ListState.hasPrevPage := true |}.
Proof.
  destruct (post_links_window ListState.page2of3 _ eq_refl
              ltac:(simpl; lia) ltac:(simpl; lia)) as (H & _).
  exact H.
Defined.


(** * Properties of the comments table *)

Section CommentsTableFacts.

Import Sonner CommentsManage.

Variable RegExp : jsstring → option (jsstring → bool).

Lemma getCommentsPaginated_outcome page limit q w c w' :
  Server.getCommentsPaginated RegExp page limit q w = (c, w') →
  Effects.untouched w w'
  ∧ (c = Server.Normal (Server.fail_error Server.Msg.commentPageFailed)
     ∨ ∃ test,
         Server.compileFilter RegExp (Server.commentSearch q) = Some test
         ∧ 0 ≤ (page - 1) * limit
         ∧ c = Server.Normal (Server.ok_with None (Some
             {| Server.records :=
                  map (Server.populate (Server.db w))
                    (Server.applyLimit limit
                       (drop (Z.to_nat ((page - 1) * limit))
                          (Server.sortNewestFirst Server.Comments
                             (Server.matching Server.Comments test
                                (Server.db w)))));
                Server.pagination :=
                  Server.paginationOf page limit
                    (Z.of_nat (length (Server.matching Server.Comments test
                                         (Server.db w)))) |}))).
Proof.
  pose proof (untouched_settle w) as H1.
  pose proof (untouched_settle_r w _ H1) as H2.
  pose proof (untouched_settle_r w _ H2) as H3.
  rewrite getCommentsPaginated_eq. cbv zeta.
  destruct (Server.rejects w); [intros [= <- <-]; split; [done|by left]|].
  destruct (Server.rejects (Server.settle w));
    [intros [= <- <-]; split; [done|by left]|].
  destruct (Server.compileFilter _ _) as [test|];
    [|intros [= <- <-]; split; [done|by left]].
  destruct (Server.rejects _); [intros [= <- <-]; split; [done|by left]|].
  destruct (Z.ltb_spec ((page - 1) * limit) 0);
    [intros [= <- <-]; split; [done|by left]|].
  intros [= <- <-]. split; [done|]. right. by exists test.
Qed.

(** X20. [fetchComments] ends with the loading flag off and touches
    neither the page, the page size nor the toasts; the database is not
    changed. When the call is delivered, the table shows what
    [getCommentsPaginated] returned for the page, the page size and the
    committed search term of the state: on success the rows are the
    records of the result, the pagination record is the one of the
    result and the error is cleared; on failure the rows and the
    pagination record are kept and the error is the error of the
    result, which is the action's message. When the call is rejected
    (request or answer lost), the rows and the pagination record are
    kept and the error is the component's own text. *)
Theorem fetchComments_outcome (fate : Client.Fate) (st st' : State)
    (w w' : Server.World) :
  fetchComments RegExp fate st w = (st', w') →
  isLoading st' = false
  ∧ currentPage st' = currentPage st
  ∧ pageSize st' = pageSize st
  ∧ toasts st' = toasts st
  ∧ Effects.untouched w w'
  ∧ (fate = Client.delivered →
     ∃ r,
       Server.getCommentsPaginated RegExp (currentPage st) (pageSize st)
         (or_undefined (debouncedSearchTerm st)) w = (Server.Normal r, w')
       ∧ (Server.success r = true →
          ∃ pg, Server.payload r = Some pg
                ∧ comments st' = Server.records pg
                ∧ pagination st' = Some (Server.pagination pg)
                ∧ error st' = None)
       ∧ (Server.success r = false →
          comments st' = comments st
          ∧ pagination st' = pagination st
          ∧ error st' = Server.error r
          ∧ Server.error r = Some Server.Msg.commentPageFailed))
  ∧ (fate ≠ Client.delivered →
     comments st' = comments st
     ∧ pagination st' = pagination st
     ∧ error st' = Some Txt.loadError).
Proof.
  unfold fetchComments, Client.await.
  destruct (Server.getCommentsPaginated _ _ _ _ _) as [c w1] eqn:Hrun.
  pose proof Hrun as Hout.
  apply getCommentsPaginated_outcome in Hout
    as [Hun [->|(test & _ & _ & ->)]].
  - destruct fate; intros [= <- <-]; split_and!; try done;
      try apply untouched_refl.
    intros _. eexists. split; [reflexivity|]. split; [done|].
    intros _. by split_and!.
  - destruct fate; intros [= <- <-]; split_and!; try done;
      try apply untouched_refl.
    intros _. eexists. split; [reflexivity|]. split; [|done].
    intros _. eexists. by split_and!.
Qed.


Lemma markRows_flag b id rows c :
  c ∈ markRows b id rows → Server.pc_id c = id →
  Server.isDeleted (Server.pc_comment c) = b.
Proof.
  unfold markRows. change (map ?f ?l) with (f <$> l).
  intros Hc Hid. apply list_elem_of_fmap in Hc as (x & -> & _).
  destruct (decide (Server.pc_id x = id)) as [E|E]; [reflexivity|done].
Qed.

Lemma markRows_others b id rows c :
  c ∈ rows → Server.pc_id c ≠ id → c ∈ markRows b id rows.
Proof.
  intros Hc Hid. unfold markRows. change (map ?f ?l) with (f <$> l).
  apply list_elem_of_fmap. exists c. split; [|exact Hc].
  by destruct (decide _).
Qed.





End CommentsTableFacts.

Section CommentsTableCounts.

Import Sonner CommentsManage.

Variable RegExp : jsstring → option (jsstring → bool).





(** X23. After a successful fetch of a page (page and page size at
    least 1) the range beside the total is the range of the numbers in
    front of the rows: its ends are the numbers of the first and of the
    last row. When the page has no rows, no range is shown if nothing
    matches; if something matches (the page lies past the last one) the
    range shown is inverted, its first number above its last. *)
Theorem range_matches_row_numbers (fate : Client.Fate) (st st' : State)
    (w w' : Server.World) :
  1 ≤ currentPage st → 1 ≤ pageSize st →
  fetchComments RegExp fate st w = (st', w') →
  error st' = None →
  (comments st' ≠ [] →
   rangeShown st'
   = Some (rowNumber st' 0, rowNumber st' (length (comments st') - 1)))
  ∧ (comments st' = [] →
     rangeShown st' = None
     ∨ ∃ first last, rangeShown st' = Some (first, last) ∧ last < first).
Proof.
  intros Hp Hl. unfold fetchComments, Client.await.
  destruct (Server.getCommentsPaginated _ _ _ _ _) as [c w1] eqn:Hrun.
  apply getCommentsPaginated_outcome in Hrun
    as [Hun [->|(test & _ & _ & ->)]];
    destruct fate; intros [= <- <-]; try (by intros [=]).
  intros _.
  unfold rangeShown, rowNumber.
  cbn [Server.success Server.payload Server.ok_with Server.records
       Server.pagination setIsLoading setError setPagination setComments
       comments pagination currentPage pageSize Server.paginationOf
       Server.totalCount].
  pose proof (page_size_formula (currentPage st) (pageSize st)
                (Server.sortNewestFirst Server.Comments
                   (Server.matching Server.Comments test (Server.db w)))
                Hp Hl) as Hlen.
  rewrite length_sortNewestFirst in Hlen.
  rewrite length_map.
  set (rows := Server.applyLimit _ _) in *.
  set (n := Z.of_nat (length (Server.matching _ _ _))) in *.
  replace (currentPage st * pageSize st)
    with ((currentPage st - 1) * pageSize st + pageSize st) by ring.
  assert (Hk : 0 ≤ (currentPage st - 1) * pageSize st) by nia.
  set (k := (currentPage st - 1) * pageSize st) in *.
  split.
  - intros Hne. assert (length rows ≠ 0%nat).
    { intros E. apply Hne. apply nil_length_inv in E. by rewrite E. }
    destruct (Z.ltb_spec 0 n); [|lia]. f_equal. f_equal; [lia|].
    rewrite Nat2Z.inj_sub by lia. lia.
  - intros Hnil. apply (f_equal length) in Hnil.
    rewrite length_map in Hnil. cbn in Hnil.
    destruct (Z.ltb_spec 0 n); [|by left].
    right. eexists _, _. split; [reflexivity|]. lia.
Qed.

End CommentsTableCounts.

Section CommentsTableRoundTrip.

Import Sonner CommentsManage.

Lemma withDeleted_same b c :
  Server.isDeleted (Server.pc_comment c) = b → withDeleted b c = c.
Proof. destruct c as [i p [? ? ? ? ? ? ?]]. simpl. by intros ->. Qed.

Lemma markRows_back id rows :
  (∀ r, r ∈ rows → Server.pc_id r = id →
        Server.isDeleted (Server.pc_comment r) = false) →
  markRows false id (markRows true id rows) = rows.
Proof.
  induction rows as [|c rows IH]; intros Hrows; [reflexivity|].
  cbn [markRows map].
  destruct (decide (Server.pc_id c = id)) as [E|E].
  - cbn [withDeleted Server.pc_id]. rewrite decide_True by exact E.
    f_equal; [|apply IH; intros r Hr; apply Hrows; by right].
    rewrite <- (withDeleted_same false c) at 2
      by (apply Hrows; [by left|exact E]).
    reflexivity.
  - rewrite decide_False by exact E.
    f_equal. apply IH. intros r Hr. apply Hrows. by right.
Qed.

(** X24. A delete from the menu of a row followed by a restore from
    the menu the row then shows, both delivered to a working database,
    bring the table back to the rows it had: after the delete the rows
    of the comment offer the restore, after the restore they offer the
    delete again and the rows are what they were; the stored comment is
    not deleted and carries the time of the restore; each step adds a
    success toast. *)
Theorem table_delete_then_restore (row row' : Server.PopulatedComment)
    (c : Server.Comment) (st : State) (w : Server.World) :
  (Server.pc_id row < 16 ^ 24)%N →
  Server.pc_id row' = Server.pc_id row →
  Server.faults w = [] →
  Server.comments (Server.db w) !! Server.pc_id row = Some c →
  (∀ r, r ∈ comments st → Server.pc_id r = Server.pc_id row →
        Server.isDeleted (Server.pc_comment r) = false) →
  isRestoring st = false →
  ∃ st1 w1 st2 w2,
    handleDeleteComment Client.delivered row st w = (st1, w1)
    ∧ (∀ r, r ∈ comments st1 → Server.pc_id r = Server.pc_id row →
            rowMenu st1 r = (RestoreRow, true))
    ∧ handleRestoreComment Client.delivered row' st1 w1 = (st2, w2)
    ∧ comments st2 = comments st
    ∧ (∀ r, r ∈ comments st2 → Server.pc_id r = Server.pc_id row →
            rowMenu st2 r = (DeleteRow, true))
    ∧ Server.comments (Server.db w2) !! Server.pc_id row
      = Some (Server.setDeleted false (Server.clock w) c)
    ∧ map kind (toasts st2)
      = map kind (toasts st) ++ [toastSuccess; toastSuccess].
Proof.
  intros Hid Hrow' Hf Hc Hrows Hres.
  pose proof (castObjectId_toString _ Hid) as Hcast.
  eexists _, _, _, _.
  split.
  { unfold handleDeleteComment, Client.await.
    rewrite (deleteComment_healthy _ _ c w Hf Hcast Hc). reflexivity. }
  cbn [Server.success Server.ok_with Server.message].
  split.
  { intros r Hr Hrid. cbn [comments setIsDeleting setComments] in Hr.
    unfold rowMenu. rewrite (markRows_flag true _ _ r Hr Hrid).
    cbn. by rewrite Hres. }
  assert (Hc1 : Server.comments (Server.db (Server.updated true
                  (Server.pc_id row) w w)) !! Server.pc_id row
                = Some (Server.setDeleted true (Server.clock w) c)).
  { rewrite db_updated. cbn. by rewrite lookup_alter_eq, Hc. }
  split.
  { unfold handleRestoreComment, Client.await. rewrite Hrow'.
    rewrite (restoreComment_healthy _ _ _
               (Server.updated true (Server.pc_id row) w w) Hf Hcast Hc1).
    reflexivity. }
  cbn [Server.success Server.ok_with Server.message comments setIsDeleting
       setIsRestoring setComments toast toasts].
  rewrite markRows_back by exact Hrows.
  split; [reflexivity|].
  split.
  { intros r Hr Hrid. unfold rowMenu. by rewrite (Hrows r Hr Hrid). }
  split.
  { rewrite db_updated. cbn [Server.comments Server.set_comments].
    by rewrite lookup_alter_eq, Hc1. }
  by rewrite !map_app, <- app_assoc.
Qed.

End CommentsTableRoundTrip.

(** * Properties of the stores table and of the dialog that adds a store *)

Section StoresTableFacts.

Import StoresManage.

Lemma replaced_ids (u : Row) (rows : list Row) :
  (map (fun store => if decide (fst store = fst u) then u else store) rows).*1
  = rows.*1.
Proof.
  induction rows as [|r rows IH]; [reflexivity|].
  cbn [map fmap list_fmap]. f_equal; [|exact IH].
  by destruct (decide (fst r = fst u)).
Qed.

(** X25. The handlers of the stores table after a store was deleted,
    changed or added, on a table with distinct ids on a page that is at
    least 1. After a delete no row has the id, the others stay in their
    order, and the table either steps back one page, which happens only
    off the first page, or asks for the stores again; the page never
    falls below 1. After an update the ids and their order are the
    same, the rows of the id hold the updated store, the others are
    kept, and nothing is fetched. After an add the new store is the
    first row, the page is 1, and the stores are asked for again. The
    ids stay distinct throughout (for the add: when the new id is not in
    the table). *)
Theorem stores_table_handlers (st : State) :
  1 ≤ currentPage st →
  NoDup (stores st).*1 →
  (∀ id, let st' := handleDeleteSuccess id st in
         NoDup (stores st').*1
         ∧ (∀ r, r ∈ stores st' ↔ r ∈ stores st ∧ fst r ≠ id)
         ∧ stores st' `sublist_of` stores st
         ∧ 1 ≤ currentPage st'
         ∧ storeToDelete st' = None
         ∧ ((currentPage st' = currentPage st - 1
             ∧ requests st' = requests st)
            ∨ (currentPage st' = currentPage st
               ∧ requests st' = requests st ++ [requestOf st])))
  ∧ (∀ u, let st' := handleUpdateSuccess u st in
          (stores st').*1 = (stores st).*1
          ∧ (∀ r, r ∈ stores st' → fst r = fst u → r = u)
          ∧ (∀ r, r ∈ stores st → fst r ≠ fst u → r ∈ stores st')
          ∧ currentPage st' = currentPage st
          ∧ requests st' = requests st
          ∧ storeToEdit st' = None)
  ∧ (∀ new, let st' := handleAddSuccess new st in
            stores st' = new :: stores st
            ∧ currentPage st' = 1
            ∧ requests st' = requests st ++ [requestOf st]
            ∧ (fst new ∉ (stores st).*1 → NoDup (stores st').*1)).
Proof.
  intros Hp Hnd. split_and!.
  - intros id st'.
    assert (Hrows : stores st'
                    = filter (fun store => fst store ≠ id) (stores st)).
    { unfold st', handleDeleteSuccess. by destruct (_ && _). }
    rewrite Hrows. split_and!.
    + eapply sublist_NoDup; [exact Hnd|]. apply fmap_sublist, sublist_filter.
    + intros r. rewrite list_elem_of_filter. tauto.
    + apply sublist_filter.
    + unfold st', handleDeleteSuccess.
      destruct (_ =? _)%nat; cbn; [|lia].
      destruct (Z.ltb_spec 1 (currentPage st)); cbn; lia.
    + unfold st', handleDeleteSuccess. by destruct (_ && _).
    + unfold st', handleDeleteSuccess.
      destruct (_ && _); cbn; [by left|by right].
  - intros u st'. unfold st', handleUpdateSuccess.
    cbn [stores setStoreToEdit setStores currentPage requests storeToEdit].
    split_and!; try reflexivity.
    + apply replaced_ids.
    + intros r Hr Hid. change (map ?f ?l) with (f <$> l) in Hr.
      apply list_elem_of_fmap in Hr as (x & -> & _).
      destruct (decide (fst x = fst u)); [reflexivity|done].
    + intros r Hr Hid. change (map ?f ?l) with (f <$> l).
      apply list_elem_of_fmap. exists r. split; [|exact Hr].
      by rewrite decide_False.
  - intros new st'. unfold st', handleAddSuccess.
    cbn [stores fetchStores setCurrentPage setStores currentPage requests].
    split_and!; try reflexivity.
    intros Hnew. rewrite fmap_cons. by apply NoDup_cons.
Qed.

End StoresTableFacts.

Lemma stores_table_handlers_witness :
  1 ≤ StoresManage.currentPage
        (StoresManage.handleDeleteSuccess 1 Scenes.storesTable)
  ∧ StoresManage.storeToDelete
      (StoresManage.handleDeleteSuccess 1 Scenes.storesTable) = None.
Proof.
  destruct (stores_table_handlers Scenes.storesTable ltac:(simpl; lia)
              ltac:(apply NoDup_singleton)) as (Hdel & _).
  destruct (Hdel 1%N) as (_ & _ & _ & Hpage & Hnone & _).
  split; [exact Hpage|exact Hnone].
Defined.

Section AddDialogFacts.

Import Sonner StoreAddDialog.

Variable StoreInputSchema_parse
  : Server.IStoreInput → list Server.ZodIssue + Server.IStoreInput.



End AddDialogFacts.


(** * Properties of the cards of the post list *)

Section PostCardFacts.

Import Parking PostCard.

(** X27. The parking badge of a card. A post without a store, a store
    with an empty parking text and a store with the boolean [false] all
    show the badge for no parking, whereas the stores table shows the
    badge for unknown when the text is empty. For a text that is not
    empty the card and the stores table show the same status. The
    status for available parking appears exactly for the boolean
    [true], and the status for unknown only for a text that is not
    empty. *)
Theorem card_parking_badge (post : Post) :
  (storeId post = None
   ∨ (∃ s, storeId post = Some s
           ∧ (parking s = inl [] ∨ parking s = inr false)) →
   cardParking post
   = {| status := kw_unavailable; variant := secondary;
        bgColor := Some (js "bg-red-500/90") |})
  ∧ status (getParkingInfo []) = kw_unknown
  ∧ (∀ s text, storeId post = Some s → parking s = inl text → text ≠ [] →
               status (cardParking post) = status (getParkingInfo text))
  ∧ (status (cardParking post) = kw_available
     ↔ ∃ s, storeId post = Some s ∧ parking s = inr true)
  ∧ (status (cardParking post) = kw_unknown →
     ∃ s text, storeId post = Some s ∧ parking s = inl text ∧ text ≠ []).
Proof.
  split_and!.
  - unfold cardParking, parkingOrFalse.
    intros [->|(s & -> & [-> | ->])]; reflexivity.
  - reflexivity.
  - intros s text Hs Hp Hne. unfold cardParking, parkingOrFalse.
    rewrite Hs, Hp.
    destruct text as [|u text]; [done|]. cbn [truthy].
    unfold getParkingInfo_post, getParkingInfo. cbv zeta.
    by repeat destruct (includes _ _).
  - unfold cardParking, parkingOrFalse. split.
    + destruct (storeId post) as [s|]; [|discriminate].
      destruct (parking s) as [text|[|]] eqn:Hp.
      * destruct (truthy text); [|discriminate].
        unfold getParkingInfo_post. cbv zeta.
        repeat destruct (includes _ _); discriminate.
      * intros _. by exists s.
      * discriminate.
    + intros (s & -> & ->). reflexivity.
  - unfold cardParking, parkingOrFalse.
    destruct (storeId post) as [s|]; [|discriminate].
    destruct (parking s) as [text|[|]] eqn:Hp; [|discriminate..].
    destruct text as [|u text]; [discriminate|].
    intros _. by exists s, (u :: text).
Qed.

(** X28. The tag badges of a row of the stores table and of a card:
    nothing is shown exactly for a store without tags; otherwise the
    first tags are shown in their order, at least one and at most
    three, and the badge for the rest is there exactly when there are
    more than three tags and carries their number, so that the tags
    shown and the number on the badge add up to all tags. The image of
    a card is never the empty address: it is the first image of the
    store when that is not empty, and the placeholder when neither the
    store nor the post has one. *)
Theorem card_tags_and_image (post : Post) (tags : list jsstring) :
  (StoresManage.tagBadges tags = None ↔ tags = [])
  ∧ (∀ shown more,
       StoresManage.tagBadges tags = Some (shown, more) →
       shown `prefix_of` tags
       ∧ (1 ≤ length shown ≤ 3)%nat
       ∧ (is_Some more ↔ (3 < length tags)%nat)
       ∧ Z.of_nat (length shown) + from_option id 0 more = Z.of_nat (length tags))
  ∧ (cardTags post = None
     ↔ ∀ s, storeId post = Some s → PostCard.tags s = [])
  ∧ cardImage post ≠ []
  ∧ (∀ s u, storeId post = Some s → head (images s) = Some u → u ≠ [] →
            cardImage post = u)
  ∧ (firstImage post = None ∨ firstImage post = Some [] →
     image post = [] → cardImage post = js "/placeholder.svg").
Proof.
  assert (Hnone : ∀ l, StoresManage.tagBadges l = None ↔ l = []).
  { intros l. unfold StoresManage.tagBadges. by destruct l. }
  split_and!.
  - apply Hnone.
  - intros shown more. unfold StoresManage.tagBadges.
    destruct (Nat.ltb_spec 0 (length tags)); [|discriminate].
    intros [= <- <-]. split_and!.
    + apply prefix_take.
    + rewrite length_take. lia.
    + rewrite length_take. lia.
    + destruct (Nat.ltb_spec 3 (length tags)); split;
        first [done | lia | by intros [? [=]] | by eexists].
    + rewrite length_take.
      destruct (Nat.ltb_spec 3 (length tags));
        cbn [from_option]; unfold id; lia.
  - unfold cardTags. destruct (storeId post) as [s|].
    + rewrite Hnone. split; [by intros H s' [= <-]|eauto].
    + split; [by intros _ s [=]|done].
  - unfold cardImage, or_string.
    destruct (firstImage post) as [[|u l]|], (image post); discriminate.
  - intros s u Hs Hu Hne. unfold cardImage, firstImage, or_string.
    rewrite Hs, Hu. by destruct u.
  - intros Hf Hi. unfold cardImage, or_string. rewrite Hi.
    by destruct Hf as [-> | ->].
Qed.

End PostCardFacts.

(** * The properties on sample data *)


Lemma created_comment_can_be_deleted_witness :
  ∃ r w' cd w'',
    Server.createComment Server.CommentInput Sample.CommentSchema
      Scenes.guestInput Sample.world23 = (Server.Normal r, w')
    ∧ Server.payload r = Some cd
    ∧ Server.deleteComment (Server.d_id cd) w'
      = (Server.Normal (Server.ok_with (Some Server.Msg.deleted) None), w'').
Proof.
  destruct (created_comment_can_be_deleted Server.CommentInput
              Sample.CommentSchema Scenes.guestInput Scenes.guestInput 1%N
              Sample.world23 ltac:(vm_compute; reflexivity)
              ltac:(vm_compute; reflexivity) eq_refl
              ltac:(vm_compute; reflexivity))
    as (r & w' & cd & w'' & Hrun & Hcd & _ & Hdel & _).
  exists r, w', cd, w''. by split_and!.
Defined.

Lemma oneStore_fresh k s :
  Server.stores (Server.db Sample.oneStore) !! k = Some s →
  Server.storeId s ≠ Server.i_storeId Scenes.hongdaeInput.
Proof.
  intros Hk.
  change (({[1%N := Sample.gangnam]} : gmap N Server.Store) !! k = Some s)
    in Hk.
  apply lookup_singleton_Some in Hk as [_ <-].
  vm_compute. discriminate.
Qed.


Lemma oneStore_unique :
  Effects.uniqueStoreIds (Server.stores (Server.db Sample.oneStore)).
Proof.
  intros i j s t Hi Hj _.
  change (({[1%N := Sample.gangnam]} : gmap N Server.Store) !! i = Some s)
    in Hi.
  change (({[1%N := Sample.gangnam]} : gmap N Server.Store) !! j = Some t)
    in Hj.
  apply lookup_singleton_Some in Hi as [<- _].
  by apply lookup_singleton_Some in Hj as [<- _].
Qed.

Lemma createStore_keeps_storeIds_unique_witness :
  Effects.uniqueStoreIds
    (Server.stores
       (Server.db
          (Server.created Scenes.hongdaeInput Sample.oneStore
             Sample.oneStore))).
Proof.
  apply (createStore_keeps_storeIds_unique Sample.StoreSchema
           Scenes.hongdaeInput Sample.oneStore _ _ oneStore_unique
           (createStore_healthy Sample.StoreSchema Scenes.hongdaeInput
              Scenes.hongdaeInput Sample.oneStore
              ltac:(vm_compute; reflexivity) eq_refl oneStore_fresh)).
Defined.

Lemma createStore_twice_conflicts_witness :
  ∃ r2 w2,
    Server.createStore Sample.StoreSchema Scenes.hongdaeInput
      (Server.created Scenes.hongdaeInput Sample.oneStore Sample.oneStore)
    = (Server.Normal r2, w2)
    ∧ Server.success r2 = false
    ∧ Server.error r2 = Some Server.Msg.storeIdTaken.
Proof.
  destruct (createStore_twice_conflicts Sample.StoreSchema
              Scenes.hongdaeInput Sample.oneStore _ _
              (createStore_healthy Sample.StoreSchema Scenes.hongdaeInput
                 Scenes.hongdaeInput Sample.oneStore
                 ltac:(vm_compute; reflexivity) eq_refl oneStore_fresh)
              eq_refl)
    as (r2 & w2 & Hrun & Hfail & _ & Hmsg).
  exists r2, w2. split; [exact Hrun|]. split; [exact Hfail|].
  exact (Hmsg eq_refl).
Defined.

Lemma world23_first_page :
  Server.getAllStoresPage LiteralDot.RegExp 1 10 None Sample.world23
  = (Server.Normal
       (Server.ok_with None
          (Some {| Server.records :=
                     Server.applyLimit 10
                       (drop (Z.to_nat ((1 - 1) * 10))
                          (Server.sortNewestFirst Server.StoreModel
                             (Server.matching Server.StoreModel
                                (fun _ => true)
                                (Server.db Sample.world23))));
                   Server.pagination :=
                     Server.paginationOf 1 10
                       (Z.of_nat
                          (length
                             (Server.matching Server.StoreModel
                                (fun _ => true)
                                (Server.db Sample.world23)))) |})),
     Sample.world23).
Proof.
  by apply stores_listing_healthy; [reflexivity|lia|lia|reflexivity].
Qed.

Lemma listing_returns_stored_records_witness :
  ∃ pg,
    Server.getAllStoresPage LiteralDot.RegExp 1 10 None Sample.world23
    = (Server.Normal (Server.ok_with None (Some pg)), Sample.world23)
    ∧ NoDup (Server.records pg).*1
    ∧ Z.of_nat (length (Server.records pg)) ≤ 10.
Proof.
  destruct (listing_returns_stored_records LiteralDot.RegExp Sample.world23
              1 10 None ltac:(lia) ltac:(lia)) as (H & _).
  destruct (H _ _ _ world23_first_page eq_refl) as (_ & Hnd & Hlen & _).
  eexists. split; [exact world23_first_page|]. split; [exact Hnd|exact Hlen].
Defined.

Lemma world23_distinctTimes :
  Effects.distinctTimes (Server.stores (Server.db Sample.world23)).
Proof.
  intros i j s t Hi Hj Heq.
  apply elem_of_map_to_list in Hi, Hj.
  assert (H : Forall (fun x => Forall (fun y =>
                Server.s_createdAt (snd x) = Server.s_createdAt (snd y) →
                fst x = fst y)
              (map_to_list (Server.stores (Server.db Sample.world23))))
            (map_to_list (Server.stores (Server.db Sample.world23))))
    by (apply (bool_decide_unpack _); vm_compute; exact I).
  rewrite Forall_forall in H. specialize (H (i, s) Hi).
  rewrite Forall_forall in H. exact (H (j, t) Hj Heq).
Qed.

Lemma pages_partition_the_result_witness :
  concat ((fun p =>
             Effects.recordsOf
               (Server.getAllStoresPage LiteralDot.RegExp p 10 None
                  Sample.world23)) <$> seqZ 1 3)
  = Server.sortNewestFirst Server.StoreModel
      (Server.matching Server.StoreModel (fun _ => true)
         (Server.db Sample.world23)).
Proof.
  apply (pages_partition_the_result LiteralDot.RegExp Sample.world23 10 3
           None (fun _ => true)
           (Server.sortNewestFirst Server.StoreModel
              (Server.matching Server.StoreModel (fun _ => true)
                 (Server.db Sample.world23)))
           eq_refl ltac:(lia) world23_distinctTimes
           eq_refl ltac:(vm_compute; reflexivity)
           (merge_sort_Permutation _ _)
           (sortNewestFirst_sorted Server.StoreModel _)).
Defined.

Lemma next_page_means_full_page_witness :
  ∃ pg,
    Server.getAllStoresPage LiteralDot.RegExp 1 10 None Sample.world23
    = (Server.Normal (Server.ok_with None (Some pg)), Sample.world23)
    ∧ Effects.pageConsistent 1 10 (length (Server.records pg))
        (Server.pagination pg).
Proof.
  destruct (next_page_means_full_page LiteralDot.RegExp Sample.world23
              1 10 None ltac:(lia) ltac:(lia)) as (H & _).
  eexists. split; [exact world23_first_page|].
  exact (H _ _ _ world23_first_page eq_refl).
Defined.

Lemma world23_delete_first :
  Server.deleteComment Sample.id1 Sample.world23
  = (Server.Normal (Server.ok_with (Some Server.Msg.deleted) None),
     Server.updated true 1%N Sample.world23 Sample.world23).
Proof.
  apply (deleteComment_healthy Sample.id1 1%N (Sample.comment 1));
    vm_compute; reflexivity.
Qed.

Lemma flag_update_keeps_search_results_witness :
  length (Server.matching Server.Comments (fun _ => true)
            (Server.db (Server.updated true 1%N Sample.world23
                          Sample.world23)))
  = length (Server.matching Server.Comments (fun _ => true)
              (Server.db Sample.world23)).
Proof.
  destruct (flag_update_keeps_search_results LiteralDot.RegExp
              Sample.world23 _ Sample.id1 _ None (fun _ => true) eq_refl
              (or_introl world23_delete_first) eq_refl) as (_ & H).
  exact H.
Defined.

Lemma refused_pattern_fails_witness :
  ∃ w',
    Server.getAllStoresPage LiteralDot.RegExp 1 10 (Some (js "("))
      Sample.oneStore
    = (Server.Normal (Server.fail_error Server.Msg.storePageFailed), w').
Proof.
  destruct (refused_pattern_fails LiteralDot.RegExp Sample.oneStore 1 10
              (js "(") ltac:(vm_compute; discriminate)
              ltac:(vm_compute; reflexivity))
    as ((w' & Hrun & _) & _).
  exists w'. exact Hrun.
Defined.

Lemma fetchComments_outcome_witness :
  CommentsManage.error
    (fst (CommentsManage.fetchComments LiteralDot.RegExp Client.requestLost
            Scenes.table Sample.world23))
  = Some CommentsManage.Txt.loadError.
Proof.
  destruct (fetchComments_outcome LiteralDot.RegExp Client.requestLost
              Scenes.table _ Sample.world23 _ (surjective_pairing _))
    as (_ & _ & _ & _ & _ & _ & H).
  destruct (H ltac:(discriminate)) as (_ & _ & He). exact He.
Defined.


Lemma table_rows_distinct :
  NoDup (map Server.pc_id (CommentsManage.comments Scenes.table)).
Proof. apply (bool_decide_unpack _). vm_compute. reflexivity. Qed.


Lemma range_matches_row_numbers_witness :
  CommentsManage.rangeShown
    (fst (CommentsManage.fetchComments LiteralDot.RegExp Client.delivered
            Scenes.table Sample.world23))
  = Some (21, 23).
Proof.
  destruct (range_matches_row_numbers LiteralDot.RegExp Client.delivered
              Scenes.table _ Sample.world23 _ ltac:(simpl; lia)
              ltac:(simpl; lia) (surjective_pairing _)
              ltac:(vm_compute; reflexivity))
    as (H & _).
  rewrite H by (vm_compute; discriminate). vm_compute. reflexivity.
Defined.

Lemma table_rows_active r :
  r ∈ CommentsManage.comments Scenes.table →
  Server.pc_id r = Server.pc_id (Scenes.row 1) →
  Server.isDeleted (Server.pc_comment r) = false.
Proof.
  intros Hr _. cbn in Hr.
  repeat (apply elem_of_cons in Hr as [->|Hr]; [reflexivity|]).
  by apply elem_of_nil in Hr.
Qed.

Lemma table_delete_then_restore_witness :
  ∃ st1 w1 st2 w2,
    CommentsManage.handleDeleteComment Client.delivered (Scenes.row 1)
      Scenes.table Sample.world23 = (st1, w1)
    ∧ CommentsManage.handleRestoreComment Client.delivered
        (CommentsManage.withDeleted true (Scenes.row 1)) st1 w1 = (st2, w2)
    ∧ CommentsManage.comments st2 = CommentsManage.comments Scenes.table.
Proof.
  destruct (table_delete_then_restore (Scenes.row 1)
              (CommentsManage.withDeleted true (Scenes.row 1))
              (Sample.comment 1) Scenes.table Sample.world23
              ltac:(vm_compute; reflexivity) eq_refl eq_refl
              ltac:(vm_compute; reflexivity) table_rows_active eq_refl)
    as (st1 & w1 & st2 & w2 & H1 & _ & H2 & H3 & _).
  exists st1, w1, st2, w2. by split_and!.
Defined.
